(** * ASRS extraction and HFACS batch classification: a shallow embedding

    The development follows the two scripts of the repository:

    - [asrs_html_to_json.py]: [_parse_acndata_block], [_extract_records];
    - [process_asrs_hfacs.py]: [get_hfacs_classification_from_llm] and the
      merge loop of [main].

    Python strings are sequences of code points; the embedding takes the
    8-bit ones ([ascii]), with Python's own table of white space on that
    range.  Python dictionaries keep insertion order, so they are
    association lists updated in place.  An uncaught exception is a result
    [Raise e].  A parsed [<p>] element is given by its class and by the
    string that [decode_contents()] returns for it; the elements of the
    statements are built from their children (strings, line breaks, inline
    elements) by the serialisation of the markup library. *)

From Stdlib Require Import String Ascii List Bool Arith Lia ZArith.
Set Warnings "-register-all".

Import ListNotations.
Open Scope string_scope.
Open Scope list_scope.

(** ** Exceptions *)

Inductive exn : Type :=
| IndexError | AttributeError | KeyError | TypeError | ValueError
| SystemExit.

Inductive res (A : Type) : Type :=
| Ok (a : A)
| Raise (e : exn).
Arguments Ok {A} a.
Arguments Raise {A} e.

Definition bind {A B : Type} (m : res A) (f : A -> res B) : res B :=
  match m with
  | Ok a => f a
  | Raise e => Raise e
  end.

Notation "x <- m ;; k" := (bind m (fun x => k))
  (at level 61, m at next level, right associativity).

(** [for x in xs: st = body(st, x)], stopping at the first exception. *)
Fixpoint for_each {S A : Type} (body : S -> A -> res S) (xs : list A) (st : S)
  : res S :=
  match xs with
  | [] => Ok st
  | x :: rest => st' <- body st x ;; for_each body rest st'
  end.

(** ** Python strings *)

Module PyStr.

Definition nl : string := String (ascii_of_nat 10) "".

(** [str.isspace] on one character, for code points below 256. *)
Definition isspace (c : ascii) : bool :=
  let n := nat_of_ascii c in
  (Nat.leb 9 n && Nat.leb n 13) || (Nat.leb 28 n && Nat.leb n 32)
  || Nat.eqb n 133 || Nat.eqb n 160.

Definition is_empty (s : string) : bool :=
  match s with
  | EmptyString => true
  | String _ _ => false
  end.

Fixpoint mem (c : ascii) (s : string) : bool :=
  match s with
  | EmptyString => false
  | String c' s' => Ascii.eqb c c' || mem c s'
  end.

Fixpoint lstrip (s : string) : string :=
  match s with
  | EmptyString => EmptyString
  | String c s' => if isspace c then lstrip s' else s
  end.

Fixpoint rstrip_by (p : ascii -> bool) (s : string) : string :=
  match s with
  | EmptyString => EmptyString
  | String c s' =>
      match rstrip_by p s' with
      | EmptyString => if p c then EmptyString else String c EmptyString
      | r => String c r
      end
  end.

(** [s.rstrip()], [s.strip()] and [s.rstrip(chars)]. *)
Definition rstrip (s : string) : string := rstrip_by isspace s.
Definition strip (s : string) : string := rstrip (lstrip s).
Definition rstrip_chars (chars s : string) : string :=
  rstrip_by (fun c => mem c chars) s.

Fixpoint drop (n : nat) (s : string) : string :=
  match n, s with
  | O, _ => s
  | S _, EmptyString => EmptyString
  | S k, String _ s' => drop k s'
  end.

(** [sub in s]. *)
Fixpoint contains (sub s : string) : bool :=
  prefix sub s ||
  match s with
  | EmptyString => false
  | String _ s' => contains sub s'
  end.

Definition startswith (s pre : string) : bool := prefix pre s.

(** The first occurrence of [sep]: the text before it and the text after. *)
Fixpoint split_once (sep s : string) : option (string * string) :=
  if prefix sep s then Some (EmptyString, drop (String.length sep) s)
  else
    match s with
    | EmptyString => None
    | String c s' =>
        match split_once sep s' with
        | Some (a, b) => Some (String c a, b)
        | None => None
        end
    end.

(** [s.split(sep, 1)], for a separator that is not empty. *)
Definition split1 (sep s : string) : list string :=
  match split_once sep s with
  | Some (a, b) => [a; b]
  | None => [s]
  end.

(** [s.split(sep)], for a separator that is not empty: the scan goes left to
    right and [skip] counts the characters of a matched separator that are
    still to be passed over.  The head of the result is the piece being
    read. *)
Fixpoint split_from (sep : string) (skip : nat) (s : string) : string * list string :=
  match s with
  | EmptyString => (EmptyString, [])
  | String c s' =>
      match skip with
      | S k => split_from sep k s'
      | O =>
          if prefix sep s then
            let '(p, ps) := split_from sep (String.length sep - 1) s' in
            (EmptyString, p :: ps)
          else
            let '(p, ps) := split_from sep 0 s' in
            (String c p, ps)
      end
  end.

Definition split (sep s : string) : list string :=
  let '(p, ps) := split_from sep 0 s in p :: ps.

(** [s.split()]: the maximal runs of characters that are not white space. *)
Fixpoint split_ws (s : string) : list string :=
  match s with
  | EmptyString => []
  | String c s' =>
      if isspace c then split_ws s'
      else
        match s' with
        | EmptyString => [String c EmptyString]
        | String c' _ =>
            if isspace c' then String c EmptyString :: split_ws s'
            else
              match split_ws s' with
              | t :: ts => String c t :: ts
              | [] => [String c EmptyString]
              end
        end
  end.

(** [sep.join(l)]. *)
Fixpoint join (sep : string) (l : list string) : string :=
  match l with
  | [] => EmptyString
  | x :: rest =>
      match rest with
      | [] => x
      | _ :: _ => (x ++ sep ++ join sep rest)%string
      end
  end.

(** Iterating a [str] yields its characters, each a string of length 1. *)
Fixpoint chars (s : string) : list string :=
  match s with
  | EmptyString => []
  | String c s' => String c EmptyString :: chars s'
  end.

(** [l[i]]. *)
Definition index {A : Type} (l : list A) (i : nat) : res A :=
  match nth_error l i with
  | Some a => Ok a
  | None => Raise IndexError
  end.

End PyStr.
Import PyStr.

(** ** Python dictionaries: insertion-ordered, updated in place *)

Definition dict (V : Type) : Type := list (string * V).

Fixpoint dget {V : Type} (k : string) (d : dict V) : option V :=
  match d with
  | [] => None
  | (k', v) :: d' => if String.eqb k' k then Some v else dget k d'
  end.

(** [d[k] = v]: an existing key keeps its position, a new key goes last. *)
Fixpoint dset {V : Type} (k : string) (v : V) (d : dict V) : dict V :=
  match d with
  | [] => [(k, v)]
  | (k', v') :: d' =>
      if String.eqb k' k then (k', v) :: d' else (k', v') :: dset k v d'
  end.

Definition dmem {V : Type} (k : string) (d : dict V) : bool :=
  match dget k d with
  | Some _ => true
  | None => false
  end.

(** ** The extractor, [asrs_html_to_json.py] *)

(** A [<p>] element as the extractor sees it: its [class] attribute and what
    [decode_contents()] returns for it. *)
Record tag : Type := mk_tag { classes : list string; contents : string }.

(** [c in sib.get("class", [])]. *)
Definition has_class (c : string) (t : tag) : bool :=
  existsb (String.eqb c) (classes t).

(** A value of a section: a string, or a list of strings. *)
Inductive value : Type :=
| VStr (s : string)
| VList (l : list string).

Definition section : Type := dict value.

(** A value of a record: the identifier, or a section dictionary. *)
Inductive entry : Type :=
| Ident (s : string)
| Sect (d : section).

Definition record : Type := dict entry.

(** [if section_name], for [section_name] that is [None] or a string. *)
Definition truthy (section_name : option string) : bool :=
  match section_name with
  | Some s => negb (is_empty s)
  | None => false
  end.

Section Extractor.

(** The markup library's [get_text(" ", strip=True)] of a fragment (of a
    parsed tag, it is taken on the tag's contents). *)
Variable get_text : string -> string.

Definition _parse_acndata_block (t : tag) : list string :=
  map get_text
      (filter (fun line => negb (is_empty (strip line)))
              (split "<br>" (contents t))).

(** Lines 65 to 73: a [LABEL : value] line. *)
Definition kv_line (sec : section) (line : string) : res section :=
  match map strip (split1 " : " line) with
  | [key; val] =>
      match dget key sec with
      | Some prev =>
          Ok (dset key
                (match prev with
                 | VList l => VList (l ++ [val])
                 | VStr p => VList [p; val]
                 end) sec)
      | None => Ok (dset key (VStr val) sec)
      end
  | _ => Raise ValueError
  end.

(** Line 75: [setdefault("text", []).append(line)]; a [str] has no
    [append]. *)
Definition narrative_line (sec : section) (line : string) : res section :=
  match dget "text" sec with
  | None => Ok (dset "text" (VList [line]) sec)
  | Some (VList l) => Ok (dset "text" (VList (l ++ [line])) sec)
  | Some (VStr _) => Raise AttributeError
  end.

Definition line_step (sec : section) (line : string) : res section :=
  if contains " : " line then kv_line sec line else narrative_line sec line.

(** The body of [for line in lines] on the record: [record[section_name]] is
    looked up and mutated in place.  The marker that set [section_name]
    stored a dictionary under it, so the two last cases do not arise
    ([data_lines_run] below). *)
Definition data_line (section_name : string) (r : record) (line : string)
  : res record :=
  match dget section_name r with
  | Some (Sect sec) =>
      sec' <- line_step sec line ;;
      Ok (dset section_name (Sect sec') r)
  | Some (Ident _) => Raise TypeError
  | None => Raise KeyError
  end.

(** The body of [for sib in heading.find_next_siblings("p")] after the
    [break] test. *)
Definition sib_step (st : record * option string) (sib : tag)
  : res (record * option string) :=
  let '(r, section_name) := st in
  if has_class "acnsection" sib then
    let name := rstrip_chars ":" (get_text (contents sib)) in
    Ok (dset name (Sect []) r, Some name)
  else if has_class "acndata" sib && truthy section_name then
    match section_name with
    | Some name =>
        r' <- for_each (data_line name) (_parse_acndata_block sib) r ;;
        Ok (r', section_name)
    | None => Ok st
    end
  else Ok st.

Fixpoint walk (sibs : list tag) (st : record * option string)
  : res (record * option string) :=
  match sibs with
  | [] => Ok st
  | sib :: rest =>
      if has_class "acnheading" sib then Ok st
      else st' <- sib_step st sib ;; walk rest st'
  end.

(** Lines 48 to 50. *)
Definition heading_record (acn_text : string) : res record :=
  if contains ":" acn_text then
    rest <- index (split1 ":" acn_text) 1 ;;
    tok <- index (split_ws rest) 0 ;;
    Ok [("ACN", Ident tok)]
  else Ok [].

(** Lines 78 to 80. *)
Definition flatten_section (sec : section) : section :=
  match dget "text" sec with
  | Some v =>
      dset "text"
           (VStr (join nl (match v with
                           | VList l => l
                           | VStr s => chars s
                           end))) sec
  | None => sec
  end.

Definition flatten_entry (e : entry) : entry :=
  match e with
  | Sect d => Sect (flatten_section d)
  | Ident s => Ident s
  end.

Definition flatten_record (r : record) : record :=
  map (fun kv => (fst kv, flatten_entry (snd kv))) r.

(** One iteration of the outer loop: the record of [heading], whose next
    siblings are [sibs]. *)
Definition build_record (heading : tag) (sibs : list tag) : res record :=
  r0 <- heading_record (get_text (contents heading)) ;;
  st <- walk sibs (r0, None) ;;
  Ok (flatten_record (fst st)).

(** [soup] is the list of the document's [<p>] elements in document order,
    all siblings: [find_all] keeps the headings, [find_next_siblings] gives
    the elements after one. *)
Fixpoint _extract_records (soup : list tag) : res (list record) :=
  match soup with
  | [] => Ok []
  | t :: rest =>
      if has_class "acnheading" t then
        r <- build_record t rest ;;
        rs <- _extract_records rest ;;
        Ok (r :: rs)
      else _extract_records rest
  end.

End Extractor.

(** *** The children of an element, and [decode_contents]

    What the parser builds inside a [<p>]: strings, line breaks and inline
    elements, which hold nodes in turn.  Attributes are left out and
    comments are not modelled. *)
Inductive node : Type :=
| Text (s : string)
| Br
| Elem (name : string) (children : list node).

(** The names of the inline elements taken into account; none of them is a
    void element, and the strings inside them are written with entities. *)
Definition inline_names : list string :=
  ["a"; "b"; "em"; "font"; "i"; "small"; "span"; "strong"; "sub"; "sup"; "u"].

Fixpoint plain (n : node) : bool :=
  match n with
  | Text _ => true
  | Br => true
  | Elem name children =>
      existsb (String.eqb name) inline_names && forallb plain children
  end.

(** The output formatter of [decode_contents()] writes the characters [&],
    [<] and [>] of a string as entities. *)
Fixpoint escape (s : string) : string :=
  match s with
  | EmptyString => EmptyString
  | String c s' =>
      ((if Ascii.eqb c "&" then "&amp;"
        else if Ascii.eqb c "<" then "&lt;"
        else if Ascii.eqb c ">" then "&gt;"
        else String c EmptyString) ++ escape s')%string
  end.

Fixpoint concat_all (l : list string) : string :=
  match l with
  | [] => EmptyString
  | x :: rest => (x ++ concat_all rest)%string
  end.

Definition start_tag (name : string) : string := ("<" ++ name ++ ">")%string.
Definition end_tag (name : string) : string := ("</" ++ name ++ ">")%string.

(** A line break is a void element and is written [<br/>]. *)
Fixpoint decode (n : node) : string :=
  match n with
  | Text s => escape s
  | Br => "<br/>"
  | Elem name children =>
      (start_tag name ++ concat_all (map decode children) ++ end_tag name)%string
  end.

(** [tag.decode_contents()] for a tag with these children. *)
Definition decode_contents (children : list node) : string :=
  concat_all (map decode children).

(** The strings below a node, in document order. *)
Fixpoint strings_of (n : node) : list string :=
  match n with
  | Text s => [s]
  | Br => []
  | Elem _ children => flat_map strings_of children
  end.

(** [tag.get_text(" ", strip=True)] for a tag with these children: every
    string is stripped, the empty ones are dropped and the rest are joined
    with one space. *)
Definition element_text (children : list node) : string :=
  join " " (filter (fun s => negb (is_empty s))
                   (map strip (flat_map strings_of children))).

(** A [<p>] element of class [cls] with these children. *)
Definition element (cls : string) (children : list node) : tag :=
  mk_tag [cls] (decode_contents children).

(** A [<p>] element of class [cls] that holds the one string [body]. *)
Definition p (cls : string) (body : string) : tag := element cls [Text body].

(** *** Reading a serialised fragment back

    A model of [BeautifulSoup(fragment, "html.parser").get_text(" ",
    strip=True)] on the fragments that [decode_contents] writes for nodes
    as above: the strings are the runs of characters outside [<...>], with
    the three entities of [escape] read back; each is stripped, the empty
    ones are dropped and the rest are joined with one space. *)
Fixpoint text_nodes (in_tag : bool) (s : string) : list string :=
  match s with
  | EmptyString => [EmptyString]
  | String c s' =>
      if in_tag then
        if Ascii.eqb c ">" then text_nodes false s' else text_nodes true s'
      else if Ascii.eqb c "<" then EmptyString :: text_nodes true s'
      else
        match text_nodes false s' with
        | t :: ts => String c t :: ts
        | [] => [String c EmptyString]
        end
  end.

(** [skip] counts the characters of an entity that are still to be passed
    over. *)
Fixpoint unescape_from (skip : nat) (s : string) : string :=
  match s with
  | EmptyString => EmptyString
  | String c s' =>
      match skip with
      | S k => unescape_from k s'
      | O =>
          if prefix "&amp;" s then String "&" (unescape_from 4 s')
          else if prefix "&lt;" s then String "<" (unescape_from 3 s')
          else if prefix "&gt;" s then String ">" (unescape_from 3 s')
          else String c (unescape_from 0 s')
      end
  end.

Definition unescape (s : string) : string := unescape_from 0 s.

Definition markup_text (fragment : string) : string :=
  join " " (filter (fun s => negb (is_empty s))
                   (map (fun s => strip (unescape s))
                        (text_nodes false fragment))).

(** ** The batch classifier, [process_asrs_hfacs.py] *)

(** JSON values as [json.load] returns them (numbers: the integers). *)
Inductive json : Type :=
| JNull
| JBool (b : bool)
| JNum (z : Z)
| JStr (s : string)
| JArr (l : list json)
| JObj (d : list (string * json)).

(** An incident is a JSON object, as the extractor writes it. *)
Definition incident : Type := dict json.

(** What [client.responses.create] does for one request. *)
Inductive outcome : Type :=
| RaisesAPIError (msg : string)
| RaisesJSONDecodeError
| RaisesException (msg : string)
| Response (output_tokens : option Z) (output_text : string).

(** Keys of [incident_map]: Python compares [True] with [1] as equal, and
    lists and dictionaries cannot be hashed. *)
Inductive pykey : Type :=
| KNone
| KNum (z : Z)
| KStr (s : string).

Definition pykey_eqb (a b : pykey) : bool :=
  match a, b with
  | KNone, KNone => true
  | KNum x, KNum y => Z.eqb x y
  | KStr x, KStr y => String.eqb x y
  | _, _ => false
  end.

Definition hash_key (j : json) : res pykey :=
  match j with
  | JNull => Ok KNone
  | JBool b => Ok (KNum (if b then 1 else 0)%Z)
  | JNum z => Ok (KNum z)
  | JStr s => Ok (KStr s)
  | JArr _ | JObj _ => Raise TypeError
  end.

Fixpoint kget (k : pykey) (m : list (pykey * nat)) : option nat :=
  match m with
  | [] => None
  | (k', i) :: m' => if pykey_eqb k' k then Some i else kget k m'
  end.

Fixpoint kset (k : pykey) (i : nat) (m : list (pykey * nat)) : list (pykey * nat) :=
  match m with
  | [] => [(k, i)]
  | (k', i') :: m' =>
      if pykey_eqb k' k then (k', i) :: m' else (k', i') :: kset k i m'
  end.

(** [l[i] = x] for [i] in range. *)
Fixpoint list_set {A : Type} (i : nat) (x : A) (l : list A) : list A :=
  match l, i with
  | [], _ => []
  | _ :: l', O => x :: l'
  | y :: l', S j => y :: list_set j x l'
  end.

(** ["\n".join(l)] for a list of JSON values: every item has to be a
    string. *)
Fixpoint json_strings (l : list json) : res (list string) :=
  match l with
  | [] => Ok []
  | JStr s :: rest => ss <- json_strings rest ;; Ok (s :: ss)
  | _ :: _ => Raise TypeError
  end.

Definition error_descriptor (msg : string) (raw_output : option string) : json :=
  JObj (("error", JStr msg) ::
        match raw_output with
        | Some raw => [("raw_output", JStr raw)]
        | None => []
        end).

Definition fence : string := "```".
Definition fence_json : string := "```json".

Section Classifier.

(** [HFACS_PROMPT_TEMPLATE.format(narrative_text=...)]. *)
Variable format_prompt : string -> string.
(** [count_tokens_for_prompt(..., MODEL_NAME)]. *)
Variable count_tokens : string -> Z.
(** [json.loads]; [None] stands for [JSONDecodeError]. *)
Variable json_loads : string -> option json.
(** The remote service: its answer to a prompt, given the prompts sent to it
    before. *)
Variable service : list string -> string -> outcome.

(** Lines 257 to 260; an index out of range is an [IndexError] inside the
    [try]. *)
Definition strip_fences (llm_output_text : string) : res string :=
  if startswith (strip llm_output_text) fence_json then
    a <- index (split fence_json llm_output_text) 1 ;;
    b <- index (split fence a) 0 ;;
    Ok (strip b)
  else if startswith (strip llm_output_text) fence then
    a <- index (split fence llm_output_text) 1 ;;
    Ok (strip a)
  else Ok llm_output_text.

(** The result and the call log after it: a request is appended to [calls]
    exactly when [client.responses.create] is entered.  The two calls before
    the [try], [format] and [count_tokens_for_prompt], are taken to
    return. *)
Definition get_hfacs_classification_from_llm
  (calls : list string) (narrative_text : string)
  : (list json * Z * Z) * list string :=
  if is_empty narrative_text || is_empty (strip narrative_text) then
    (([], 0%Z, 0%Z), calls)
  else
    let full_prompt := format_prompt narrative_text in
    let actual_input_tokens := count_tokens full_prompt in
    let calls' := calls ++ [full_prompt] in
    match service calls full_prompt with
    | RaisesAPIError msg =>
        (([error_descriptor ("OpenAI API Error: " ++ msg)%string None],
          actual_input_tokens, 0%Z), calls')
    | RaisesJSONDecodeError =>
        (([error_descriptor "Failed to parse LLM JSON response" (Some "N/A")],
          actual_input_tokens, 0%Z), calls')
    | RaisesException msg =>
        (([error_descriptor ("Unexpected error: " ++ msg)%string None],
          actual_input_tokens, 0%Z), calls')
    | Response usage output_text =>
        let actual_output_tokens :=
          match usage with Some n => n | None => 0%Z end in
        match strip_fences output_text with
        | Raise _ =>
            (([error_descriptor "Unexpected error: list index out of range" None],
              actual_input_tokens, actual_output_tokens), calls')
        | Ok llm_output_text =>
            match json_loads llm_output_text with
            | Some (JArr parsed_hfacs) =>
                ((parsed_hfacs, actual_input_tokens, actual_output_tokens), calls')
            | Some _ =>
                (([error_descriptor "LLM did not return a list" (Some llm_output_text)],
                  actual_input_tokens, actual_output_tokens), calls')
            | None =>
                (([error_descriptor "Failed to parse LLM JSON response"
                     (Some llm_output_text)],
                  actual_input_tokens, actual_output_tokens), calls')
            end
        end
    end.

(** *** The merge loop of [main] *)

Variable narrative_field_name : string.

(** Lines 367 to 372. *)
Definition all_have_acn (all_incidents_data : list incident) : bool :=
  forallb (dmem "ACN") all_incidents_data.

Fixpoint build_map (idx : nat) (data : list incident) (m : list (pykey * nat))
  : res (list (pykey * nat)) :=
  match data with
  | [] => Ok m
  | inc :: rest =>
      match dget "ACN" inc with
      | Some acn => k <- hash_key acn ;; build_map (S idx) rest (kset k idx m)
      | None => Raise KeyError
      end
  end.

Definition incident_map (has_acn : bool) (all_incidents_data : list incident)
  : res (list (pykey * nat)) :=
  if has_acn then build_map 0 all_incidents_data [] else Ok [].

(** Lines 388 to 396: the index of the target in the master list, or [None]
    for "Could not find incident".  [has_acn] is computed once, before the
    loop. *)
Definition find_target (has_acn : bool) (all_incidents_data : list incident)
  (imap : list (pykey * nat)) (incident_from_slice : incident)
  (original_incident_idx : nat) : res (option nat) :=
  if has_acn then
    k <- hash_key (match dget "ACN" incident_from_slice with
                   | Some acn => acn
                   | None => JNull
                   end) ;;
    match kget k imap with
    | Some master_list_idx =>
        match dget "ACN" incident_from_slice with
        | Some _ => Ok (Some master_list_idx)
        | None => Raise KeyError
        end
    | None => Ok None
    end
  else if Nat.ltb original_incident_idx (List.length all_incidents_data) then
    Ok (Some original_incident_idx)
  else Ok None.

(** Lines 399 to 407. *)
Definition resolve_narrative (target : incident) : res json :=
  let narrative :=
    match dget narrative_field_name target with
    | Some (JObj narrative_obj) =>
        match dget "text" narrative_obj with
        | Some v => v
        | None => JStr ""
        end
    | Some (JStr s) => JStr s
    | _ => JStr ""
    end in
  match narrative with
  | JArr l => ss <- json_strings l ;; Ok (JStr (join nl ss))
  | other => Ok other
  end.

(** Line 409, [not narrative or not narrative.strip()]: [Some s] when the
    test is false, and then [narrative] is the string [s]. *)
Definition narrative_to_send (narrative : json) : res (option string) :=
  match narrative with
  | JStr s => Ok (if is_empty s || is_empty (strip s) then None else Some s)
  | JNull | JBool false | JObj [] | JArr [] => Ok None
  | JNum z => if Z.eqb z 0 then Ok None else Raise AttributeError
  | _ => Raise AttributeError
  end.

Record loop_state : Type := mk_state {
  all_incidents_data : list incident;
  calls : list string;
  output_file : option (list incident)
}.

(** Lines 399 to 414 for a target that was found. *)
Definition classify_target (st : loop_state) (idx : nat) : res loop_state :=
  target <- index (all_incidents_data st) idx ;;
  narrative <- resolve_narrative target ;;
  to_send <- narrative_to_send narrative ;;
  match to_send with
  | None =>
      Ok (mk_state
            (list_set idx (dset "hfacs_classification" (JArr []) target)
                      (all_incidents_data st))
            (calls st) (output_file st))
  | Some s =>
      let '((hfacs_data, _, _), calls') :=
        get_hfacs_classification_from_llm (calls st) s in
      Ok (mk_state
            (list_set idx (dset "hfacs_classification" (JArr hfacs_data) target)
                      (all_incidents_data st))
            calls' (output_file st))
  end.

(** One iteration of the loop of line 380. *)
Definition iteration (has_acn : bool) (imap : list (pykey * nat))
  (start_idx num : nat) (st : loop_state) (current_processing_idx : nat)
  (incident_from_slice : incident) : res loop_state :=
  found <- find_target has_acn (all_incidents_data st) imap incident_from_slice
             (start_idx + current_processing_idx) ;;
  match found with
  | None => Ok st
  | Some idx =>
      st' <- classify_target st idx ;;
      if Nat.eqb ((current_processing_idx + 1) mod 5) 0
         || Nat.eqb (current_processing_idx + 1) num
      then Ok (mk_state (all_incidents_data st') (calls st')
                        (Some (all_incidents_data st')))
      else Ok st'
  end.

Fixpoint loop (has_acn : bool) (imap : list (pykey * nat))
  (start_idx num : nat) (current_processing_idx : nat)
  (slice : list incident) (st : loop_state) : res loop_state :=
  match slice with
  | [] => Ok st
  | inc :: rest =>
      st' <- iteration has_acn imap start_idx num st current_processing_idx inc ;;
      loop has_acn imap start_idx num (S current_processing_idx) rest st'
  end.

(** Lines 330 to 332, the narrative of the first incident to process, read
    for the cost estimate: [.get(narrative_field_name, {}).get("text", "")]
    needs a dictionary, and a list is joined. *)
Definition estimation_probe (first : incident) : res unit :=
  match dget narrative_field_name first with
  | Some (JObj d) =>
      match dget "text" d with
      | Some (JArr l) => _ <- json_strings l ;; Ok tt
      | _ => Ok tt
      end
  | Some _ => Raise AttributeError
  | None => Ok tt
  end.

(** [load_incidents] exits on an empty list. *)
Definition load_incidents (data : list incident) : res (list incident) :=
  match data with
  | [] => Raise SystemExit
  | _ :: _ => Ok data
  end.

(** Lines 308 to 316: the range to process, or [None] when [main]
    returns at once. *)
Definition processing_range (total : nat) (start_index : Z) (end_index : option Z)
  : option (nat * nat) :=
  let end_idx := match end_index with Some e => e | None => Z.of_nat total end in
  if ((0 <=? start_index) && (start_index <? Z.of_nat total))%Z then
    if ((end_idx <=? start_index) || (Z.of_nat total <? end_idx))%Z
    then Some (Z.to_nat start_index, total)
    else Some (Z.to_nat start_index, Z.to_nat end_idx)
  else None.

(** [main] from line 297 on, for a run that is not [--estimate_only] and
    that the user confirms: the incidents of the input file, the range asked
    for, the output file as it is found ([None]: it does not exist) and the
    calls made so far.  The result is the output file and the calls
    afterwards.  The token totals are only printed and are left out.  The
    master list shares its dictionaries with [incidents] when it is
    [list(incidents)]; the loop writes the key ["hfacs_classification"] only
    and reads the slice at ["ACN"] only, so values stand for the objects. *)
Definition main (input : list incident) (start_index : Z)
  (end_index : option Z) (existing : option (list incident))
  (calls0 : list string) : res (option (list incident) * list string) :=
  incidents <- load_incidents input ;;
  match processing_range (List.length incidents) start_index end_index with
  | None => Ok (existing, calls0)
  | Some (start_idx, end_idx) =>
      let incidents_to_process_list :=
        firstn (end_idx - start_idx) (skipn start_idx incidents) in
      match incidents_to_process_list with
      | [] => Ok (existing, calls0)
      | first :: _ =>
          _ <- estimation_probe first ;;
          data <- match existing with
                  | Some d => load_incidents d
                  | None => Ok incidents
                  end ;;
          let has_acn := all_have_acn data in
          imap <- incident_map has_acn data ;;
          st <- loop has_acn imap start_idx
                  (List.length incidents_to_process_list) 0
                  incidents_to_process_list (mk_state data calls0 existing) ;;
          Ok (Some (all_incidents_data st), calls st)
      end
  end.

End Classifier.

(** ** Further functions of the two scripts *)

(** [c.lower()] for a character below 256: the letters A to Z, and the
    capital letters of Latin-1 (192 to 222, the sign at 215 apart). *)
Definition lower_char (c : ascii) : ascii :=
  let n := nat_of_ascii c in
  if (Nat.leb 65 n && Nat.leb n 90)
     || (Nat.leb 192 n && Nat.leb n 222 && negb (Nat.eqb n 215))
  then ascii_of_nat (n + 32)
  else c.

Fixpoint lower (s : string) : string :=
  match s with
  | EmptyString => EmptyString
  | String c s' => String (lower_char c) (lower s')
  end.

(** [isinstance(value, dict) and "text" in value]. *)
Definition has_text (value : json) : bool :=
  match value with
  | JObj d => dmem "text" d
  | _ => false
  end.

(** The loop of lines 176 to 178 over [incident_sample.items()]. *)
Fixpoint first_narrative_key (items : dict json) : option string :=
  match items with
  | [] => None
  | (key, value) :: rest =>
      if contains "narrative" (lower key) && has_text value then Some key
      else first_narrative_key rest
  end.

(** Lines 169 to 182. *)
Definition find_narrative_field (incident_sample : incident) : string :=
  if match dget "Narrative: 1" incident_sample with
     | Some value => has_text value
     | None => false
     end
  then "Narrative: 1"
  else
    match first_narrative_key incident_sample with
    | Some key => key
    | None => "Narrative: 1"
    end.

(** The records of the extractor as the classifier reads them:
    [json.dump(data, f)] in the extractor's [main] followed by
    [json.load(f)] in [load_incidents]; strings, lists and dictionaries come
    back as they were written. *)
Definition value_json (v : value) : json :=
  match v with
  | VStr s => JStr s
  | VList l => JArr (map JStr l)
  end.

Definition entry_json (e : entry) : json :=
  match e with
  | Ident s => JStr s
  | Sect d => JObj (map (fun kv => (fst kv, value_json (snd kv))) d)
  end.

Definition record_json (r : record) : incident :=
  map (fun kv => (fst kv, entry_json (snd kv))) r.

(** * The vocabulary of the statements *)

(** ** Strings and lines *)

Fixpoint all_chars (q : ascii -> bool) (s : string) : bool :=
  match s with
  | EmptyString => true
  | String c s' => q c && all_chars q s'
  end.

(** A string made of white space only (the empty string too). *)
Definition blank (s : string) : bool := all_chars isspace s.

(** A string that does not go on with a character of a token. *)
Definition token_end (s : string) : bool :=
  match s with
  | EmptyString => true
  | String c _ => isspace c
  end.

(** The heading text has no colon, or a token after its first colon. *)
Definition heading_ok (text : string) : bool :=
  match split_once ":" text with
  | Some (_, rest) => negb (blank rest)
  | None => true
  end.

(** The label and the value of a [LABEL : value] line: the line is cut at
    the first separator and both sides are trimmed. *)
Definition kv_of (line : string) : option (string * string) :=
  match split_once " : " line with
  | Some (a, b) => Some (strip a, strip b)
  | None => None
  end.

Definition labelled (k line : string) : bool :=
  match kv_of line with
  | Some (k', _) => String.eqb k' k
  | None => false
  end.

(** The values given to label [k], in the order of the lines. *)
Definition values_of (k : string) (lines : list string) : list string :=
  flat_map (fun line =>
              match kv_of line with
              | Some (k', v) => if String.eqb k' k then [v] else []
              | None => []
              end) lines.

(** The narrative lines, in order. *)
Definition narrative_of (lines : list string) : list string :=
  filter (fun line => negb (contains " : " line)) lines.

(** What a label holds after the values [vs] were given to it. *)
Definition promoted (vs : list string) : option value :=
  match vs with
  | [] => None
  | [v] => Some (VStr v)
  | _ :: _ :: _ => Some (VList vs)
  end.

(** What ["text"] holds in the working dictionary after the narrative lines
    [ls]. *)
Definition text_lines (ls : list string) : option value :=
  match ls with
  | [] => None
  | _ :: _ => Some (VList ls)
  end.

(** ** The siblings of a heading *)

Definition no_heading (ts : list tag) : bool :=
  forallb (fun t => negb (has_class "acnheading" t)) ts.

Definition no_section (ts : list tag) : bool :=
  forallb (fun t => negb (has_class "acnsection" t)) ts.

(** The siblings that belong to the record of the heading: those before
    the next heading. *)
Fixpoint record_part (sibs : list tag) : list tag :=
  match sibs with
  | [] => []
  | t :: rest =>
      if has_class "acnheading" t then [] else t :: record_part rest
  end.

(** Nothing, or tags of which the first is a section marker. *)
Definition section_head (rest : list tag) : bool :=
  match rest with
  | [] => true
  | t :: _ => has_class "acnsection" t
  end.

Definition on_section (r : record) (name : string) (m : res section)
  : res (record * option string) :=
  match m with
  | Ok sec' => Ok (dset name (Sect sec') r, Some name)
  | Raise e => Raise e
  end.

(** The current section, when data can reach it, is a dictionary whose
    "text" is absent or a list. *)
Definition section_open (r : record) (cur : option string) : Prop :=
  match cur with
  | Some name =>
      is_empty name = true
      \/ exists sec ls, dget name r = Some (Sect sec)
                        /\ dget "text" sec = text_lines ls
  | None => True
  end.

Section ExtractorVocabulary.

Variable get_text : string -> string.

Definition section_name_of (t : tag) : string :=
  rstrip_chars ":" (get_text (contents t)).

(** No section marker among [ts] has the name [name]. *)
Definition not_named (name : string) (ts : list tag) : bool :=
  forallb (fun t => negb (has_class "acnsection" t
                          && String.eqb (section_name_of t) name)) ts.

(** The lines of the data blocks among [mid], in order. *)
Definition block_lines (mid : list tag) : list string :=
  flat_map (fun t => if has_class "acndata" t
                     then _parse_acndata_block get_text t else []) mid.

(** The lines that reach the section's dictionary: none when its name is
    empty, since [if section_name] fails for it. *)
Definition section_lines (name : string) (mid : list tag) : list string :=
  if is_empty name then [] else block_lines mid.

(** No line of a data block has the label "text". *)
Definition block_ok (t : tag) : bool :=
  negb (has_class "acndata" t)
  || forallb (fun line => negb (labelled "text" line))
             (_parse_acndata_block get_text t).

End ExtractorVocabulary.

(** ** Identifiers and merged master lists *)

(** [incident.get("ACN")]. *)
Definition acn_of (inc : incident) : option json := dget "ACN" inc.

(** The identifiers of a master list, as keys of [incident_map]; [None]
    when a record has no "ACN" or one that cannot be hashed. *)
Fixpoint keys_of (data : list incident) : option (list pykey) :=
  match data with
  | [] => Some []
  | inc :: rest =>
      match dget "ACN" inc with
      | Some acn =>
          match hash_key acn, keys_of rest with
          | Ok k, Some ks => Some (k :: ks)
          | _, _ => None
          end
      | None => None
      end
  end.

(** [incident_map] after the loop of line 371 over the keys [ks], the first
    of them at index [idx]. *)
Fixpoint enter_keys (idx : nat) (ks : list pykey) (m : list (pykey * nat))
  : list (pykey * nat) :=
  match ks with
  | [] => m
  | k :: rest => enter_keys (S idx) rest (kset k idx m)
  end.

Definition classification (x : (list json * Z * Z) * list string) : list json :=
  fst (fst (fst x)).

(** The record with its classification attached. *)
Definition classified (target : incident) (cls : list json) : incident :=
  dset "hfacs_classification" (JArr cls) target.

(** The identifiers can key the merge: some record has none (the merge is
    by index), or all can be hashed and are pairwise distinct. *)
Definition usable_ids (data : list incident) : Prop :=
  all_have_acn data = false
  \/ exists ks, keys_of data = Some ks /\ NoDup ks.


Section ClassifierVocabulary.

Variable format_prompt : string -> string.
Variable count_tokens : string -> Z.
Variable json_loads : string -> option json.
Variable service : list string -> string -> outcome.
Variable field : string.

(** The narrative of a record, when it resolves to a string. *)
Definition narrative_text (inc : incident) : option string :=
  match resolve_narrative field inc with
  | Ok (JStr s) => Some s
  | _ => None
  end.

Definition well_formed (inc : incident) : bool :=
  match estimation_probe field inc, narrative_text inc with
  | Ok _, Some _ => true
  | _, _ => false
  end.

(** [cls] is what the classifier gives for the narrative of [target]. *)
Definition produced (target : incident) (cls : list json) : Prop :=
  exists s calls,
    narrative_text target = Some s
    /\ cls = classification
               (get_hfacs_classification_from_llm format_prompt count_tokens
                  json_loads service calls s).

End ClassifierVocabulary.

(** ** Headings, keys and frames *)

(** The headings of a document in order, each with the elements after it. *)
Fixpoint headings_with_siblings (soup : list tag) : list (tag * list tag) :=
  match soup with
  | [] => []
  | t :: rest =>
      if has_class "acnheading" t
      then (t, rest) :: headings_with_siblings rest
      else headings_with_siblings rest
  end.

(** Two records that agree on every field but the classification. *)
Definition same_fields (a b : incident) : Prop :=
  forall k, k <> "hfacs_classification" -> dget k a = dget k b.

(** A key of the sample names a narrative section. *)
Definition narrative_section (key : string) (value : json) : bool :=
  contains "narrative" (lower key) && has_text value.

(** ** Further vocabulary *)

(** Only the key "ACN" can hold an identifier. *)
Definition identifier_at_acn (r : record) : Prop :=
  forall k s, dget k r = Some (Ident s) -> k = "ACN".

(** The narrative the classifier finds under [field] in a record of the
    extractor: the "text" of that section, or the empty string. *)
Definition section_narrative (field : string) (r : record) : string :=
  match dget field r with
  | Some (Sect d) =>
      match dget "text" d with
      | Some (VStr s) => s
      | _ => EmptyString
      end
  | _ => EmptyString
  end.

(** The state after a step: the same records, up to the classification, and
    at most [n] more requests. *)
Definition framed (n : nat) (st st' : loop_state) : Prop :=
  Forall2 same_fields (all_incidents_data st) (all_incidents_data st')
  /\ exists new, calls st' = calls st ++ new /\ List.length new <= n.

(** A string that does not start with white space. *)
Definition head_kept (x : string) : bool :=
  match x with
  | EmptyString => true
  | String c _ => negb (isspace c)
  end.

(** The key a line writes: its label, or "text" for a narrative line. *)
Definition line_key (line : string) : string :=
  match kv_of line with
  | Some (k, _) => k
  | None => "text"
  end.

(** A key seen: it goes last when it is new, and nothing moves. *)
Definition note_key (seen : list string) (k : string) : list string :=
  if existsb (String.eqb k) seen then seen else seen ++ [k].

(** The last index at which [k] stands in [ks]. *)
Fixpoint last_index (k : pykey) (ks : list pykey) : option nat :=
  match ks with
  | [] => None
  | k' :: rest =>
      match last_index k rest with
      | Some j => Some (S j)
      | None => if pykey_eqb k' k then Some 0 else None
      end
  end.

(** ** The record an incident is merged into *)

(** The incidents at the indices from [s] to [e - 1]. *)
Definition slice_of (incidents : list incident) (s e : nat) : list incident :=
  firstn (e - s) (skipn s incidents).

(** The key of an incident's identifier, when it has one that can be
    hashed. *)
Definition key_of (inc : incident) : option pykey :=
  match acn_of inc with
  | Some acn =>
      match hash_key acn with
      | Ok k => Some k
      | Raise _ => None
      end
  | None => None
  end.

Definition has_key (inc : incident) : bool :=
  match key_of inc with
  | Some _ => true
  | None => false
  end.

(** The merge by identifier, or by position when some record of the master
    list has no identifier: the incident [inc], at index [i] of the input,
    goes to the record [target], at index [j] of the master list. *)
Definition goes_to (data : list incident) (inc : incident) (i : nat)
  (target : incident) (j : nat) : Prop :=
  if all_have_acn data
  then exists k, key_of inc = Some k /\ key_of target = Some k
  else i = j.

(** Some incident of the input at an index from [s] to [e - 1] goes to the
    record [target] at index [j]. *)
Definition reached (incidents data : list incident) (s e : nat)
  (target : incident) (j : nat) : Prop :=
  exists i inc,
    s <= i < e /\ nth_error incidents i = Some inc
    /\ goes_to data inc i target j.

(** The index that the lookup of lines 388 to 396 gives. *)
Definition target_of (data : list incident) (inc : incident) (i : nat)
  : option nat :=
  if all_have_acn data then
    match keys_of data, key_of inc with
    | Some ks, Some k => last_index k ks
    | _, _ => None
    end
  else if Nat.ltb i (List.length data) then Some i else None.

(** The indices given for the incidents of a slice that starts at index
    [i]. *)
Fixpoint targets (data : list incident) (i : nat) (slice : list incident)
  : list nat :=
  match slice with
  | [] => []
  | inc :: rest =>
      match target_of data inc i with
      | Some j => j :: targets data (S i) rest
      | None => targets data (S i) rest
      end
  end.

(** The first incident of the range passes the reading of line 330: its
    narrative field is absent, or a dictionary whose "text", when it is a
    list, is a list of strings. *)
Definition probe_passes (field : string) (incidents : list incident) (s : nat)
  : bool :=
  match nth_error incidents s with
  | Some first =>
      match estimation_probe field first with
      | Ok _ => true
      | Raise _ => false
      end
  | None => false
  end.

(** When every record of the master list has an identifier, every incident
    of the range has one that can be hashed. *)
Definition keyed (data incidents : list incident) (s e : nat) : bool :=
  negb (all_have_acn data) || forallb has_key (slice_of incidents s e).

(** The narrative of every record resolves to a string. *)
Definition narratives_resolve (field : string) (data : list incident) : bool :=
  forallb (fun inc => match narrative_text field inc with
                      | Some _ => true
                      | None => false
                      end) data.

Section MergeVocabulary.

Variable format_prompt : string -> string.
Variable count_tokens : string -> Z.
Variable json_loads : string -> option json.
Variable service : list string -> string -> outcome.
Variable field : string.

(** The master list [out] after the records of [data] at the indices [hit]
    were given a classification. *)
Record merged_into (hit : list nat) (data out : list incident) : Prop :=
  mk_merged_into {
  into_ids : map acn_of out = map acn_of data;
  into_hit : forall j target,
    In j hit -> nth_error data j = Some target ->
    exists cls,
      nth_error out j = Some (classified target cls)
      /\ produced format_prompt count_tokens json_loads service field target cls;
  into_rest : forall j, ~ In j hit -> nth_error out j = nth_error data j
}.

End MergeVocabulary.

(** ** Data blocks as elements *)

(** Some child is an element: a line break or an inline element. *)
Definition has_markup (children : list node) : bool :=
  existsb (fun n => match n with Text _ => false | _ => true end) children.

(** The library reads the serialised children back to the text of the
    element: parsing what [decode_contents] wrote gives the same strings. *)
Definition reads_back (get_text : string -> string) (children : list node)
  : Prop :=
  get_text (decode_contents children) = element_text children.

(** The children of a data block as they are in documents: strings, line
    breaks and inline elements, read back by the library. *)
Definition real_block (get_text : string -> string) (children : list node)
  : Prop :=
  forallb plain children = true /\ reads_back get_text children.

(** The one line a data block gives, when its serialised contents are not
    white space only. *)
Definition block_line (children : list node) : list string :=
  if blank (decode_contents children) then [] else [element_text children].

(** A [LABEL : value] line whose label is not "text". *)
Definition other_label (line : string) : bool :=
  match kv_of line with
  | Some (k, _) => negb (String.eqb k "text")
  | None => false
  end.

(** The search for "<br>" goes through [s]: no occurrence begins in it. *)
Definition passes (s : string) : Prop :=
  forall rest, contains "<br>" (s ++ rest) = contains "<br>" rest.

(** ** Reading back what [decode_contents] wrote *)

Definition is_text (n : node) : bool :=
  match n with
  | Text _ => true
  | _ => false
  end.

(** The parser joins the strings that follow one another: no two strings
    are next to each other among the children of an element. *)
Fixpoint apart (l : list node) : bool :=
  match l with
  | [] => true
  | a :: rest =>
      match rest with
      | [] => true
      | b :: _ => negb (is_text a && is_text b) && apart rest
      end
  end.

Fixpoint separated (n : node) : bool :=
  match n with
  | Elem _ children => apart children && forallb separated children
  | _ => true
  end.

(** The runs of characters outside the tags of what is written for [n],
    before the runs [acc] of what follows. *)
Fixpoint segments (n : node) (acc : list string) : list string :=
  match n with
  | Text s =>
      match acc with
      | h :: t => (escape s ++ h)%string :: t
      | [] => [escape s]
      end
  | Br => EmptyString :: acc
  | Elem _ children =>
      EmptyString :: fold_right segments (EmptyString :: acc) children
  end.

Definition starts_empty (l : list string) : bool :=
  match l with
  | EmptyString :: _ => true
  | _ => false
  end.

(** The strings kept by [get_text(" ", strip=True)]. *)
Definition kept (l : list string) : list string :=
  filter (fun s => negb (is_empty s)) (map strip l).

(** The strings of a node are what is kept of its segments. *)
Definition reads_node (n : node) : Prop :=
  separated n = true ->
  forall acc,
    (is_text n = true -> starts_empty acc = true) ->
    kept (map unescape (segments n acc))
    = kept (strings_of n) ++ kept (map unescape acc)
    /\ (is_text n = false -> starts_empty (segments n acc) = true).

(** ** Sample documents and inputs *)

(** A record in which the section marker "Place:" comes twice. *)
Definition twice_marked : list tag :=
  [ p "acnheading" "ACN: 1";
    p "acnsection" "Place:"; p "acndata" "A : 1";
    p "acnsection" "Place:"; p "acndata" "B : 2" ].

(** The siblings of a heading: "Place:" comes twice, then "Time:". *)
Definition twice_marked_tail : list tag :=
  [ p "acnsection" "Place:"; p "acndata" "A : 1";
    p "acnsection" "Place:"; p "acndata" "B : 2";
    p "acnsection" "Time:"; p "acndata" "C : 3" ].

(** Two records that carry the same identifier. *)
Definition two_alike : list incident :=
  [ [("ACN", JStr "7"); ("Narrative", JObj [("text", JStr "first")])];
    [("ACN", JStr "7"); ("Narrative", JObj [("text", JStr "second")])] ].

(** Three records with distinct identifiers, processed over the indices 0, 1
    and then 1, 2. *)
Definition three_distinct : list incident :=
  [ [("ACN", JStr "1"); ("Narrative", JObj [("text", JStr "one")])];
    [("ACN", JStr "2"); ("Narrative", JObj [("text", JStr "two")])];
    [("ACN", JStr "3"); ("Narrative", JObj [("text", JStr "  ")])] ].

(** An output file of an earlier run: the records of [three_distinct] by
    identifier, in another order and with other narratives. *)
Definition three_shuffled : list incident :=
  [ [("ACN", JStr "3"); ("Narrative", JObj [("text", JStr "  ")])];
    [("ACN", JStr "1"); ("Narrative", JObj [("text", JStr "uno")])];
    [("ACN", JStr "2"); ("Narrative", JObj [("text", JStr "due")])] ].

(** * Properties *)

Example parse_block_example :
  _parse_acndata_block markup_text
    (element "acndata"
       [Text "A : 1"; Br; Text "  "; Br; Elem "b" [Text "B & C"]; Text " : 2 "])
  = ["A : 1 B & C : 2"].
Proof. reflexivity. Qed.

Example extract_example :
  _extract_records markup_text
    [ p "acnheading" "ACN: 2184152 (1 of 91)";
      p "acnsection" "Place:";
      p "acndata" "A : 1"; p "acndata" "A : 2"; p "acndata" "A : 3";
      p "acndata" "free text";
      element "acndata" [Text "more"; Br; Text "text"] ]
  = Ok [ [ ("ACN", Ident "2184152");
           ("Place", Sect [ ("A", VList ["1"; "2"; "3"]);
                            ("text", VStr ("free text" ++ nl ++ "more text")%string) ]) ] ].
Proof. reflexivity. Qed.

(** ** Dictionaries *)

Section DictFacts.
Context {V : Type}.
Implicit Types (d : dict V) (k : string) (v : V).

Lemma dget_dset_eq k v d : dget k (dset k v d) = Some v.
Proof.
  induction d as [|[k' v'] d IH]; simpl.
  - now rewrite String.eqb_refl.
  - destruct (String.eqb k' k) eqn:E; simpl; rewrite E; auto.
Qed.

Lemma dget_dset_ne k k' v d : k <> k' -> dget k' (dset k v d) = dget k' d.
Proof.
  intros Hne. induction d as [|[k0 v0] d IH]; simpl.
  - destruct (String.eqb k k') eqn:E; auto.
    apply String.eqb_eq in E. contradiction.
  - destruct (String.eqb k0 k) eqn:E; simpl.
    + apply String.eqb_eq in E. subst k0.
      destruct (String.eqb k k') eqn:E'; auto.
      apply String.eqb_eq in E'. contradiction.
    + now rewrite IH.
Qed.

Lemma dset_dset k v v' d : dset k v' (dset k v d) = dset k v' d.
Proof.
  induction d as [|[k0 v0] d IH]; simpl.
  - now rewrite String.eqb_refl.
  - destruct (String.eqb k0 k) eqn:E; simpl; rewrite E; auto.
    now rewrite IH.
Qed.

Lemma dset_same k v d : dget k d = Some v -> dset k v d = d.
Proof.
  induction d as [|[k0 v0] d IH]; simpl; [discriminate|].
  destruct (String.eqb k0 k) eqn:E.
  - intros [= ->]. reflexivity.
  - intros H. now rewrite IH.
Qed.

Lemma dget_map (f : V -> V) k d :
  dget k (map (fun kv => (fst kv, f (snd kv))) d) = option_map f (dget k d).
Proof.
  induction d as [|[k0 v0] d IH]; simpl; auto.
  destruct (String.eqb k0 k); auto.
Qed.

End DictFacts.

(** ** Strings *)

Lemma contains_cons sep c s :
  contains sep (String c s) = prefix sep (String c s) || contains sep s.
Proof. reflexivity. Qed.

Lemma prefix_nil_r q : prefix q EmptyString = is_empty q.
Proof. now destruct q. Qed.

Lemma prefix_cons a q c x :
  prefix (String a q) (String c x) = Ascii.eqb a c && prefix q x.
Proof.
  cbn [prefix]. destruct (ascii_dec a c) as [->|Hne].
  - now rewrite Ascii.eqb_refl.
  - apply Ascii.eqb_neq in Hne. now rewrite Hne.
Qed.

Lemma split_from_cons sep c s :
  split_from sep 0 (String c s) =
  if prefix sep (String c s)
  then let '(x, xs) := split_from sep (String.length sep - 1) s in
       (EmptyString, x :: xs)
  else let '(x, xs) := split_from sep 0 s in (String c x, xs).
Proof. reflexivity. Qed.

Lemma split_once_cons sep c s :
  split_once sep (String c s) =
  if prefix sep (String c s)
  then Some (EmptyString, drop (String.length sep) (String c s))
  else match split_once sep s with
       | Some (a, b) => Some (String c a, b)
       | None => None
       end.
Proof. reflexivity. Qed.

Lemma contains_split_once sep s :
  contains sep s = true -> exists a b, split_once sep s = Some (a, b).
Proof.
  induction s as [|c s IH].
  - cbn [contains split_once]. rewrite orb_false_r. intros ->. eauto.
  - rewrite contains_cons, split_once_cons.
    destruct (prefix sep (String c s)); cbn [orb]; eauto.
    intros H. destruct (IH H) as (a & b & ->). eauto.
Qed.

Lemma not_contains_split_once sep s :
  contains sep s = false -> split_once sep s = None.
Proof.
  induction s as [|c s IH].
  - cbn [contains split_once]. rewrite orb_false_r. now intros ->.
  - rewrite contains_cons, split_once_cons.
    destruct (prefix sep (String c s)); cbn [orb]; [discriminate|].
    intros H. now rewrite (IH H).
Qed.

Lemma prefix_char c s :
  prefix (String c EmptyString) s =
  match s with
  | EmptyString => false
  | String c' _ => Ascii.eqb c c'
  end.
Proof.
  destruct s as [|c' s]; cbn [prefix]; auto.
  destruct (ascii_dec c c') as [->|Hne].
  - rewrite Ascii.eqb_refl. now destruct s.
  - symmetry. now apply Ascii.eqb_neq.
Qed.

Lemma contains_char c s : contains (String c EmptyString) s = mem c s.
Proof.
  induction s as [|c' s IH].
  - reflexivity.
  - rewrite contains_cons, prefix_char, IH. reflexivity.
Qed.

Lemma mem_app c a b : mem c (a ++ b)%string = mem c a || mem c b.
Proof.
  induction a as [|c' a IH]; simpl; auto.
  now rewrite IH, orb_assoc.
Qed.

Lemma split_once_char c pre rest :
  mem c pre = false ->
  split_once (String c EmptyString) (pre ++ String c rest)%string
  = Some (pre, rest).
Proof.
  induction pre as [|c' pre IH]; intros Hm.
  - cbn [append]. rewrite split_once_cons, prefix_char, Ascii.eqb_refl.
    reflexivity.
  - simpl in Hm. apply orb_false_iff in Hm as [Hc Hm].
    cbn [append]. rewrite split_once_cons, prefix_char, Hc, (IH Hm).
    reflexivity.
Qed.

Lemma split_ws_token tok tail :
  tok <> EmptyString -> all_chars (fun c => negb (isspace c)) tok = true ->
  token_end tail = true ->
  split_ws (tok ++ tail) = tok :: split_ws tail.
Proof.
  induction tok as [|c tok IH]; [congruence|].
  intros _ Hall Hend. simpl in Hall. apply andb_true_iff in Hall as [Hc Hall].
  apply negb_true_iff in Hc.
  destruct tok as [|c' tok].
  - cbn [append]. destruct tail as [|t tail].
    + simpl. now rewrite Hc.
    + simpl in Hend. cbn [split_ws]. rewrite Hc, Hend. reflexivity.
  - assert (Hc' : isspace c' = false).
    { simpl in Hall. apply andb_true_iff in Hall as [H _].
      now apply negb_true_iff in H. }
    assert (IH' := IH ltac:(discriminate) Hall Hend).
    cbn [append] in *. cbn [split_ws]. rewrite Hc, Hc'.
    cbn [split_ws] in IH'. rewrite Hc' in IH'. rewrite IH'. reflexivity.
Qed.

Lemma split_ws_blank ws rest :
  blank ws = true -> split_ws (ws ++ rest) = split_ws rest.
Proof.
  induction ws as [|c ws IH]; simpl; auto.
  intros H. apply andb_true_iff in H as [Hc H]. rewrite Hc. auto.
Qed.

Lemma split_ws_all_blank s : blank s = true -> split_ws s = [].
Proof.
  induction s as [|c s IH]; simpl; auto.
  intros H. apply andb_true_iff in H as [Hc H]. rewrite Hc. auto.
Qed.

Lemma lstrip_blank s : blank s = true -> lstrip s = EmptyString.
Proof.
  induction s as [|c s IH]; simpl; auto.
  intros H. apply andb_true_iff in H as [Hc H]. rewrite Hc. auto.
Qed.

Lemma rstrip_by_empty q s :
  rstrip_by q s = EmptyString <-> all_chars q s = true.
Proof.
  induction s as [|c s IH]; simpl; [tauto|].
  destruct (rstrip_by q s) eqn:E.
  - destruct (q c); simpl.
    + tauto.
    + split; discriminate.
  - split; [discriminate|].
    intros H. apply andb_true_iff in H as [_ H].
    apply IH in H. discriminate.
Qed.

Lemma all_chars_lstrip s : blank (lstrip s) = blank s.
Proof.
  induction s as [|c s IH]; simpl; auto.
  unfold blank in *. destruct (isspace c) eqn:E; simpl; auto.
  now rewrite E.
Qed.

(** [line.strip()] is empty exactly for a line of white space. *)
Lemma strip_empty_iff s : is_empty (strip s) = blank s.
Proof.
  unfold strip, rstrip.
  destruct (blank s) eqn:E.
  - rewrite <- all_chars_lstrip in E. apply rstrip_by_empty in E.
    now rewrite E.
  - destruct (rstrip_by isspace (lstrip s)) eqn:R; auto.
    apply rstrip_by_empty in R. fold (blank (lstrip s)) in R.
    rewrite all_chars_lstrip in R. congruence.
Qed.

(** ** The lines of one section *)

Lemma kv_of_contains line :
  contains " : " line = match kv_of line with Some _ => true | None => false end.
Proof.
  unfold kv_of. destruct (contains " : " line) eqn:E.
  - destruct (contains_split_once _ _ E) as (a & b & ->). reflexivity.
  - now rewrite (not_contains_split_once _ _ E).
Qed.

Lemma line_step_kv sec line k v :
  kv_of line = Some (k, v) ->
  line_step sec line =
  Ok (dset k match dget k sec with
             | Some (VList l) => VList (l ++ [v])
             | Some (VStr q) => VList [q; v]
             | None => VStr v
             end sec).
Proof.
  intros H. unfold line_step. rewrite kv_of_contains, H.
  unfold kv_of in H. unfold kv_line, split1.
  destruct (split_once " : " line) as [[a b]|]; [|discriminate].
  injection H as <- <-. cbn [map].
  destruct (dget (strip a) sec) as [[q|l]|]; reflexivity.
Qed.

Lemma line_step_narrative sec line :
  kv_of line = None -> line_step sec line = narrative_line sec line.
Proof.
  intros H. unfold line_step. now rewrite kv_of_contains, H.
Qed.

Lemma promoted_snoc vs v :
  promoted (vs ++ [v]) =
  Some match promoted vs with
       | Some (VList l) => VList (l ++ [v])
       | Some (VStr q) => VList [q; v]
       | None => VStr v
       end.
Proof. destruct vs as [|a [|b vs]]; reflexivity. Qed.

Lemma text_lines_snoc ls line :
  text_lines (ls ++ [line]) =
  Some match text_lines ls with
       | Some (VList l) => VList (l ++ [line])
       | _ => VList [line]
       end.
Proof. destruct ls; reflexivity. Qed.

Lemma line_step_label k sec sec' vs line :
  k <> "text" ->
  dget k sec = promoted vs ->
  line_step sec line = Ok sec' ->
  dget k sec' = promoted (vs ++ values_of k [line]).
Proof.
  intros Hk Hsec Hstep. unfold values_of. cbn [flat_map].
  rewrite app_nil_r.
  destruct (kv_of line) as [[k' v]|] eqn:E.
  - rewrite (line_step_kv _ _ _ _ E) in Hstep. injection Hstep as <-.
    destruct (String.eqb k' k) eqn:Ek.
    + apply String.eqb_eq in Ek. subst k'.
      rewrite dget_dset_eq, promoted_snoc, Hsec. reflexivity.
    + apply String.eqb_neq in Ek.
      rewrite dget_dset_ne, app_nil_r by assumption. assumption.
  - rewrite (line_step_narrative _ _ E) in Hstep. rewrite app_nil_r.
    unfold narrative_line in Hstep.
    destruct (dget "text" sec) as [[q|l]|]; try discriminate;
      injection Hstep as <-; rewrite dget_dset_ne; auto.
Qed.

Lemma line_step_text sec sec' ls line :
  labelled "text" line = false ->
  dget "text" sec = text_lines ls ->
  line_step sec line = Ok sec' ->
  dget "text" sec' = text_lines (ls ++ narrative_of [line]).
Proof.
  intros Hlab Hsec Hstep. unfold narrative_of. cbn [filter].
  rewrite kv_of_contains. unfold labelled in Hlab.
  destruct (kv_of line) as [[k' v]|] eqn:E; cbn [negb].
  - rewrite (line_step_kv _ _ _ _ E) in Hstep. injection Hstep as <-.
    apply String.eqb_neq in Hlab.
    rewrite dget_dset_ne, app_nil_r by assumption. assumption.
  - rewrite (line_step_narrative _ _ E) in Hstep.
    unfold narrative_line in Hstep. rewrite Hsec in Hstep.
    rewrite text_lines_snoc.
    destruct (text_lines ls) as [[q|l]|] eqn:T.
    + destruct ls; discriminate.
    + injection Hstep as <-. now rewrite dget_dset_eq.
    + injection Hstep as <-. now rewrite dget_dset_eq.
Qed.

Lemma line_step_total sec ls line :
  labelled "text" line = false ->
  dget "text" sec = text_lines ls ->
  exists sec', line_step sec line = Ok sec'.
Proof.
  intros Hlab Hsec.
  destruct (kv_of line) as [[k' v]|] eqn:E.
  - rewrite (line_step_kv _ _ _ _ E). eauto.
  - rewrite (line_step_narrative _ _ E). unfold narrative_line. rewrite Hsec.
    destruct ls; cbn [text_lines]; eauto.
Qed.

Lemma values_of_app k l1 l2 :
  values_of k (l1 ++ l2) = values_of k l1 ++ values_of k l2.
Proof. unfold values_of. apply flat_map_app. Qed.

Lemma narrative_of_app l1 l2 :
  narrative_of (l1 ++ l2) = narrative_of l1 ++ narrative_of l2.
Proof. unfold narrative_of. apply filter_app. Qed.

Lemma lines_label k lines : forall sec sec' vs,
  k <> "text" ->
  dget k sec = promoted vs ->
  for_each line_step lines sec = Ok sec' ->
  dget k sec' = promoted (vs ++ values_of k lines).
Proof.
  induction lines as [|line lines IH]; intros sec sec' vs Hk Hsec Hrun.
  - injection Hrun as <-. now rewrite app_nil_r.
  - cbn [for_each] in Hrun.
    destruct (line_step sec line) as [sec1|e] eqn:E; [|discriminate].
    cbn [bind] in Hrun.
    change (line :: lines) with ([line] ++ lines).
    rewrite values_of_app, app_assoc.
    eapply IH; eauto using line_step_label.
Qed.

Lemma lines_text lines : forall sec sec' ls,
  forallb (fun line => negb (labelled "text" line)) lines = true ->
  dget "text" sec = text_lines ls ->
  for_each line_step lines sec = Ok sec' ->
  dget "text" sec' = text_lines (ls ++ narrative_of lines).
Proof.
  induction lines as [|line lines IH]; intros sec sec' ls Hlab Hsec Hrun.
  - injection Hrun as <-. now rewrite app_nil_r.
  - cbn [forallb] in Hlab. apply andb_true_iff in Hlab as [H1 Hlab].
    apply negb_true_iff in H1.
    cbn [for_each] in Hrun.
    destruct (line_step sec line) as [sec1|e] eqn:E; [|discriminate].
    cbn [bind] in Hrun.
    change (line :: lines) with ([line] ++ lines).
    rewrite narrative_of_app, app_assoc.
    eapply IH; eauto using line_step_text.
Qed.

Lemma lines_total lines : forall sec ls,
  forallb (fun line => negb (labelled "text" line)) lines = true ->
  dget "text" sec = text_lines ls ->
  exists sec', for_each line_step lines sec = Ok sec'.
Proof.
  induction lines as [|line lines IH]; intros sec ls Hlab Hsec.
  - cbn. eauto.
  - cbn [forallb] in Hlab. apply andb_true_iff in Hlab as [H1 Hlab].
    apply negb_true_iff in H1.
    destruct (line_step_total _ _ _ H1 Hsec) as [sec1 E].
    cbn [for_each]. rewrite E. cbn [bind].
    eapply IH; eauto using line_step_text.
Qed.

(** ** The walk over the siblings of a heading *)

Lemma for_each_app {S A : Type} (body : S -> A -> res S) (l1 l2 : list A) (st : S) :
  for_each body (l1 ++ l2) st = (st' <- for_each body l1 st ;; for_each body l2 st').
Proof.
  revert st. induction l1 as [|x l1 IH]; intros st; cbn [app for_each bind]; auto.
  destruct (body st x); cbn [bind]; auto.
Qed.

Section ExtractorFacts.

Variable get_text : string -> string.

Lemma data_lines_run name lines : forall r sec,
  dget name r = Some (Sect sec) ->
  for_each (data_line name) lines r =
  match for_each line_step lines sec with
  | Ok sec' => Ok (dset name (Sect sec') r)
  | Raise e => Raise e
  end.
Proof.
  induction lines as [|line lines IH]; intros r sec Hr; cbn [for_each].
  - now rewrite dset_same.
  - unfold data_line at 1. rewrite Hr.
    destruct (line_step sec line) as [sec1|e]; cbn [bind]; auto.
    rewrite (IH _ sec1) by apply dget_dset_eq.
    destruct (for_each line_step lines sec1); auto.
    now rewrite dset_dset.
Qed.

Lemma walk_in_section mid : forall r name sec,
  no_heading mid = true ->
  no_section mid = true ->
  is_empty name = false ->
  dget name r = Some (Sect sec) ->
  walk get_text mid (r, Some name) =
  on_section r name (for_each line_step (block_lines get_text mid) sec).
Proof.
  induction mid as [|t mid IH]; intros r name sec Hnh Hns Hne Hr.
  - cbn. now rewrite dset_same.
  - cbn [no_heading forallb] in Hnh. apply andb_true_iff in Hnh as [Hh Hnh].
    apply negb_true_iff in Hh.
    cbn [no_section forallb] in Hns. apply andb_true_iff in Hns as [Ht Hns].
    apply negb_true_iff in Ht.
    unfold block_lines. cbn [walk flat_map]. fold (block_lines get_text mid).
    rewrite Hh. unfold sib_step. rewrite Ht. cbn [truthy]. rewrite Hne.
    cbn [negb]. rewrite andb_true_r, for_each_app.
    destruct (has_class "acndata" t).
    + rewrite (data_lines_run _ _ _ _ Hr).
      destruct (for_each line_step (_parse_acndata_block get_text t) sec)
        as [sec1|e]; cbn [bind on_section]; auto.
      rewrite (IH _ _ sec1) by auto using dget_dset_eq.
      destruct (for_each line_step (block_lines get_text mid) sec1);
        cbn [on_section]; auto.
      now rewrite dset_dset.
    + cbn [bind for_each]. now apply IH.
Qed.

Lemma walk_unnamed mid : forall r,
  no_section mid = true ->
  walk get_text mid (r, Some EmptyString) = Ok (r, Some EmptyString).
Proof.
  induction mid as [|t mid IH]; intros r Hns; cbn [walk]; auto.
  cbn [no_section forallb] in Hns. apply andb_true_iff in Hns as [Ht Hns].
  apply negb_true_iff in Ht.
  destruct (has_class "acnheading" t); auto.
  unfold sib_step. rewrite Ht. cbn [truthy is_empty negb].
  rewrite andb_false_r. cbn [bind]. now apply IH.
Qed.

Lemma walk_app pre post : forall st,
  no_heading pre = true ->
  walk get_text (pre ++ post) st = (st' <- walk get_text pre st ;; walk get_text post st').
Proof.
  induction pre as [|t pre IH]; intros st Hnh; cbn [app walk bind]; auto.
  cbn [no_heading forallb] in Hnh. apply andb_true_iff in Hnh as [Ht Hnh].
  apply negb_true_iff in Ht. rewrite Ht.
  destruct (sib_step get_text st t); cbn [bind]; auto.
Qed.

(** The walk sees the siblings up to the next heading only. *)
Lemma walk_record_part sibs : forall st,
  walk get_text sibs st = walk get_text (record_part sibs) st.
Proof.
  induction sibs as [|t sibs IH]; intros st; cbn [walk record_part]; auto.
  destruct (has_class "acnheading" t) eqn:Hh; auto.
  cbn [walk]. rewrite Hh.
  destruct (sib_step get_text st t); cbn [bind]; auto.
Qed.

Lemma record_part_no_heading sibs : no_heading (record_part sibs) = true.
Proof.
  induction sibs as [|t sibs IH]; cbn [record_part]; auto.
  destruct (has_class "acnheading" t) eqn:Hh; auto.
  cbn [no_heading forallb]. now rewrite Hh.
Qed.

Lemma flatten_record_get k r :
  dget k (flatten_record r) = option_map flatten_entry (dget k r).
Proof. apply dget_map. Qed.

Lemma data_lines_other name k lines : forall r r',
  name <> k ->
  for_each (data_line name) lines r = Ok r' ->
  dget k r' = dget k r.
Proof.
  induction lines as [|line lines IH]; intros r r' Hne Hrun.
  - now injection Hrun as <-.
  - cbn [for_each] in Hrun. unfold data_line at 1 in Hrun.
    destruct (dget name r) as [[s|sec]|]; try discriminate.
    destruct (line_step sec line) as [sec1|e]; [|discriminate].
    cbn [bind] in Hrun. rewrite (IH _ _ Hne Hrun).
    now apply dget_dset_ne.
Qed.

(** A key that names no section among the siblings, and not the current
    one, is left as it was. *)
Lemma walk_keeps_key k sibs : forall r cur r' cur',
  not_named get_text k sibs = true ->
  cur <> Some k ->
  walk get_text sibs (r, cur) = Ok (r', cur') ->
  dget k r' = dget k r.
Proof.
  induction sibs as [|t sibs IH]; intros r cur r' cur' Hall Hcur Hrun.
  - now injection Hrun as <- _.
  - cbn [not_named forallb] in Hall. apply andb_true_iff in Hall as [Ht Hall].
    fold (not_named get_text k sibs) in Hall.
    apply negb_true_iff in Ht. cbn [walk] in Hrun.
    destruct (has_class "acnheading" t).
    { now injection Hrun as <- _. }
    unfold sib_step in Hrun.
    destruct (has_class "acnsection" t).
    + cbn [andb] in Ht. apply String.eqb_neq in Ht.
      unfold section_name_of in Ht. cbn [bind] in Hrun.
      assert (Hc : Some (rstrip_chars ":" (get_text (contents t))) <> Some k)
        by congruence.
      rewrite (IH _ _ _ _ Hall Hc Hrun).
      now apply dget_dset_ne.
    + destruct (has_class "acndata" t && truthy cur).
      * destruct cur as [name|].
        -- destruct (for_each (data_line name)
                       (_parse_acndata_block get_text t) r) as [r1|e] eqn:E;
             [|discriminate].
           cbn [bind] in Hrun.
           rewrite (IH _ _ _ _ Hall Hcur Hrun).
           eapply data_lines_other; eauto. congruence.
        -- cbn [bind] in Hrun. eauto.
      * cbn [bind] in Hrun. eauto.
Qed.

(** After the data of a section, the rest of the record leaves the section
    as it is when no marker of that name comes again. *)
Lemma walk_rest_keeps name rest : forall r r' cur',
  section_head rest = true ->
  not_named get_text name rest = true ->
  walk get_text rest (r, Some name) = Ok (r', cur') ->
  dget name r' = dget name r.
Proof.
  intros r r' cur' Hhead Hnn Hrun.
  destruct rest as [|t rest]; [now injection Hrun as <- _|].
  cbn [section_head] in Hhead.
  cbn [not_named forallb] in Hnn. apply andb_true_iff in Hnn as [Ht Hnn].
  fold (not_named get_text name rest) in Hnn.
  rewrite Hhead in Ht. cbn [andb] in Ht.
  apply negb_true_iff, String.eqb_neq in Ht. unfold section_name_of in Ht.
  cbn [walk] in Hrun.
  destruct (has_class "acnheading" t); [now injection Hrun as <- _|].
  unfold sib_step in Hrun. rewrite Hhead in Hrun. cbn [bind] in Hrun.
  assert (Hc : Some (rstrip_chars ":" (get_text (contents t))) <> Some name)
    by congruence.
  rewrite (walk_keeps_key _ _ _ _ _ _ Hnn Hc Hrun).
  now apply dget_dset_ne.
Qed.

(** The section of a marker [t] in the final record, when the tags of the
    record are [pre], then [t], then tags [mid] without a section marker,
    then [rest], which is empty or starts with a section marker and has no
    marker of the name of [t]: it holds what the lines of [mid] give, from
    an empty dictionary, whatever came before. *)
Lemma final_section heading sibs pre t mid rest r :
  build_record get_text heading sibs = Ok r ->
  record_part sibs = pre ++ t :: mid ++ rest ->
  has_class "acnsection" t = true ->
  no_section mid = true ->
  section_head rest = true ->
  not_named get_text (section_name_of get_text t) rest = true ->
  exists sec,
    for_each line_step (section_lines get_text (section_name_of get_text t) mid) []
    = Ok sec
    /\ dget (section_name_of get_text t) r = Some (Sect (flatten_section sec)).
Proof.
  intros Hr Hpart Hts Hmid Hhead Hnn. unfold build_record in Hr.
  destruct (heading_record (get_text (contents heading))) as [r0|e];
    [|discriminate].
  cbn [bind] in Hr. rewrite walk_record_part, Hpart in Hr.
  pose proof (record_part_no_heading sibs) as Hnh. rewrite Hpart in Hnh.
  unfold no_heading in Hnh. rewrite forallb_app in Hnh.
  apply andb_true_iff in Hnh as [Hpre Hnh]. cbn [forallb] in Hnh.
  apply andb_true_iff in Hnh as [Hth Hnh]. apply negb_true_iff in Hth.
  rewrite forallb_app in Hnh. apply andb_true_iff in Hnh as [Hmidh _].
  rewrite walk_app in Hr by exact Hpre.
  destruct (walk get_text pre (r0, None)) as [[r1 c1]|e]; [|discriminate].
  cbn [bind walk] in Hr. rewrite Hth in Hr.
  unfold sib_step in Hr. rewrite Hts in Hr. cbn [bind] in Hr.
  fold (section_name_of get_text t) in Hr.
  rewrite walk_app in Hr by exact Hmidh. unfold section_lines.
  set (name := section_name_of get_text t) in *.
  assert (Hmidrun : exists sec,
             for_each line_step (if is_empty name then []
                                 else block_lines get_text mid) [] = Ok sec
             /\ walk get_text mid (dset name (Sect []) r1, Some name)
                = Ok (dset name (Sect sec) r1, Some name)).
  { destruct (is_empty name) eqn:Hname.
    - destruct name; [|discriminate].
      exists []. split; [reflexivity|]. now apply walk_unnamed.
    - rewrite (walk_in_section _ _ _ [] Hmidh Hmid Hname) in *
        by apply dget_dset_eq.
      destruct (for_each line_step (block_lines get_text mid) [])
        as [sec|e]; [|discriminate].
      exists sec. split; [reflexivity|]. cbn [on_section].
      now rewrite dset_dset. }
  destruct Hmidrun as (sec & Hsec & Hwalk). rewrite Hwalk in Hr.
  cbn [bind] in Hr.
  destruct (walk get_text rest (dset name (Sect sec) r1, Some name))
    as [[r2 c2]|e] eqn:Hrest; [|discriminate].
  cbn [bind fst] in Hr. injection Hr as <-.
  exists sec. split; [exact Hsec|].
  rewrite flatten_record_get, (walk_rest_keeps _ _ _ _ _ Hhead Hnn Hrest).
  now rewrite dget_dset_eq.
Qed.

End ExtractorFacts.

(** ** The heading *)

Lemma heading_record_token pre ws tok tail :
  mem ":" pre = false -> blank ws = true ->
  tok <> EmptyString -> all_chars (fun c => negb (isspace c)) tok = true ->
  token_end tail = true ->
  heading_record (pre ++ ":" ++ ws ++ tok ++ tail) = Ok [("ACN", Ident tok)].
Proof.
  intros Hpre Hws Htok Hall Hend. unfold heading_record.
  rewrite contains_char, mem_app. cbn [append mem].
  rewrite Ascii.eqb_refl, orb_true_r.
  unfold split1. rewrite split_once_char by assumption.
  cbn [index nth_error bind].
  rewrite split_ws_blank, split_ws_token by assumption.
  reflexivity.
Qed.

Lemma heading_record_no_colon text :
  mem ":" text = false -> heading_record text = Ok [].
Proof.
  intros H. unfold heading_record. now rewrite contains_char, H.
Qed.

Lemma heading_record_no_token pre ws :
  mem ":" pre = false -> blank ws = true ->
  heading_record (pre ++ ":" ++ ws) = Raise IndexError.
Proof.
  intros Hpre Hws. unfold heading_record.
  rewrite contains_char, mem_app. cbn [append mem].
  rewrite Ascii.eqb_refl, orb_true_r.
  unfold split1. rewrite split_once_char by assumption.
  cbn [index nth_error bind].
  now rewrite split_ws_all_blank.
Qed.

Lemma flatten_section_other k sec :
  k <> "text" -> dget k (flatten_section sec) = dget k sec.
Proof.
  intros Hk. unfold flatten_section.
  destruct (dget "text" sec); auto.
  apply dget_dset_ne. congruence.
Qed.

Lemma flatten_section_text sec :
  dget "text" (flatten_section sec) =
  match dget "text" sec with
  | Some (VList l) => Some (VStr (join nl l))
  | Some (VStr s) => Some (VStr (join nl (chars s)))
  | None => None
  end.
Proof.
  unfold flatten_section.
  destruct (dget "text" sec) as [[s|l]|] eqn:E; auto using dget_dset_eq.
Qed.

(** ** When the extraction returns *)

Lemma split_ws_not_blank s :
  blank s = false -> exists t ts, split_ws s = t :: ts.
Proof.
  induction s as [|c s IH]; [discriminate|].
  unfold blank. cbn [all_chars split_ws].
  destruct (isspace c); cbn [andb].
  - exact IH.
  - intros _. destruct s as [|c' s]; [eauto|].
    destruct (isspace c'); [eauto|].
    destruct (split_ws (String c' s)); eauto.
Qed.

Lemma heading_record_total text :
  heading_ok text = true -> exists r0, heading_record text = Ok r0.
Proof.
  unfold heading_ok, heading_record, split1.
  destruct (contains ":" text) eqn:E.
  - destruct (contains_split_once _ _ E) as (a & b & ->).
    intros Hb. apply negb_true_iff in Hb.
    destruct (split_ws_not_blank _ Hb) as (t & ts & Ht).
    cbn [index nth_error bind]. rewrite Ht. cbn. eauto.
  - eauto.
Qed.

Section ExtractionReturns.

Variable get_text : string -> string.

Lemma walk_total sibs : forall r cur,
  forallb (block_ok get_text) sibs = true ->
  section_open r cur ->
  exists st, walk get_text sibs (r, cur) = Ok st.
Proof.
  induction sibs as [|t sibs IH]; intros r cur Hok Hopen; cbn [walk]; eauto.
  cbn [forallb] in Hok. apply andb_true_iff in Hok as [Ht Hok].
  destruct (has_class "acnheading" t); eauto.
  unfold sib_step. destruct (has_class "acnsection" t).
  { cbn [bind]. apply IH; auto. right. exists [], [].
    split; [apply dget_dset_eq|reflexivity]. }
  destruct (has_class "acndata" t && truthy cur) eqn:Hd;
    [|cbn [bind]; now apply IH].
  apply andb_true_iff in Hd as [Hdata Htr].
  destruct cur as [name|]; [|discriminate].
  cbn [truthy] in Htr. apply negb_true_iff in Htr.
  destruct Hopen as [He|(sec & ls & Hr & Htext)]; [congruence|].
  unfold block_ok in Ht. rewrite Hdata in Ht. cbn [negb orb] in Ht.
  rewrite (data_lines_run _ _ _ _ Hr).
  destruct (lines_total _ _ _ Ht Htext) as [sec' Hrun].
  rewrite Hrun. cbn [bind]. apply IH; auto.
  right. exists sec', (ls ++ narrative_of (_parse_acndata_block get_text t)).
  split; [apply dget_dset_eq|]. eapply lines_text; eauto.
Qed.

(** The extraction returns a list of records when every heading has no
    colon or a token after it, and no line of a data block has the label
    "text": the two exceptions of C2 and C10 are the only ones. *)
Lemma extraction_returns soup :
  forallb (fun t => negb (has_class "acnheading" t)
                    || heading_ok (get_text (contents t))) soup = true ->
  forallb (block_ok get_text) soup = true ->
  exists records, _extract_records get_text soup = Ok records.
Proof.
  induction soup as [|t soup IH]; intros Hh Hb; cbn [_extract_records]; eauto.
  cbn [forallb] in Hh, Hb.
  apply andb_true_iff in Hh as [Ht Hh]. apply andb_true_iff in Hb as [_ Hb].
  destruct (IH Hh Hb) as [rs Hrs]. rewrite Hrs.
  destruct (has_class "acnheading" t); eauto.
  cbn [negb orb] in Ht. unfold build_record.
  destruct (heading_record_total _ Ht) as [r0 ->]. cbn [bind].
  destruct (walk_total soup r0 None Hb I) as [st ->]. cbn [bind]. eauto.
Qed.

End ExtractionReturns.

(** ** Elements and the lines of a data block *)

Lemma node_induction (P : node -> Prop) :
  (forall s, P (Text s)) -> P Br ->
  (forall name children, Forall P children -> P (Elem name children)) ->
  forall n, P n.
Proof.
  intros HT HB HE. fix IH 1. intros [s| |name children].
  - apply HT.
  - apply HB.
  - apply HE. induction children as [|c cs IHcs]; constructor.
    + apply IH.
    + apply IHcs.
Qed.

Lemma append_assoc (a b c : string) : ((a ++ b) ++ c = a ++ (b ++ c))%string.
Proof. induction a as [|x a IH]; cbn [append]; congruence. Qed.

Lemma append_nil_r (a : string) : (a ++ "")%string = a.
Proof. induction a as [|x a IH]; cbn [append]; congruence. Qed.

Lemma all_chars_app q (a b : string) :
  all_chars q (a ++ b) = all_chars q a && all_chars q b.
Proof.
  induction a as [|x a IH]; cbn [append all_chars]; auto.
  now rewrite IH, andb_assoc.
Qed.

Lemma passes_nil : passes "".
Proof. intros rest. reflexivity. Qed.

Lemma passes_app a b : passes a -> passes b -> passes (a ++ b).
Proof. intros Ha Hb rest. now rewrite append_assoc, Ha, Hb. Qed.

Lemma passes_char c : Ascii.eqb c "<" = false -> passes (String c "").
Proof.
  intros H rest. cbn [append]. rewrite contains_cons, prefix_cons.
  now rewrite Ascii.eqb_sym, H.
Qed.

Lemma passes_without s : mem "<" s = false -> passes s.
Proof.
  induction s as [|c s IH]; intros H; [apply passes_nil|].
  cbn [mem] in H. apply orb_false_iff in H as [H1 H2].
  change (String c s) with (String c "" ++ s)%string.
  apply passes_app; [apply passes_char|apply IH; assumption].
  now rewrite Ascii.eqb_sym.
Qed.

Lemma mem_escape s : mem "<" (escape s) = false.
Proof.
  induction s as [|c s IH]; [reflexivity|].
  cbn [escape]. rewrite mem_app, IH, orb_false_r.
  destruct (Ascii.eqb c "&"); [reflexivity|].
  destruct (Ascii.eqb c "<") eqn:E; [reflexivity|].
  destruct (Ascii.eqb c ">"); [reflexivity|].
  cbn [mem]. now rewrite Ascii.eqb_sym, E.
Qed.

Lemma inline_name_cases (P : string -> Prop) name :
  existsb (String.eqb name) inline_names = true ->
  Forall P inline_names -> P name.
Proof.
  intros H HP. apply existsb_exists in H as (x & Hx & E).
  apply String.eqb_eq in E. subst x.
  eapply Forall_forall; eauto.
Qed.

Lemma passes_start_tag name :
  existsb (String.eqb name) inline_names = true -> passes (start_tag name).
Proof.
  intros H. apply (inline_name_cases (fun n => passes (start_tag n)) _ H).
  repeat constructor; intros rest; reflexivity.
Qed.

Lemma passes_end_tag name :
  existsb (String.eqb name) inline_names = true -> passes (end_tag name).
Proof.
  intros H. apply (inline_name_cases (fun n => passes (end_tag n)) _ H).
  repeat constructor; intros rest; reflexivity.
Qed.

Lemma passes_concat_all l : Forall passes l -> passes (concat_all l).
Proof.
  induction 1; cbn [concat_all]; [apply passes_nil|now apply passes_app].
Qed.

Lemma decode_passes n : plain n = true -> passes (decode n).
Proof.
  induction n as [s| |name children IH] using node_induction; intros Hp.
  - apply passes_without, mem_escape.
  - intros rest. reflexivity.
  - cbn [plain] in Hp. apply andb_true_iff in Hp as [Hn Hc].
    cbn [decode].
    apply passes_app; [now apply passes_start_tag|].
    apply passes_app; [|now apply passes_end_tag].
    apply passes_concat_all. apply Forall_map.
    rewrite forallb_forall in Hc. rewrite Forall_forall in *.
    intros c Hin. apply IH; auto.
Qed.

(** What [decode_contents] writes for strings, line breaks and inline
    elements holds no "<br>". *)
Lemma no_break_marker children :
  forallb plain children = true ->
  contains "<br>" (decode_contents children) = false.
Proof.
  intros H.
  assert (Hp : passes (decode_contents children)).
  { apply passes_concat_all, Forall_map. rewrite forallb_forall in H.
    apply Forall_forall. intros c Hin. apply decode_passes; auto. }
  specialize (Hp EmptyString). now rewrite append_nil_r in Hp.
Qed.

Lemma split_absent sep : forall s,
  contains sep s = false -> split sep s = [s].
Proof.
  intros s H.
  assert (E : split_from sep 0 s = (s, [])).
  { induction s as [|c s IH]; [reflexivity|].
    rewrite split_from_cons. rewrite contains_cons in H.
    apply orb_false_iff in H as [H1 H2]. now rewrite H1, (IH H2). }
  unfold split. now rewrite E.
Qed.

(** A data block is one raw line, whatever line breaks it holds. *)
Lemma block_one_line get_text cls children :
  forallb plain children = true ->
  _parse_acndata_block get_text (element cls children)
  = if blank (decode_contents children) then []
    else [get_text (decode_contents children)].
Proof.
  intros H. unfold _parse_acndata_block, element. cbn [contents].
  rewrite (split_absent _ _ (no_break_marker _ H)). cbn [filter].
  rewrite strip_empty_iff.
  destruct (blank (decode_contents children)); reflexivity.
Qed.

Lemma real_block_line get_text cls children :
  real_block get_text children ->
  _parse_acndata_block get_text (element cls children) = block_line children.
Proof.
  intros [Hp Hr]. rewrite block_one_line by assumption.
  unfold block_line. now rewrite Hr.
Qed.

Lemma block_lines_real get_text blocks :
  Forall (real_block get_text) blocks ->
  block_lines get_text (map (element "acndata") blocks)
  = flat_map block_line blocks.
Proof.
  induction 1 as [|b blocks Hb _ IH]; [reflexivity|].
  cbn [map]. unfold block_lines in *. cbn [flat_map]. rewrite IH.
  change (has_class "acndata" (element "acndata" b)) with true.
  cbv iota. now rewrite (real_block_line _ _ _ Hb).
Qed.

Lemma decode_markup n :
  match n with Text _ => false | _ => true end = true ->
  blank (decode n) = false.
Proof. destruct n as [s| |name children]; intros H; [discriminate| |]; reflexivity. Qed.

(** A block that holds an element is not white space. *)
Lemma markup_not_blank children :
  has_markup children = true -> blank (decode_contents children) = false.
Proof.
  unfold has_markup, decode_contents, blank.
  induction children as [|c cs IH]; cbn [existsb map concat_all]; intros H;
    [discriminate|].
  rewrite all_chars_app. apply orb_true_iff in H as [H|H].
  - apply decode_markup in H. unfold blank in H. now rewrite H.
  - rewrite (IH H). apply andb_false_r.
Qed.

(** An element all of whose strings are white space has the empty text. *)
Lemma blank_strings_text children :
  forallb blank (flat_map strings_of children) = true ->
  element_text children = EmptyString.
Proof.
  unfold element_text. generalize (flat_map strings_of children). intros l H.
  assert (E : filter (fun s => negb (is_empty s)) (map strip l) = []).
  { induction l as [|x l IH]; [reflexivity|].
    cbn [forallb] in H. apply andb_true_iff in H as [H1 H2].
    cbn [map filter]. now rewrite strip_empty_iff, H1, (IH H2). }
  now rewrite E.
Qed.

Lemma blank_escape s : blank (escape s) = true -> blank s = true.
Proof.
  unfold blank. induction s as [|c s IH]; [reflexivity|].
  cbn [escape]. rewrite all_chars_app. intros H.
  apply andb_true_iff in H as [H1 H2]. cbn [all_chars]. rewrite (IH H2).
  destruct (Ascii.eqb c "&"); [discriminate|].
  destruct (Ascii.eqb c "<"); [discriminate|].
  destruct (Ascii.eqb c ">"); [discriminate|].
  cbn [all_chars] in H1. now rewrite andb_true_r in H1 |- *.
Qed.

(** A block that holds text other than white space is not white space. *)
Lemma text_not_blank children :
  forallb blank (flat_map strings_of children) = false ->
  blank (decode_contents children) = false.
Proof.
  intros H. destruct (blank (decode_contents children)) eqn:E; auto.
  rewrite <- H. symmetry. clear H. revert E.
  unfold decode_contents, blank.
  induction children as [|c cs IH]; [reflexivity|].
  cbn [map concat_all flat_map]. rewrite all_chars_app, forallb_app.
  intros H. apply andb_true_iff in H as [H1 H2]. rewrite (IH H2), andb_true_r.
  destruct c as [s| |name children]; try discriminate.
  cbn [strings_of forallb]. rewrite andb_true_r. now apply blank_escape.
Qed.

Lemma text_block_line children :
  forallb blank (flat_map strings_of children) = false ->
  block_line children = [element_text children].
Proof.
  intros H. unfold block_line. now rewrite (text_not_blank _ H).
Qed.

(** ** The model of the library reads elements back *)

Lemma text_nodes_nonempty b s : text_nodes b s <> [].
Proof.
  revert b. induction s as [|c s IH]; intros b; cbn [text_nodes];
    [discriminate|].
  destruct b.
  - destruct (Ascii.eqb c ">"); apply IH.
  - destruct (Ascii.eqb c "<"); [discriminate|].
    destruct (text_nodes false s); discriminate.
Qed.

Lemma text_nodes_string x k :
  mem "<" x = false ->
  text_nodes false (x ++ k)
  = match text_nodes false k with
    | h :: t => (x ++ h)%string :: t
    | [] => [x]
    end.
Proof.
  induction x as [|c x IH]; intros H.
  - cbn [append]. destruct (text_nodes false k) eqn:E; auto.
    now apply text_nodes_nonempty in E.
  - cbn [mem] in H. apply orb_false_iff in H as [H1 H2].
    cbn [append text_nodes]. rewrite Ascii.eqb_sym, H1, (IH H2).
    destruct (text_nodes false k); reflexivity.
Qed.

Lemma text_nodes_start_tag name k :
  existsb (String.eqb name) inline_names = true ->
  text_nodes false (start_tag name ++ k) = EmptyString :: text_nodes false k.
Proof.
  intros H.
  apply (inline_name_cases
           (fun n => text_nodes false (start_tag n ++ k)
                     = EmptyString :: text_nodes false k) _ H).
  repeat constructor.
Qed.

Lemma text_nodes_end_tag name k :
  existsb (String.eqb name) inline_names = true ->
  text_nodes false (end_tag name ++ k) = EmptyString :: text_nodes false k.
Proof.
  intros H.
  apply (inline_name_cases
           (fun n => text_nodes false (end_tag n ++ k)
                     = EmptyString :: text_nodes false k) _ H).
  repeat constructor.
Qed.

Lemma text_nodes_concat children k :
  Forall (fun n => forall k', text_nodes false (decode n ++ k')
                              = segments n (text_nodes false k')) children ->
  text_nodes false (concat_all (map decode children) ++ k)
  = fold_right segments (text_nodes false k) children.
Proof.
  induction 1 as [|c cs Hc _ IH]; [reflexivity|].
  cbn [map concat_all fold_right]. now rewrite append_assoc, Hc, IH.
Qed.

Lemma text_nodes_decode n :
  plain n = true ->
  forall k, text_nodes false (decode n ++ k) = segments n (text_nodes false k).
Proof.
  induction n as [s| |name children IH] using node_induction; intros Hp k.
  - apply text_nodes_string, mem_escape.
  - reflexivity.
  - cbn [plain] in Hp. apply andb_true_iff in Hp as [Hn Hc].
    cbn [decode segments]. rewrite !append_assoc.
    rewrite (text_nodes_start_tag _ _ Hn). f_equal.
    rewrite text_nodes_concat, (text_nodes_end_tag _ _ Hn); [reflexivity|].
    rewrite forallb_forall in Hc. rewrite Forall_forall in *.
    intros c Hin. apply IH; auto.
Qed.

Lemma unescape_escape s : unescape (escape s) = s.
Proof.
  unfold unescape. induction s as [|c s IH]; [reflexivity|].
  cbn [escape].
  assert (Hnil : forall x, prefix "" x = true) by (now intros []).
  destruct (Ascii.eqb c "&") eqn:E1.
  { apply Ascii.eqb_eq in E1. subst c. cbn [append unescape_from].
    rewrite !prefix_cons, Hnil. cbn [andb]. now rewrite IH. }
  destruct (Ascii.eqb c "<") eqn:E2.
  { apply Ascii.eqb_eq in E2. subst c. cbn [append unescape_from].
    rewrite !prefix_cons, Hnil. cbn [andb]. now rewrite IH. }
  destruct (Ascii.eqb c ">") eqn:E3.
  { apply Ascii.eqb_eq in E3. subst c. cbn [append unescape_from].
    rewrite !prefix_cons, Hnil. cbn [andb]. now rewrite IH. }
  cbn [append unescape_from]. rewrite !prefix_cons, Ascii.eqb_sym, E1.
  cbn [andb]. now rewrite IH.
Qed.

Lemma kept_app a b : kept (a ++ b) = kept a ++ kept b.
Proof. unfold kept. now rewrite map_app, filter_app. Qed.

Lemma segments_kept_list children :
  Forall reads_node children ->
  apart children = true ->
  forallb separated children = true ->
  forall acc,
    starts_empty acc = true ->
    kept (map unescape (fold_right segments acc children))
    = kept (flat_map strings_of children) ++ kept (map unescape acc)
    /\ (match children with
        | Text _ :: _ => True
        | _ => starts_empty (fold_right segments acc children) = true
        end).
Proof.
  induction children as [|c cs IHcs]; intros IH Hap Hsep acc Hacc.
  - split; [reflexivity|assumption].
  - apply Forall_cons_iff in IH as [IHc IHrest].
    cbn [forallb] in Hsep. apply andb_true_iff in Hsep as [Hsc Hscs].
    assert (Hap' : apart cs = true).
    { cbn [apart] in Hap. destruct cs; auto.
      now apply andb_true_iff in Hap. }
    destruct (IHcs IHrest Hap' Hscs acc Hacc) as [Hk Hstart].
    cbn [fold_right flat_map].
    assert (Hpre : is_text c = true ->
                   starts_empty (fold_right segments acc cs) = true).
    { intros Hc. destruct cs as [|d cs']; [assumption|].
      cbn [apart] in Hap. rewrite Hc in Hap. cbn [andb] in Hap.
      apply andb_true_iff in Hap as [Hd _]. apply negb_true_iff in Hd.
      destruct d; [discriminate|exact Hstart|exact Hstart]. }
    destruct (IHc Hsc _ Hpre) as [Hkc Hsc'].
    split.
    + now rewrite Hkc, Hk, kept_app, app_assoc.
    + destruct c; auto.
Qed.

Lemma segments_kept n : reads_node n.
Proof.
  induction n as [s| |name children IH] using node_induction; intros Hs acc Ha.
  - specialize (Ha eq_refl). destruct acc as [|[|] t]; try discriminate.
    cbn [segments map strings_of]. rewrite append_nil_r, unescape_escape.
    split; [|discriminate].
    change (s :: map unescape t) with ([s] ++ map unescape t).
    rewrite kept_app. reflexivity.
  - split; reflexivity.
  - split; [|reflexivity].
    cbn [separated] in Hs. apply andb_true_iff in Hs as [Hap Hsep].
    cbn [segments strings_of map].
    destruct (segments_kept_list children IH Hap Hsep (EmptyString :: acc) eq_refl)
      as [Hk _].
    change (kept (unescape "" :: ?l)) with (kept l).
    rewrite Hk. reflexivity.
Qed.

(** The model of the library reads back every element of strings, line
    breaks and inline elements as the parser builds it. *)
Lemma markup_text_reads_back children :
  forallb plain children = true ->
  apart children = true ->
  forallb separated children = true ->
  reads_back markup_text children.
Proof.
  intros Hp Hap Hsep. unfold reads_back, markup_text, element_text.
  fold (kept (flat_map strings_of children)). f_equal.
  assert (Ht : text_nodes false (decode_contents children)
               = fold_right segments [EmptyString] children).
  { unfold decode_contents.
    rewrite <- (append_nil_r (concat_all (map decode children))).
    rewrite text_nodes_concat; [reflexivity|].
    rewrite forallb_forall in Hp. apply Forall_forall.
    intros c Hin. apply text_nodes_decode; auto. }
  rewrite Ht, <- (map_map unescape strip).
  fold (kept (map unescape (fold_right segments [EmptyString] children))).
  destruct (segments_kept_list children) with (acc := [EmptyString]) as [Hk _];
    auto.
  { apply Forall_forall. intros c _. apply segments_kept. }
  rewrite Hk. apply app_nil_r.
Qed.

(** ** The claims on the extractor *)

(** C1, as stated, fails: the key [A], collected under the first marker
    "Place:", is in the record when the document stops there and is gone
    from the final record once the marker comes a second time. *)
Lemma repeated_marker_drops_keys :
  _extract_records markup_text (firstn 3 twice_marked)
  = Ok [ [("ACN", Ident "1"); ("Place", Sect [("A", VStr "1")])] ]
  /\ _extract_records markup_text twice_marked
     = Ok [ [("ACN", Ident "1"); ("Place", Sect [("B", VStr "2")])] ].
Proof. split; reflexivity. Qed.

(** C1, amended: a section marker sets the section's entry to an empty
    dictionary whatever the record held under that name, and the section of
    the final record holds what the data lines after the last marker of that
    name give, starting from the empty dictionary: nothing collected before
    that marker is in it.  The tags of the record are [pre], the marker [t],
    the tags [mid] up to the next section marker, and [rest]. *)
Theorem section_marker_resets
  (get_text : string -> string) (heading t : tag) (sibs pre mid rest : list tag)
  (r : record) :
  build_record get_text heading sibs = Ok r ->
  record_part sibs = pre ++ t :: mid ++ rest ->
  has_class "acnsection" t = true ->
  no_section mid = true ->
  section_head rest = true ->
  not_named get_text (section_name_of get_text t) rest = true ->
  let name := section_name_of get_text t in
  (forall r1 cur,
      sib_step get_text (r1, cur) t = Ok (dset name (Sect []) r1, Some name)
      /\ dget name (dset name (Sect []) r1) = Some (Sect []))
  /\ exists sec,
      for_each line_step (section_lines get_text name mid) [] = Ok sec
      /\ dget name r = Some (Sect (flatten_section sec)).
Proof.
  intros Hr Hpart Hts Hmid Hhead Hnn name. split.
  - intros r1 cur. unfold sib_step. rewrite Hts. split; auto.
    apply dget_dset_eq.
  - eapply final_section; eauto.
Qed.

Lemma section_marker_resets_witness :
  exists sec,
    for_each line_step
      (section_lines markup_text "Place" [p "acndata" "B : 2"]) [] = Ok sec
    /\ dget "Place" [("ACN", Ident "1"); ("Place", Sect [("B", VStr "2")]);
                     ("Time", Sect [("C", VStr "3")])]
       = Some (Sect (flatten_section sec)).
Proof.
  apply (section_marker_resets markup_text (p "acnheading" "ACN: 1")
           (p "acnsection" "Place:")
           (twice_marked_tail ++ [p "acnheading" "ACN: 2"; p "acnsection" "Place:"])
           [p "acnsection" "Place:"; p "acndata" "A : 1"]
           [p "acndata" "B : 2"]
           [p "acnsection" "Time:"; p "acndata" "C : 3"]
           [("ACN", Ident "1"); ("Place", Sect [("B", VStr "2")]);
            ("Time", Sect [("C", VStr "3")])]);
    reflexivity.
Defined.

(** C2: a heading whose text has a colon and only white space after it makes
    the extractor raise [IndexError], whatever follows in the document. *)
Theorem heading_without_token_raises
  (get_text : string -> string) (heading : tag) (rest : list tag)
  (pre ws : string) :
  has_class "acnheading" heading = true ->
  get_text (contents heading) = (pre ++ ":" ++ ws)%string ->
  mem ":" pre = false ->
  blank ws = true ->
  _extract_records get_text (heading :: rest) = Raise IndexError.
Proof.
  intros Hh Htext Hpre Hws. cbn [_extract_records]. rewrite Hh.
  unfold build_record. rewrite Htext, heading_record_no_token by assumption.
  reflexivity.
Qed.

Lemma heading_without_token_raises_witness :
  _extract_records markup_text
    [p "acnheading" "ACN:"; p "acnsection" "Place:"; p "acndata" "A : 1"]
  = Raise IndexError.
Proof.
  apply (heading_without_token_raises markup_text (p "acnheading" "ACN:")
           [p "acnsection" "Place:"; p "acndata" "A : 1"] "ACN" "");
    reflexivity.
Defined.

(** C3, as stated, fails.  A marker that comes again empties the section:
    the label [A] occurs twice under "Place" and the stored value is the
    second scalar.  The label "text" shares its key with the narrative
    lines: after a narrative line, the first [text : 1] line finds a list
    under "text" and is appended to it, so the stored value is not the
    scalar string; in the output it is joined with the narrative line.  And
    the lines of one data block are not separated at its line breaks: the
    three lines of the spec, in one block, give one scalar. *)
Lemma promotion_breaks_on_reset_and_text :
  _extract_records markup_text
    [p "acnheading" "ACN: 1"; p "acnsection" "Place:"; p "acndata" "A : 1";
     p "acnsection" "Place:"; p "acndata" "A : 2"]
  = Ok [ [("ACN", Ident "1"); ("Place", Sect [("A", VStr "2")])] ]
  /\ for_each line_step ["note"; "text : 1"] []
     = Ok [("text", VList ["note"; "1"])]
  /\ values_of "text" ["note"; "text : 1"] = ["1"]
  /\ _extract_records markup_text
       [p "acnheading" "ACN: 1"; p "acnsection" "Place:";
        p "acndata" "note"; p "acndata" "text : 1"]
     = Ok [ [("ACN", Ident "1");
             ("Place", Sect [("text", VStr ("note" ++ nl ++ "1")%string)])] ]
  /\ _extract_records markup_text
       [p "acnheading" "ACN: 1"; p "acnsection" "Place:";
        element "acndata" [Text "A : 1"; Br; Text "A : 2"; Br; Text "A : 3"]]
     = Ok [ [("ACN", Ident "1");
             ("Place", Sect [("A", VStr "1 A : 2 A : 3")])] ].
Proof. repeat split; reflexivity. Qed.

(** C3, amended: for every label other than "text", the value stored for
    the label is the promotion of the values given to it, in order, by the
    lines between the section's last marker and the next section marker: a
    scalar after one, the list of both after two, one more item per later
    occurrence; this holds in the working dictionary after each line and in
    the section of the final record.  A section none of whose lines has the
    label "text" is always built.  A data block of strings, line breaks and
    inline elements gives one line, the text of the whole block, when its
    contents are not white space only, and no line otherwise; a block that
    holds one line of text gives that line.  Three data blocks with the
    lines of the spec give [{"A": ["1","2","3"]}]. *)
Theorem duplicate_key_promotion (k : string) :
  k <> "text" ->
  (forall v1 v2 vs v,
      promoted [v1] = Some (VStr v1)
      /\ promoted [v1; v2] = Some (VList [v1; v2])
      /\ promoted ((v1 :: v2 :: vs) ++ [v]) = Some (VList ((v1 :: v2 :: vs) ++ [v])))
  /\ (forall lines sec,
        for_each line_step lines [] = Ok sec ->
        dget k sec = promoted (values_of k lines)
        /\ dget k (flatten_section sec) = promoted (values_of k lines))
  /\ (forall lines,
        forallb (fun line => negb (labelled "text" line)) lines = true ->
        exists sec, for_each line_step lines [] = Ok sec)
  /\ (forall get_text heading sibs pre t mid rest r,
        build_record get_text heading sibs = Ok r ->
        record_part sibs = pre ++ t :: mid ++ rest ->
        has_class "acnsection" t = true ->
        no_section mid = true ->
        section_head rest = true ->
        not_named get_text (section_name_of get_text t) rest = true ->
        exists sec,
          dget (section_name_of get_text t) r = Some (Sect sec)
          /\ dget k sec
             = promoted (values_of k
                 (section_lines get_text (section_name_of get_text t) mid)))
  /\ (forall get_text name blocks,
        is_empty name = false ->
        Forall (real_block get_text) blocks ->
        section_lines get_text name (map (element "acndata") blocks)
        = flat_map block_line blocks)
  /\ (forall block,
        forallb blank (flat_map strings_of block) = false ->
        block_line block = [element_text block])
  /\ _extract_records markup_text
       [p "acnheading" "ACN: 1"; p "acnsection" "Place:";
        p "acndata" "A : 1"; p "acndata" "A : 2"; p "acndata" "A : 3"]
     = Ok [ [("ACN", Ident "1");
             ("Place", Sect [("A", VList ["1"; "2"; "3"])])] ].
Proof.
  intros Hk. split; [|split; [|split; [|split; [|split; [|split]]]]].
  - intros v1 v2 vs v. repeat split.
  - intros lines sec Hrun.
    assert (H : dget k sec = promoted ([] ++ values_of k lines))
      by (apply (lines_label k lines [] sec []); auto).
    cbn [app] in H. split; auto.
    now rewrite flatten_section_other.
  - intros lines Hlab. apply (lines_total lines [] []); auto.
  - intros get_text heading sibs pre t mid rest r Hr Hpart Hts Hmid Hhead Hnn.
    destruct (final_section _ _ _ _ _ _ _ _ Hr Hpart Hts Hmid Hhead Hnn)
      as (sec & Hrun & Hget).
    exists (flatten_section sec). split; auto.
    rewrite flatten_section_other by assumption.
    apply (lines_label k _ [] sec []); auto.
  - intros get_text name blocks Hname Hblocks. unfold section_lines.
    rewrite Hname. now apply block_lines_real.
  - apply text_block_line.
  - reflexivity.
Qed.

Lemma duplicate_key_promotion_witness :
  dget "A" [("A", VList ["1"; "2"; "3"]); ("text", VList ["x"]); ("B", VStr "0")]
  = promoted (values_of "A" ["A : 1"; "x"; "A : 2"; "B : 0"; "A : 3"])
  /\ dget "A" (flatten_section
                 [("A", VList ["1"; "2"; "3"]); ("text", VList ["x"]); ("B", VStr "0")])
     = promoted (values_of "A" ["A : 1"; "x"; "A : 2"; "B : 0"; "A : 3"]).
Proof.
  refine (proj1 (proj2 (duplicate_key_promotion "A" _))
            ["A : 1"; "x"; "A : 2"; "B : 0"; "A : 3"] _ _);
    [discriminate | reflexivity].
Defined.

(** C4, as stated, fails when a section of the record is named "ACN": the
    heading has no colon, and the record has the key "ACN" all the same (it
    holds that section); with a colon in the heading, the section takes the
    place of the identifier.  It fails too for a heading with a colon and no
    token after it: no record is made. *)
Lemma acn_section_takes_identifier_key :
  mem ":" (markup_text "Report 7") = false
  /\ _extract_records markup_text
       [p "acnheading" "Report 7"; p "acnsection" "ACN:"; p "acndata" "A : 1"]
     = Ok [ [("ACN", Sect [("A", VStr "1")])] ]
  /\ _extract_records markup_text
       [p "acnheading" "ACN: 5 (1 of 2)"; p "acnsection" "ACN:"]
     = Ok [ [("ACN", Sect [])] ]
  /\ _extract_records markup_text [p "acnheading" "ACN: "] = Raise IndexError.
Proof. repeat split; reflexivity. Qed.

(** C4, amended: for a heading whose record has no section named "ACN":
    when the heading text is [pre ++ ":" ++ ws ++ tok ++ tail], with no colon
    in [pre], white space [ws], a token [tok] without white space and a
    [tail] that is empty or starts with white space, the record's "ACN" is
    [tok]; when the text has no colon the record has no "ACN" key.  The
    heading "ACN: 2184152 (1 of 91)" gives "2184152". *)
Theorem heading_identifier
  (get_text : string -> string) (heading : tag) (sibs : list tag) (r : record) :
  build_record get_text heading sibs = Ok r ->
  not_named get_text "ACN" (record_part sibs) = true ->
  (forall pre ws tok tail,
      get_text (contents heading) = (pre ++ ":" ++ ws ++ tok ++ tail)%string ->
      mem ":" pre = false ->
      blank ws = true ->
      tok <> EmptyString ->
      all_chars (fun c => negb (isspace c)) tok = true ->
      token_end tail = true ->
      dget "ACN" r = Some (Ident tok))
  /\ (mem ":" (get_text (contents heading)) = false -> dget "ACN" r = None)
  /\ heading_record "ACN: 2184152 (1 of 91)" = Ok [("ACN", Ident "2184152")].
Proof.
  intros Hr Hsec. unfold build_record in Hr.
  destruct (heading_record (get_text (contents heading))) as [r0|e] eqn:Hh;
    [|discriminate].
  cbn [bind] in Hr. rewrite walk_record_part in Hr.
  destruct (walk get_text (record_part sibs) (r0, None)) as [[r1 c1]|e] eqn:Hw;
    [|discriminate].
  cbn [bind fst] in Hr. injection Hr as <-.
  assert (Hkeep : dget "ACN" r1 = dget "ACN" r0).
  { eapply walk_keeps_key; eauto. discriminate. }
  rewrite flatten_record_get, Hkeep.
  split; [|split].
  - intros pre ws tok tail Htext Hpre Hws Htok Hall Hend.
    rewrite Htext, heading_record_token in Hh by assumption.
    injection Hh as <-. reflexivity.
  - intros Hno. rewrite heading_record_no_colon in Hh by assumption.
    injection Hh as <-. reflexivity.
  - reflexivity.
Qed.

Lemma heading_identifier_witness :
  dget "ACN" [("ACN", Ident "2184152"); ("Place", Sect [("A", VStr "1")])]
  = Some (Ident "2184152").
Proof.
  refine (proj1 (heading_identifier markup_text
                   (p "acnheading" "ACN: 2184152 (1 of 91)")
                   [p "acnsection" "Place:"; p "acndata" "A : 1";
                    p "acnheading" "Report 7"; p "acnsection" "ACN:"]
                   [("ACN", Ident "2184152"); ("Place", Sect [("A", VStr "1")])]
                   _ _)
            "ACN" " " "2184152" " (1 of 91)" _ _ _ _ _ _);
    solve [reflexivity | discriminate].
Defined.

(** C5, as stated, fails.  A marker that comes again empties the section:
    the narrative line before it is not in the section's "text".  A section
    with an empty name gets no data at all.  A section with a line labelled
    "text" and no narrative line has a "text" key in the output.  And the
    narrative lines of one data block are not separated at its line breaks:
    they are joined by a space, not by a newline. *)
Lemma narrative_lost_or_text_taken :
  _extract_records markup_text
    [p "acnheading" "ACN: 1"; p "acnsection" "Narrative:"; p "acndata" "one";
     p "acnsection" "Narrative:"; p "acndata" "two"]
  = Ok [ [("ACN", Ident "1"); ("Narrative", Sect [("text", VStr "two")])] ]
  /\ _extract_records markup_text
       [p "acnheading" "ACN: 1"; p "acnsection" ":"; p "acndata" "one"]
     = Ok [ [("ACN", Ident "1"); ("", Sect [])] ]
  /\ narrative_of ["text : ab"; "A : 1"] = []
  /\ _extract_records markup_text
       [p "acnheading" "ACN: 1"; p "acnsection" "Place:";
        p "acndata" "text : ab"; p "acndata" "A : 1"]
     = Ok [ [("ACN", Ident "1");
             ("Place", Sect [("text", VStr ("a" ++ nl ++ "b")%string);
                             ("A", VStr "1")])] ]
  /\ _extract_records markup_text
       [p "acnheading" "ACN: 1"; p "acnsection" "Narrative:";
        element "acndata" [Text "one"; Br; Text "two"]]
     = Ok [ [("ACN", Ident "1"); ("Narrative", Sect [("text", VStr "one two")])] ].
Proof. repeat split; reflexivity. Qed.

(** C5, amended: for a section with a name that is not empty, none of whose
    lines after its last marker has the label "text", the narrative lines
    after that marker are, in document order and joined by newlines, the
    section's "text" in the final record, and the section has no "text" key
    when there is no narrative line.  The tags of the record are [pre], the
    marker [t], the tags [mid] up to the next section marker, and [rest].
    A data block of strings, line breaks and inline elements gives one line,
    the text of the whole block, when its contents are not white space only,
    and no line otherwise; a block that holds one line of text gives that
    line. *)
Theorem narrative_accumulates
  (get_text : string -> string) (heading t : tag) (sibs pre mid rest : list tag)
  (r : record) :
  build_record get_text heading sibs = Ok r ->
  record_part sibs = pre ++ t :: mid ++ rest ->
  has_class "acnsection" t = true ->
  no_section mid = true ->
  section_head rest = true ->
  not_named get_text (section_name_of get_text t) rest = true ->
  is_empty (section_name_of get_text t) = false ->
  forallb (fun line => negb (labelled "text" line)) (block_lines get_text mid)
  = true ->
  (exists sec,
      dget (section_name_of get_text t) r = Some (Sect sec)
      /\ dget "text" sec =
         match narrative_of (block_lines get_text mid) with
         | [] => None
         | ls => Some (VStr (join nl ls))
         end)
  /\ (forall blocks,
        Forall (real_block get_text) blocks ->
        block_lines get_text (map (element "acndata") blocks)
        = flat_map block_line blocks)
  /\ (forall block,
        forallb blank (flat_map strings_of block) = false ->
        block_line block = [element_text block]).
Proof.
  intros Hr Hpart Hts Hmid Hhead Hnn Hname Hlab. split; [|split].
  - destruct (final_section _ _ _ _ _ _ _ _ Hr Hpart Hts Hmid Hhead Hnn)
      as (sec & Hrun & Hget).
    unfold section_lines in Hrun. rewrite Hname in Hrun.
    exists (flatten_section sec). split; auto.
    rewrite flatten_section_text.
    rewrite (lines_text _ [] sec [] Hlab eq_refl Hrun). cbn [app].
    destruct (narrative_of (block_lines get_text mid)); reflexivity.
  - apply block_lines_real.
  - apply text_block_line.
Qed.

Lemma narrative_accumulates_witness :
  exists sec,
    dget "Narrative"
         [("ACN", Ident "1");
          ("Narrative", Sect [("text", VStr ("one" ++ nl ++ "two")%string);
                              ("A", VStr "1")]);
          ("Synopsis", Sect [("text", VStr "short")])]
    = Some (Sect sec)
    /\ dget "text" sec = Some (VStr (join nl ["one"; "two"])).
Proof.
  apply (proj1
    (narrative_accumulates markup_text (p "acnheading" "ACN: 1")
       (p "acnsection" "Narrative:")
       [p "acnsection" "Narrative:";
        p "acndata" "one"; p "acndata" "A : 1";
        element "acndata" [Elem "b" [Text "two"]];
        p "acnsection" "Synopsis:"; p "acndata" "short";
        p "acnheading" "ACN: 2"; p "acnsection" "Narrative:";
        p "acndata" "other"]
       []
       [p "acndata" "one"; p "acndata" "A : 1";
        element "acndata" [Elem "b" [Text "two"]]]
       [p "acnsection" "Synopsis:"; p "acndata" "short"]
       [("ACN", Ident "1");
        ("Narrative", Sect [("text", VStr ("one" ++ nl ++ "two")%string);
                            ("A", VStr "1")]);
        ("Synopsis", Sect [("text", VStr "short")])]
       eq_refl eq_refl eq_refl eq_refl eq_refl eq_refl eq_refl eq_refl)).
Defined.

(** C6: the lines of a data block are not separated.  [decode_contents]
    writes a line break as "<br/>", which [split("<br>")] does not find: a
    block of strings, line breaks and inline elements is one raw line,
    dropped when it is white space only and kept otherwise as the text of
    the whole block, the strings of all its lines joined by spaces.  A blank
    line between two others is not dropped on its own, and a block that
    holds markup and no text is kept: it gives the empty line, which is
    stored as narrative.  The white space inside a string is kept as it
    is. *)
Theorem line_breaks_do_not_split
  (get_text : string -> string) (children : list node) :
  forallb plain children = true ->
  reads_back get_text children ->
  let block := element "acndata" children in
  split "<br>" (contents block) = [contents block]
  /\ _parse_acndata_block get_text block
     = (if blank (contents block) then [] else [element_text children])
  /\ (has_markup children = true ->
      forallb blank (flat_map strings_of children) = true ->
      _parse_acndata_block get_text block = [EmptyString]
      /\ forall heading marker r0,
          has_class "acnheading" marker = false ->
          has_class "acnsection" marker = true ->
          is_empty (section_name_of get_text marker) = false ->
          heading_record (get_text (contents heading)) = Ok r0 ->
          exists r,
            build_record get_text heading [marker; block] = Ok r
            /\ dget (section_name_of get_text marker) r
               = Some (Sect [("text", VStr EmptyString)]))
  /\ (forall s, blank s = false -> element_text [Text s] = strip s).
Proof.
  intros Hp Hr block.
  assert (Hline : _parse_acndata_block get_text block = block_line children)
    by (apply real_block_line; split; assumption).
  split; [|split; [|split]].
  - apply split_absent. now apply no_break_marker.
  - exact Hline.
  - intros Hm Hb.
    assert (Hone : _parse_acndata_block get_text block = [EmptyString]).
    { rewrite Hline. unfold block_line.
      now rewrite (markup_not_blank _ Hm), (blank_strings_text _ Hb). }
    split; [exact Hone|].
    intros heading marker r0 Hnh Hsec Hname Hh0.
    unfold build_record. rewrite Hh0. cbn [bind walk]. rewrite Hnh.
    unfold sib_step at 1. rewrite Hsec. cbn [bind].
    fold (section_name_of get_text marker).
    set (name := section_name_of get_text marker) in *.
    change (has_class "acnheading" block) with false. cbv iota.
    unfold sib_step.
    change (has_class "acnsection" block) with false.
    change (has_class "acndata" block) with true.
    unfold truthy. rewrite Hname. cbn [negb andb]. cbv iota.
    rewrite Hone.
    rewrite (data_lines_run name [EmptyString] _ []) by apply dget_dset_eq.
    cbn. eexists. split; [reflexivity|].
    rewrite flatten_record_get, dset_dset, dget_dset_eq. reflexivity.
  - intros s Hs. unfold element_text. cbn [flat_map strings_of app map filter].
    rewrite strip_empty_iff, Hs. reflexivity.
Qed.

Lemma line_breaks_do_not_split_witness :
  _parse_acndata_block markup_text
    (element "acndata" [Text "A : 1"; Br; Text "  "; Br; Text "B : 2"])
  = ["A : 1 B : 2"]
  /\ exists r,
      build_record markup_text (p "acnheading" "ACN: 1")
        [p "acnsection" "Place:"; element "acndata" [Br]] = Ok r
      /\ dget "Place" r = Some (Sect [("text", VStr EmptyString)]).
Proof.
  split.
  - exact (proj1 (proj2 (line_breaks_do_not_split markup_text
                           [Text "A : 1"; Br; Text "  "; Br; Text "B : 2"]
                           eq_refl eq_refl))).
  - exact (proj2 (proj1 (proj2 (proj2
             (line_breaks_do_not_split markup_text [Br] eq_refl eq_refl)))
             eq_refl eq_refl)
             (p "acnheading" "ACN: 1") (p "acnsection" "Place:")
             [("ACN", Ident "1")] eq_refl eq_refl eq_refl eq_refl).
Defined.

(** The same on whole documents: the blank line between two others is not
    dropped and the two lines make one value; a block that holds a line
    break only is stored as an empty narrative; white space inside a string
    stays. *)
Example unsplit_block_example :
  _extract_records markup_text
    [p "acnheading" "ACN: 1"; p "acnsection" "Place:";
     element "acndata" [Text "A : 1"; Br; Text "  "; Br; Text "B : 2"]]
  = Ok [ [("ACN", Ident "1"); ("Place", Sect [("A", VStr "1 B : 2")])] ]
  /\ _extract_records markup_text
       [p "acnheading" "ACN: 1"; p "acnsection" "Place:";
        element "acndata" [Br]]
     = Ok [ [("ACN", Ident "1"); ("Place", Sect [("text", VStr "")])] ]
  /\ _extract_records markup_text
       [p "acnheading" "ACN: 1"; p "acnsection" "Place:";
        element "acndata" [Elem "b" []; Text "x   y"]]
     = Ok [ [("ACN", Ident "1"); ("Place", Sect [("text", VStr "x   y")])] ].
Proof. repeat split; reflexivity. Qed.

Lemma other_labels_run lines : forall sec,
  forallb other_label lines = true ->
  exists sec',
    for_each line_step lines sec = Ok sec'
    /\ dget "text" sec' = dget "text" sec.
Proof.
  induction lines as [|line lines IH]; intros sec H.
  - exists sec. split; reflexivity.
  - cbn [forallb] in H. apply andb_true_iff in H as [H1 H2].
    unfold other_label in H1.
    destruct (kv_of line) as [[k v]|] eqn:E; [|discriminate].
    apply negb_true_iff, String.eqb_neq in H1.
    cbn [for_each]. rewrite (line_step_kv _ _ _ _ E). cbn [bind].
    destruct (IH (dset k match dget k sec with
                         | Some (VList l) => VList (l ++ [v])
                         | Some (VStr q) => VList [q; v]
                         | None => VStr v
                         end sec) H2) as (sec' & Hrun & Hget).
    exists sec'. split; [exact Hrun|].
    rewrite Hget. now apply dget_dset_ne.
Qed.

(** The run of a section whose first line to write "text" is a line
    labelled "text". *)
Lemma text_label_run before line v between :
  forallb other_label before = true ->
  kv_of line = Some ("text", v) ->
  forallb other_label between = true ->
  (forall narr rest,
      contains " : " narr = false ->
      for_each line_step (before ++ line :: between ++ narr :: rest) []
      = Raise AttributeError)
  /\ exists sec,
      for_each line_step (before ++ line :: between) [] = Ok sec
      /\ dget "text" (flatten_section sec) = Some (VStr (join nl (chars v))).
Proof.
  intros Hbefore Hline Hbetween.
  destruct (other_labels_run before [] Hbefore) as (sec0 & Hrun0 & Hget0).
  cbn [dget] in Hget0.
  assert (Hstep : line_step sec0 line = Ok (dset "text" (VStr v) sec0)).
  { rewrite (line_step_kv _ _ _ _ Hline). now rewrite Hget0. }
  destruct (other_labels_run between (dset "text" (VStr v) sec0) Hbetween)
    as (sec2 & Hrun2 & Hget2).
  rewrite dget_dset_eq in Hget2.
  split.
  - intros narr rest Hnarr.
    rewrite for_each_app, Hrun0. cbn [bind for_each]. rewrite Hstep.
    cbn [bind]. rewrite for_each_app, Hrun2. cbn [bind for_each].
    unfold line_step. rewrite Hnarr. unfold narrative_line.
    now rewrite Hget2.
  - exists sec2. split.
    + rewrite for_each_app, Hrun0. cbn [bind for_each]. rewrite Hstep.
      exact Hrun2.
    + now rewrite flatten_section_text, Hget2.
Qed.

(** C10: a line labelled "text" collides with the reserved key.  When it is
    the first line of its section to write "text" (the lines before it have
    other labels) and a narrative line comes after it, with lines of other
    labels in between, the run of the section raises [AttributeError], and
    so does the extraction of a document with such a section; when no
    narrative line comes, the section is built and the flattening joins the
    characters of the value with newlines.  On documents: the label in one
    data block and a narrative in the next raise; the label alone gives the
    characters of "ab" joined; and with the narrative after a line break in
    the block of the label, the block is one line and the characters of
    "ab note" are joined. *)
Theorem text_label_collides :
  (forall before line v between,
      forallb other_label before = true ->
      kv_of line = Some ("text", v) ->
      forallb other_label between = true ->
      (forall narr rest,
          contains " : " narr = false ->
          for_each line_step (before ++ line :: between ++ narr :: rest) []
          = Raise AttributeError)
      /\ exists sec,
          for_each line_step (before ++ line :: between) [] = Ok sec
          /\ dget "text" (flatten_section sec) = Some (VStr (join nl (chars v))))
  /\ (forall get_text heading t mid tail r0 before line v between narr rest,
        has_class "acnheading" heading = true ->
        heading_record (get_text (contents heading)) = Ok r0 ->
        has_class "acnheading" t = false ->
        has_class "acnsection" t = true ->
        is_empty (section_name_of get_text t) = false ->
        no_heading mid = true ->
        no_section mid = true ->
        block_lines get_text mid = before ++ line :: between ++ narr :: rest ->
        forallb other_label before = true ->
        kv_of line = Some ("text", v) ->
        forallb other_label between = true ->
        contains " : " narr = false ->
        _extract_records get_text (heading :: t :: mid ++ tail)
        = Raise AttributeError)
  /\ labelled "text" "text : ab" = true
  /\ _extract_records markup_text
       [p "acnheading" "ACN: 1"; p "acnsection" "Place:";
        p "acndata" "text : ab"; p "acndata" "note"]
     = Raise AttributeError
  /\ _extract_records markup_text
       [p "acnheading" "ACN: 1"; p "acnsection" "Place:";
        p "acndata" "text : ab"]
     = Ok [ [("ACN", Ident "1");
             ("Place", Sect [("text", VStr ("a" ++ nl ++ "b")%string)])] ]
  /\ _extract_records markup_text
       [p "acnheading" "ACN: 1"; p "acnsection" "Place:";
        element "acndata" [Text "text : ab"; Br; Text "note"]]
     = Ok [ [("ACN", Ident "1");
             ("Place", Sect [("text", VStr (join nl (chars "ab note")))])] ].
Proof.
  split; [exact text_label_run|].
  split; [|repeat split; reflexivity].
  intros get_text heading t mid tail r0 before line v between narr rest
    Hh Hr0 Hth Hts Hname Hnh Hns Hlines Hbefore Hline Hbetween Hnarr.
  cbn [_extract_records]. rewrite Hh. unfold build_record. rewrite Hr0.
  cbn [bind walk]. rewrite Hth. unfold sib_step at 1. rewrite Hts.
  cbn [bind]. fold (section_name_of get_text t).
  rewrite walk_app by assumption.
  rewrite (walk_in_section get_text mid _ _ [] Hnh Hns Hname)
    by apply dget_dset_eq.
  rewrite Hlines.
  rewrite (proj1 (text_label_run before line v between Hbefore Hline Hbetween)
             narr rest Hnarr).
  reflexivity.
Qed.

(** ** Lists updated by index, and the identifier map *)

Lemma length_list_set {A : Type} i (x : A) l :
  List.length (list_set i x l) = List.length l.
Proof.
  revert i. induction l as [|y l IH]; intros [|i]; cbn; auto.
Qed.

Lemma nth_error_list_set_eq {A : Type} i (x y : A) l :
  nth_error l i = Some y -> nth_error (list_set i x l) i = Some x.
Proof.
  revert i. induction l as [|z l IH]; intros [|i]; cbn; try discriminate; auto.
Qed.

Lemma nth_error_list_set_ne {A : Type} i j (x : A) l :
  i <> j -> nth_error (list_set i x l) j = nth_error l j.
Proof.
  revert i j. induction l as [|z l IH]; intros [|i] [|j] H; cbn; auto.
  congruence.
Qed.

Lemma map_list_set_same {A B : Type} (f : A -> B) i (x y : A) l :
  nth_error l i = Some y -> f x = f y -> map f (list_set i x l) = map f l.
Proof.
  revert i. induction l as [|z l IH]; intros [|i]; cbn; try discriminate.
  - intros [= ->] ->. reflexivity.
  - intros H E. now rewrite (IH _ H E).
Qed.

Lemma pykey_eqb_eq a b : pykey_eqb a b = true <-> a = b.
Proof.
  destruct a, b; cbn; split; try discriminate; try reflexivity.
  - intros H. apply Z.eqb_eq in H. now subst.
  - intros [= ->]. apply Z.eqb_refl.
  - intros H. apply String.eqb_eq in H. now subst.
  - intros [= ->]. apply String.eqb_refl.
Qed.

Lemma pykey_eqb_refl a : pykey_eqb a a = true.
Proof. now apply pykey_eqb_eq. Qed.

Lemma pykey_eqb_neq a b : a <> b -> pykey_eqb a b = false.
Proof.
  intros H. destruct (pykey_eqb a b) eqn:E; auto.
  apply pykey_eqb_eq in E. contradiction.
Qed.

Lemma kget_kset_eq k i m : kget k (kset k i m) = Some i.
Proof.
  induction m as [|[k' i'] m IH]; cbn.
  - now rewrite pykey_eqb_refl.
  - destruct (pykey_eqb k' k) eqn:E; cbn; rewrite E; auto.
Qed.

Lemma kget_kset_ne k k' i m : k <> k' -> kget k' (kset k i m) = kget k' m.
Proof.
  intros Hne. induction m as [|[k0 i0] m IH]; cbn.
  - now rewrite pykey_eqb_neq.
  - destruct (pykey_eqb k0 k) eqn:E; cbn.
    + apply pykey_eqb_eq in E. subst k0. now rewrite pykey_eqb_neq.
    + now rewrite IH.
Qed.

Lemma build_map_keys data : forall ks idx m,
  keys_of data = Some ks -> build_map idx data m = Ok (enter_keys idx ks m).
Proof.
  induction data as [|inc data IH]; intros ks idx m H; cbn in *.
  - now injection H as <-.
  - destruct (dget "ACN" inc) as [acn|]; [|discriminate].
    destruct (hash_key acn) as [k|e]; [|discriminate].
    destruct (keys_of data) as [ks'|]; [|discriminate].
    injection H as <-. cbn [bind enter_keys]. now apply IH.
Qed.

Lemma enter_keys_other k ks : forall idx m,
  ~ In k ks -> kget k (enter_keys idx ks m) = kget k m.
Proof.
  induction ks as [|k' ks IH]; intros idx m Hin; cbn; auto.
  rewrite IH by (intros H; apply Hin; now right).
  apply kget_kset_ne. intros ->. apply Hin. now left.
Qed.

(** With pairwise distinct identifiers, the map sends the identifier of the
    record at index [i] to [i]. *)
Lemma enter_keys_distinct ks : forall idx m i k,
  NoDup ks -> nth_error ks i = Some k ->
  kget k (enter_keys idx ks m) = Some (idx + i).
Proof.
  induction ks as [|k' ks IH]; intros idx m i k Hnd Hi.
  - destruct i; discriminate.
  - apply NoDup_cons_iff in Hnd as [Hnotin Hnd]. destruct i as [|i]; cbn in *.
    + injection Hi as ->. rewrite enter_keys_other by assumption.
      rewrite kget_kset_eq. f_equal. lia.
    + rewrite (IH _ _ i k Hnd Hi). f_equal. lia.
Qed.

Lemma keys_of_all_have_acn data ks :
  keys_of data = Some ks -> all_have_acn data = true.
Proof.
  revert ks. induction data as [|inc data IH]; intros ks H; cbn in *; auto.
  unfold dmem. destruct (dget "ACN" inc) as [acn|]; [|discriminate].
  destruct (hash_key acn); [|discriminate].
  destruct (keys_of data); [|discriminate]. cbn. eauto.
Qed.

Lemma keys_of_nth data : forall ks i inc,
  keys_of data = Some ks -> nth_error data i = Some inc ->
  exists acn k,
    dget "ACN" inc = Some acn /\ hash_key acn = Ok k /\ nth_error ks i = Some k.
Proof.
  induction data as [|inc0 data IH]; intros ks i inc H Hi.
  - destruct i; discriminate.
  - cbn in H. destruct (dget "ACN" inc0) as [acn|] eqn:Ea; [|discriminate].
    destruct (hash_key acn) as [k|e] eqn:Eh; [|discriminate].
    destruct (keys_of data) as [ks'|]; [|discriminate].
    injection H as <-. destruct i as [|i]; cbn in *.
    + injection Hi as <-. eauto.
    + eapply IH; eauto.
Qed.

(** The keys depend on the "ACN" entries only. *)
Lemma keys_of_ids data data' :
  map acn_of data = map acn_of data' -> keys_of data = keys_of data'.
Proof.
  revert data'. induction data as [|inc data IH]; intros [|inc' data'] H;
    try discriminate; auto.
  cbn in H. unfold acn_of in H. injection H as H1 H2. cbn.
  now rewrite H1, (IH _ H2).
Qed.

Lemma all_have_acn_ids data data' :
  map acn_of data = map acn_of data' ->
  all_have_acn data = all_have_acn data'.
Proof.
  unfold all_have_acn.
  revert data'. induction data as [|inc data IH]; intros [|inc' data'] H;
    try discriminate; auto.
  cbn [map] in H. unfold acn_of in H. injection H as H1 H2. cbn [forallb].
  assert (E : dmem "ACN" inc = dmem "ACN" inc') by (unfold dmem; now rewrite H1).
  now rewrite E, (IH _ H2).
Qed.

Lemma enter_keys_last k ks : forall idx m,
  kget k (enter_keys idx ks m) =
  match last_index k ks with
  | Some j => Some (idx + j)
  | None => kget k m
  end.
Proof.
  induction ks as [|k' ks IH]; intros idx m; cbn [enter_keys last_index]; auto.
  rewrite IH. destruct (last_index k ks) as [j|].
  - f_equal. lia.
  - destruct (pykey_eqb k' k) eqn:E.
    + apply pykey_eqb_eq in E. subst. rewrite kget_kset_eq. f_equal. lia.
    + apply kget_kset_ne. intros ->. now rewrite pykey_eqb_refl in E.
Qed.

Lemma last_index_some k ks : forall j,
  last_index k ks = Some j ->
  nth_error ks j = Some k
  /\ forall j', j < j' -> nth_error ks j' <> Some k.
Proof.
  induction ks as [|k' ks IH]; intros j H; cbn [last_index] in H;
    [discriminate|].
  destruct (last_index k ks) as [j0|] eqn:E.
  - injection H as <-. destruct (IH j0 eq_refl) as [Hn Hl]. split; auto.
    intros [|j'] Hj; [lia|]. cbn. apply Hl. lia.
  - destruct (pykey_eqb k' k) eqn:Ek; [|discriminate].
    injection H as <-. apply pykey_eqb_eq in Ek. subst. split; auto.
    intros [|j'] Hj; [lia|]. cbn. intros Hn.
    assert (Hc : forall ks0 n, nth_error ks0 n = Some k ->
                               last_index k ks0 <> None).
    { clear. induction ks0 as [|a ks0 IH]; intros [|n] H; try discriminate;
        cbn in *.
      - injection H as ->. destruct (last_index k ks0); [discriminate|].
        now rewrite pykey_eqb_refl.
      - specialize (IH _ H). destruct (last_index k ks0); [discriminate|].
        contradiction. }
    exact (Hc _ _ Hn E).
Qed.

Lemma last_index_none k ks : last_index k ks = None -> ~ In k ks.
Proof.
  induction ks as [|k' ks IH]; cbn [last_index]; [tauto|].
  destruct (last_index k ks); [discriminate|].
  destruct (pykey_eqb k' k) eqn:E; [discriminate|].
  intros _ [->|H]; [now rewrite pykey_eqb_refl in E|]. now apply IH.
Qed.

(** ** The classifier *)

Lemma blank_test s : is_empty s || is_empty (strip s) = blank s.
Proof.
  rewrite strip_empty_iff. destruct s; reflexivity.
Qed.

Lemma classified_acn target cls :
  dget "ACN" (classified target cls) = dget "ACN" target.
Proof. apply dget_dset_ne. discriminate. Qed.

Section ClassifierFacts.

Variable format_prompt : string -> string.
Variable count_tokens : string -> Z.
Variable json_loads : string -> option json.
Variable service : list string -> string -> outcome.
Variable field : string.

Local Abbreviation get_hfacs :=
  (get_hfacs_classification_from_llm format_prompt count_tokens json_loads service).
(* Inside this section the vocabulary is read at the section's variables. *)
Local Abbreviation narrative_text := (narrative_text field).
Local Abbreviation well_formed := (well_formed field).
Local Abbreviation produced :=
  (produced format_prompt count_tokens json_loads service field).

Lemma get_hfacs_blank calls s :
  blank s = true -> get_hfacs calls s = (([], 0%Z, 0%Z), calls).
Proof.
  intros H. unfold get_hfacs_classification_from_llm.
  now rewrite blank_test, H.
Qed.

Lemma classify_target_spec st idx target s :
  nth_error (all_incidents_data st) idx = Some target ->
  narrative_text target = Some s ->
  classify_target format_prompt count_tokens json_loads service field st idx
  = Ok (mk_state
          (list_set idx (classified target (classification (get_hfacs (calls st) s)))
                    (all_incidents_data st))
          (snd (get_hfacs (calls st) s)) (output_file st)).
Proof.
  intros Hidx Hs. unfold classify_target, index. rewrite Hidx. cbn [bind].
  unfold narrative_text in Hs.
  destruct (resolve_narrative field target) as [[| | |s'| |]|]; try discriminate.
  injection Hs as ->. cbn [bind narrative_to_send]. rewrite blank_test.
  destruct (blank s) eqn:Hb.
  - now rewrite (get_hfacs_blank _ _ Hb).
  - destruct (get_hfacs (calls st) s) as [[[h a] b] c]. reflexivity.
Qed.

Lemma processing_range_bounds total start_index end_index s e :
  processing_range total start_index end_index = Some (s, e) ->
  s < e <= total.
Proof.
  unfold processing_range.
  destruct ((0 <=? start_index)%Z && (start_index <? Z.of_nat total)%Z) eqn:E1;
    [|discriminate].
  apply andb_true_iff in E1 as [H1 H2].
  apply Z.leb_le in H1. apply Z.ltb_lt in H2.
  match goal with
  | |- context [if ?c then _ else _] => destruct c eqn:E2
  end; intros [= <- <-].
  - lia.
  - apply orb_false_iff in E2 as [H3 H4].
    apply Z.leb_gt in H3. apply Z.ltb_ge in H4. lia.
Qed.

Lemma classified_well_formed target cls :
  field <> "hfacs_classification" ->
  well_formed (classified target cls) = well_formed target.
Proof.
  intros Hf.
  assert (E : dget field (classified target cls) = dget field target).
  { apply dget_dset_ne. congruence. }
  unfold well_formed, narrative_text, estimation_probe, resolve_narrative.
  now rewrite E.
Qed.

Lemma classified_narrative target cls :
  field <> "hfacs_classification" ->
  narrative_text (classified target cls) = narrative_text target.
Proof.
  intros Hf.
  assert (E : dget field (classified target cls) = dget field target).
  { apply dget_dset_ne. congruence. }
  unfold narrative_text, resolve_narrative. now rewrite E.
Qed.

End ClassifierFacts.

(** ** One run of [main] *)

Lemma keys_of_length data : forall ks,
  keys_of data = Some ks -> List.length ks = List.length data.
Proof.
  induction data as [|inc data IH]; intros ks H; cbn in H.
  - now injection H as <-.
  - destruct (dget "ACN" inc) as [acn|]; [|discriminate].
    destruct (hash_key acn) as [k|e]; [|discriminate].
    destruct (keys_of data) as [ks'|]; [|discriminate].
    injection H as <-. cbn. now rewrite (IH ks').
Qed.

Lemma build_map_ok data : forall idx m imap,
  build_map idx data m = Ok imap -> exists ks, keys_of data = Some ks.
Proof.
  induction data as [|inc data IH]; intros idx m imap H; cbn in *; eauto.
  destruct (dget "ACN" inc) as [acn|]; [|discriminate].
  destruct (hash_key acn) as [k|e]; [|discriminate].
  cbn [bind] in H. destruct (IH _ _ _ H) as [ks ->]. eauto.
Qed.

Lemma key_of_acn inc k :
  key_of inc = Some k ->
  exists acn, dget "ACN" inc = Some acn /\ hash_key acn = Ok k.
Proof.
  unfold key_of, acn_of. destruct (dget "ACN" inc) as [acn|]; [|discriminate].
  destruct (hash_key acn) as [k'|e] eqn:E; [|discriminate].
  intros [= <-]. eauto.
Qed.

Lemma key_of_ids inc inc' : acn_of inc = acn_of inc' -> key_of inc = key_of inc'.
Proof. unfold key_of. now intros ->. Qed.

Lemma keys_of_key data : forall ks j target,
  keys_of data = Some ks -> nth_error data j = Some target ->
  nth_error ks j = key_of target /\ key_of target <> None.
Proof.
  intros ks j target Hks Hd.
  destruct (keys_of_nth _ _ _ _ Hks Hd) as (acn & k & Hacn & Hk & Hn).
  unfold key_of, acn_of. rewrite Hacn, Hk. split; [assumption|discriminate].
Qed.

Lemma target_of_ids data data' inc i :
  map acn_of data = map acn_of data' ->
  target_of data inc i = target_of data' inc i.
Proof.
  intros H. unfold target_of.
  rewrite (all_have_acn_ids _ _ H), (keys_of_ids _ _ H).
  pose proof (f_equal (@List.length _) H) as Hl. rewrite !length_map in Hl.
  now rewrite Hl.
Qed.

Lemma targets_ids data data' slice : forall i,
  map acn_of data = map acn_of data' ->
  targets data i slice = targets data' i slice.
Proof.
  induction slice as [|inc slice IH]; intros i H; cbn [targets]; auto.
  now rewrite (target_of_ids _ _ _ _ H), (IH _ H).
Qed.

Lemma target_of_bound data inc i j :
  target_of data inc i = Some j -> j < List.length data.
Proof.
  unfold target_of. destruct (all_have_acn data).
  - destruct (keys_of data) as [ks|] eqn:Hks; [|discriminate].
    destruct (key_of inc) as [k|]; [|discriminate].
    intros H. apply last_index_some in H as [H _].
    rewrite <- (keys_of_length _ _ Hks). apply nth_error_Some. congruence.
  - destruct (Nat.ltb i (List.length data)) eqn:E; [|discriminate].
    intros [= <-]. now apply Nat.ltb_lt.
Qed.

Lemma targets_In data slice : forall i j,
  In j (targets data i slice) <->
  exists c inc, nth_error slice c = Some inc /\ target_of data inc (i + c) = Some j.
Proof.
  induction slice as [|inc slice IH]; intros i j; cbn [targets].
  - split; [contradiction|]. intros ([|c] & x & H & _); discriminate.
  - assert (Hrest : In j (targets data (S i) slice) <->
                    exists c x, nth_error (inc :: slice) (S c) = Some x
                                /\ target_of data x (i + S c) = Some j).
    { rewrite IH. split; intros (c & x & H1 & H2); exists c, x; split; auto;
        now replace (i + S c) with (S i + c) in * by lia. }
    split.
    + intros H.
      assert (Hc : target_of data inc i = Some j \/ In j (targets data (S i) slice)).
      { destruct (target_of data inc i) as [j0|]; [|now right].
        destruct H as [->|H]; [now left|now right]. }
      destruct Hc as [Hc|Hc].
      * exists 0, inc. rewrite Nat.add_0_r. auto.
      * apply Hrest in Hc as (c & x & H1 & H2). eauto.
    + intros ([|c] & x & H1 & H2).
      * cbn in H1. injection H1 as <-. rewrite Nat.add_0_r in H2.
        rewrite H2. now left.
      * assert (Hc : In j (targets data (S i) slice)) by (apply Hrest; eauto).
        destruct (target_of data inc i); [now right|assumption].
Qed.

Lemma slice_of_nth incidents s e c :
  e <= List.length incidents ->
  nth_error (slice_of incidents s e) c
  = if Nat.ltb c (e - s) then nth_error incidents (s + c) else None.
Proof.
  intros He. unfold slice_of. rewrite nth_error_firstn.
  destruct (Nat.ltb c (e - s)); auto. apply nth_error_skipn.
Qed.

(** With identifiers that can key the merge, the lookup gives the record
    the incident goes to. *)
Lemma target_of_goes_to data inc i target j :
  usable_ids data ->
  nth_error data j = Some target ->
  target_of data inc i = Some j <-> goes_to data inc i target j.
Proof.
  intros Hus Hd. unfold target_of, goes_to.
  destruct (all_have_acn data) eqn:Ha.
  - destruct Hus as [Hno|(ks & Hks & Hnd)]; [congruence|].
    rewrite Hks. destruct (keys_of_key _ _ _ _ Hks Hd) as [Hn Hsome].
    split.
    + destruct (key_of inc) as [k|]; [|discriminate].
      intros H. apply last_index_some in H as [H _].
      exists k. split; auto. congruence.
    + intros (k & Hki & Hkt). rewrite Hki.
      destruct (last_index k ks) as [j'|] eqn:El.
      * apply last_index_some in El as [El _]. f_equal.
        rewrite Hkt in Hn.
        assert (Hj : j < List.length ks) by (apply nth_error_Some; congruence).
        symmetry. apply (proj1 (NoDup_nth_error ks) Hnd j j' Hj). congruence.
      * apply last_index_none in El. exfalso. apply El.
        eapply nth_error_In. rewrite Hn. exact Hkt.
  - assert (Hj : j < List.length data) by (apply nth_error_Some; congruence).
    destruct (Nat.ltb i (List.length data)) eqn:E.
    + split; [now intros [= ->]|now intros ->].
    + apply Nat.ltb_ge in E. split; [discriminate|]. intros ->. lia.
Qed.

Lemma targets_reached incidents data s e target j :
  usable_ids data ->
  e <= List.length incidents ->
  nth_error data j = Some target ->
  In j (targets data s (slice_of incidents s e)) <->
  reached incidents data s e target j.
Proof.
  intros Hus He Hd. rewrite targets_In. unfold reached. split.
  - intros (c & inc & Hc & Ht). rewrite slice_of_nth in Hc by assumption.
    destruct (Nat.ltb c (e - s)) eqn:E; [|discriminate].
    apply Nat.ltb_lt in E. exists (s + c), inc. split; [lia|]. split; auto.
    now apply (target_of_goes_to _ _ _ _ _ Hus Hd).
  - intros (i & inc & Hr & Hi & Hg). exists (i - s), inc.
    replace (s + (i - s)) with i by lia. split.
    + rewrite slice_of_nth by assumption.
      assert (E : Nat.ltb (i - s) (e - s) = true) by (apply Nat.ltb_lt; lia).
      rewrite E. now replace (s + (i - s)) with i by lia.
    + now apply (target_of_goes_to _ _ _ _ _ Hus Hd).
Qed.

Section MergeFacts.

Variable format_prompt : string -> string.
Variable count_tokens : string -> Z.
Variable json_loads : string -> option json.
Variable service : list string -> string -> outcome.
Variable field : string.

Hypothesis Hfield : field <> "hfacs_classification".

Local Abbreviation get_hfacs :=
  (get_hfacs_classification_from_llm format_prompt count_tokens json_loads service).
Local Abbreviation produced :=
  (produced format_prompt count_tokens json_loads service field).
Local Abbreviation merged_into :=
  (merged_into format_prompt count_tokens json_loads service field).

Lemma merged_into_ext hit hit' data out :
  (forall j, In j hit <-> In j hit') ->
  merged_into hit data out -> merged_into hit' data out.
Proof.
  intros H [Hids Hhit Hrest]. split; auto.
  - intros j target Hin. apply Hhit. now apply H.
  - intros j Hnin. apply Hrest. intros Hin. apply Hnin. now apply H.
Qed.

Lemma merged_into_length hit data out :
  merged_into hit data out -> List.length out = List.length data.
Proof.
  intros [Hids _ _].
  pose proof (f_equal (@List.length _) Hids) as H.
  now rewrite !length_map in H.
Qed.

(** A record of the master list, as it is after some classifications. *)
Lemma merged_into_record hit data out j target :
  merged_into hit data out ->
  nth_error data j = Some target ->
  exists rec,
    nth_error out j = Some rec
    /\ narrative_text field rec = narrative_text field target
    /\ (forall cls, classified rec cls = classified target cls)
    /\ acn_of rec = acn_of target.
Proof.
  intros [Hids Hhit Hrest] Hd.
  destruct (in_dec Nat.eq_dec j hit) as [Hin|Hnin].
  - destruct (Hhit j target Hin Hd) as (c0 & Ho & _).
    exists (classified target c0). split; [assumption|]. split; [|split].
    + now apply classified_narrative.
    + intros cls. unfold classified. apply dset_dset.
    + apply classified_acn.
  - exists target. rewrite (Hrest j Hnin). auto.
Qed.

Lemma merged_into_narratives hit data out :
  merged_into hit data out ->
  narratives_resolve field data = true ->
  narratives_resolve field out = true.
Proof.
  intros Hm Hn. pose proof (merged_into_length _ _ _ Hm) as Hlen.
  unfold narratives_resolve in *. apply forallb_forall. intros x Hx.
  apply In_nth_error in Hx as [j Hj].
  assert (Hlt : j < List.length data).
  { rewrite <- Hlen. apply nth_error_Some. congruence. }
  destruct (nth_error data j) as [target|] eqn:Hd;
    [|apply nth_error_None in Hd; lia].
  destruct (merged_into_record _ _ _ _ _ Hm Hd) as (rec & Hr & Hnr & _).
  rewrite Hr in Hj. injection Hj as <-. rewrite Hnr.
  rewrite forallb_forall in Hn. apply Hn. eapply nth_error_In; eauto.
Qed.

Lemma find_target_spec data master imap inc i :
  List.length master = List.length data ->
  incident_map (all_have_acn data) data = Ok imap ->
  (all_have_acn data = true -> has_key inc = true) ->
  find_target (all_have_acn data) master imap inc i = Ok (target_of data inc i).
Proof.
  intros Hlen Hmap Hkey. unfold find_target, target_of, incident_map in *.
  destruct (all_have_acn data).
  - specialize (Hkey eq_refl). unfold has_key in Hkey.
    destruct (key_of inc) as [k|] eqn:Ek; [|discriminate].
    destruct (key_of_acn _ _ Ek) as (acn & Hacn & Hk).
    rewrite Hacn, Hk. cbn [bind].
    destruct (build_map_ok _ _ _ _ Hmap) as [ks Hks].
    rewrite Hks. rewrite (build_map_keys _ _ _ _ Hks) in Hmap.
    injection Hmap as <-. rewrite enter_keys_last. cbn [kget Nat.add].
    destruct (last_index k ks); reflexivity.
  - rewrite Hlen. destruct (Nat.ltb i (List.length data)); reflexivity.
Qed.

Section Run.

Variables (data : list incident) (imap : list (pykey * nat)) (s num : nat).

Hypothesis Hmap : incident_map (all_have_acn data) data = Ok imap.
Hypothesis Hnar : narratives_resolve field data = true.

Lemma iteration_merges st cur inc hit :
  (all_have_acn data = true -> has_key inc = true) ->
  merged_into hit data (all_incidents_data st) ->
  exists st',
    iteration format_prompt count_tokens json_loads service field
      (all_have_acn data) imap s num st cur inc = Ok st'
    /\ merged_into (match target_of data inc (s + cur) with
                    | Some j => j :: hit
                    | None => hit
                    end) data (all_incidents_data st').
Proof.
  intros Hkey Hm. unfold iteration.
  rewrite (find_target_spec _ _ _ _ _ (merged_into_length _ _ _ Hm) Hmap Hkey).
  cbn [bind].
  destruct (target_of data inc (s + cur)) as [j|] eqn:Et;
    [|exists st; split; [reflexivity|assumption]].
  pose proof (target_of_bound _ _ _ _ Et) as Hj.
  destruct (nth_error data j) as [target|] eqn:Hd;
    [|apply nth_error_None in Hd; lia].
  assert (Hn : exists txt, narrative_text field target = Some txt).
  { unfold narratives_resolve in Hnar. rewrite forallb_forall in Hnar.
    specialize (Hnar target (nth_error_In _ _ Hd)).
    destruct (narrative_text field target) as [txt|]; [eauto|discriminate]. }
  destruct Hn as [txt Hn].
  destruct (merged_into_record _ _ _ _ _ Hm Hd) as (rec & Hrec & Hnrec & Hcl & Hacn).
  rewrite Hn in Hnrec.
  rewrite (classify_target_spec format_prompt count_tokens json_loads service
             field st j rec txt Hrec Hnrec).
  cbn [bind].
  set (cls := classification (get_hfacs (calls st) txt)).
  set (out := list_set j (classified rec cls) (all_incidents_data st)).
  destruct Hm as [Hids Hhit Hrest].
  assert (M : merged_into (j :: hit) data out).
  { split.
    - unfold out. rewrite (map_list_set_same _ _ _ rec); auto.
      apply classified_acn.
    - intros j' tgt Hin Hdj. destruct (Nat.eq_dec j' j) as [->|Hne].
      + rewrite Hd in Hdj. injection Hdj as <-. exists cls. split.
        * unfold out. rewrite (nth_error_list_set_eq _ _ _ _ Hrec).
          now rewrite Hcl.
        * exists txt, (calls st). auto.
      + unfold out. rewrite nth_error_list_set_ne by congruence.
        apply Hhit; auto. destruct Hin; [congruence|assumption].
    - intros j' Hnin. unfold out. rewrite nth_error_list_set_ne.
      + apply Hrest. intros H. apply Hnin. now right.
      + intros ->. apply Hnin. now left. }
  match goal with
  | |- context [if ?c then _ else _] => destruct c
  end; eexists; split; try reflexivity; exact M.
Qed.

Lemma loop_merges slice : forall cur st hit,
  (all_have_acn data = true -> forallb has_key slice = true) ->
  merged_into hit data (all_incidents_data st) ->
  exists st',
    loop format_prompt count_tokens json_loads service field
      (all_have_acn data) imap s num cur slice st = Ok st'
    /\ merged_into (targets data (s + cur) slice ++ hit) data
                   (all_incidents_data st').
Proof.
  induction slice as [|inc slice IH]; intros cur st hit Hkeys Hm.
  - exists st. split; [reflexivity|assumption].
  - assert (Hk1 : all_have_acn data = true -> has_key inc = true).
    { intros Ha. specialize (Hkeys Ha). cbn [forallb] in Hkeys.
      now apply andb_true_iff in Hkeys. }
    assert (Hk2 : all_have_acn data = true -> forallb has_key slice = true).
    { intros Ha. specialize (Hkeys Ha). cbn [forallb] in Hkeys.
      now apply andb_true_iff in Hkeys. }
    destruct (iteration_merges st cur inc hit Hk1 Hm) as (st1 & Hit & Hm1).
    cbn [loop]. rewrite Hit. cbn [bind].
    destruct (IH (S cur) st1 _ Hk2 Hm1) as (st' & Hloop & Hm').
    exists st'. split; [assumption|].
    eapply merged_into_ext; [|exact Hm'].
    intros j. cbn [targets]. replace (s + S cur) with (S (s + cur)) by lia.
    destruct (target_of data inc (s + cur)) as [j0|]; [|reflexivity].
    cbn [app In]. rewrite !in_app_iff. cbn [In]. tauto.
Qed.

End Run.

(** One run of [main] over a valid range: it ends, and the output file is
    the master list with a classification on the records the incidents of
    the range were looked up to. *)
Lemma run_merges incidents existing data start_index end_index s e calls0 :
  processing_range (List.length incidents) start_index end_index = Some (s, e) ->
  probe_passes field incidents s = true ->
  data = match existing with Some d => d | None => incidents end ->
  data <> [] ->
  usable_ids data ->
  keyed data incidents s e = true ->
  narratives_resolve field data = true ->
  exists out calls',
    main format_prompt count_tokens json_loads service field
      incidents start_index end_index existing calls0 = Ok (Some out, calls')
    /\ merged_into (targets data s (slice_of incidents s e)) data out.
Proof.
  intros Hrange Hprobe Hdata Hne Hus Hkeyed Hnar.
  pose proof (processing_range_bounds _ _ _ _ _ Hrange) as Hb.
  unfold main.
  assert (Hload : load_incidents incidents = Ok incidents)
    by (destruct incidents; [cbn in Hb; lia|reflexivity]).
  rewrite Hload. cbn [bind]. rewrite Hrange.
  fold (slice_of incidents s e).
  assert (Hsl0 : nth_error (slice_of incidents s e) 0 = nth_error incidents s).
  { rewrite slice_of_nth by lia.
    assert (E : Nat.ltb 0 (e - s) = true) by (apply Nat.ltb_lt; lia).
    now rewrite E, Nat.add_0_r. }
  unfold probe_passes in Hprobe.
  destruct (nth_error incidents s) as [first|] eqn:Hfirst; [|discriminate].
  destruct (slice_of incidents s e) as [|first' rest] eqn:Es; [discriminate|].
  cbn in Hsl0. injection Hsl0 as ->.
  destruct (estimation_probe field first) as [u|]; [|discriminate].
  cbn [bind].
  assert (Hld : match existing with
                | Some d => load_incidents d
                | None => Ok incidents
                end = Ok data).
  { destruct existing as [d|]; subst data; auto.
    destruct d; [contradiction|reflexivity]. }
  rewrite Hld. cbn [bind].
  assert (Hmap : exists imap, incident_map (all_have_acn data) data = Ok imap).
  { unfold incident_map. destruct (all_have_acn data) eqn:Ha; eauto.
    destruct Hus as [Hno|(ks & Hks & _)]; [congruence|].
    rewrite (build_map_keys _ _ _ _ Hks). eauto. }
  destruct Hmap as [imap Hmap]. rewrite Hmap. cbn [bind].
  destruct (loop_merges data imap s (List.length (first :: rest)) Hmap Hnar
              (first :: rest) 0 (mk_state data calls0 existing) [])
    as (st' & Hloop & Hm).
  - intros Ha. unfold keyed in Hkeyed. rewrite Ha, Es in Hkeyed. exact Hkeyed.
  - cbn [all_incidents_data]. split; auto. intros j target [].
  - rewrite Hloop. cbn [bind]. eexists _, _. split; [reflexivity|].
    rewrite Nat.add_0_r, app_nil_r in Hm. exact Hm.
Qed.

End MergeFacts.

(** What a run leaves to the next one: the conditions on the master list
    hold of the output file. *)
Lemma merged_into_usable format_prompt count_tokens json_loads service field
  hit data out :
  merged_into format_prompt count_tokens json_loads service field hit data out ->
  usable_ids data -> usable_ids out.
Proof.
  intros [Hids _ _] Hus. unfold usable_ids in *.
  now rewrite (all_have_acn_ids _ _ Hids), (keys_of_ids _ _ Hids).
Qed.

Lemma merged_into_keyed format_prompt count_tokens json_loads service field
  hit data out incidents s e :
  merged_into format_prompt count_tokens json_loads service field hit data out ->
  keyed data incidents s e = true -> keyed out incidents s e = true.
Proof.
  intros [Hids _ _]. unfold keyed. now rewrite (all_have_acn_ids _ _ Hids).
Qed.

(** ** The claims on the classifier *)

(** C7: a narrative that is empty or made of white space is never sent:
    [get_hfacs_classification_from_llm] returns the empty list and leaves the
    call log as it was, and the loop of [main] attaches the empty list to a
    record whose narrative resolves to such a string, with the call log
    unchanged. *)
Theorem blank_narrative_skips_service
  (format_prompt : string -> string) (count_tokens : string -> Z)
  (json_loads : string -> option json)
  (service : list string -> string -> outcome) (field narrative : string) :
  blank narrative = true ->
  (forall calls,
      get_hfacs_classification_from_llm format_prompt count_tokens json_loads
        service calls narrative = (([], 0%Z, 0%Z), calls))
  /\ (forall st idx target,
        nth_error (all_incidents_data st) idx = Some target ->
        resolve_narrative field target = Ok (JStr narrative) ->
        exists st',
          classify_target format_prompt count_tokens json_loads service field
            st idx = Ok st'
          /\ calls st' = calls st
          /\ nth_error (all_incidents_data st') idx = Some (classified target [])
          /\ dget "hfacs_classification" (classified target []) = Some (JArr [])).
Proof.
  intros Hb. split.
  - intros calls. now apply get_hfacs_blank.
  - intros st idx target Hidx Hres.
    assert (Hn : narrative_text field target = Some narrative)
      by (unfold narrative_text; now rewrite Hres).
    rewrite (classify_target_spec _ _ _ _ _ _ _ _ _ Hidx Hn).
    rewrite get_hfacs_blank by assumption.
    eexists. split; [reflexivity|]. cbn [calls all_incidents_data snd classification fst].
    split; [reflexivity|]. split.
    + eapply nth_error_list_set_eq; eauto.
    + apply dget_dset_eq.
Qed.

Lemma blank_narrative_skips_service_witness :
  get_hfacs_classification_from_llm (fun s => s) (fun _ => 7%Z) (fun _ => None)
    (fun _ prompt => RaisesAPIError prompt) ["earlier"] "   "
  = (([], 0%Z, 0%Z), ["earlier"]).
Proof.
  apply (proj1 (blank_narrative_skips_service (fun s => s) (fun _ => 7%Z)
                  (fun _ => None) (fun _ prompt => RaisesAPIError prompt)
                  "Narrative" "   " eq_refl)).
Defined.





(** C9, as stated, fails when identifiers repeat: a run over the index 0
    alone, with no output file yet, leaves the record at index 0 without a
    classification and attaches one to the record at index 1, made from that
    record's narrative (the service here answers every request with an API
    error that quotes the request).  And a run does not end when the first
    record of its range has a string as narrative field: the reading of line
    330 raises. *)
Lemma repeated_identifier_misplaces_result :
  main (fun s => s) (fun _ => 0%Z) (fun _ => None)
       (fun _ prompt => RaisesAPIError prompt) "Narrative"
       two_alike 0%Z (Some 1%Z) None []
  = Ok (Some
          [ [("ACN", JStr "7"); ("Narrative", JObj [("text", JStr "first")])];
            [("ACN", JStr "7"); ("Narrative", JObj [("text", JStr "second")]);
             ("hfacs_classification",
              JArr [JObj [("error", JStr "OpenAI API Error: second")]])] ],
        ["second"])
  /\ main (fun s => s) (fun _ => 0%Z) (fun _ => None)
          (fun _ prompt => RaisesAPIError prompt) "Narrative"
          [ [("ACN", JNum 1); ("Narrative", JStr "alpha")] ] 0%Z None None []
     = Raise AttributeError.
Proof. split; vm_compute; reflexivity. Qed.

(** C9, amended.  The master list of the first run is the output file it
    finds, or the input; the second run works on the output file of the
    first.  The merge is keyed by identifier when every record of the master
    list has one, and by index otherwise.  When the narrative field is not
    "hfacs_classification", the master list is not empty, its identifiers
    can be hashed and are pairwise distinct, or some record has none, every
    incident of the two ranges has an identifier that can be hashed in the
    first case, the narrative of every record of the master list resolves
    to a string and the first incident of each range passes the reading of
    line 330, both runs end; the final file has the identifiers of the
    master list in the same order, so as many records (as many as the input
    when no file was found); and a record of the master list carries the
    classification of the second run when an incident of the second range
    goes to it, else that of the first run when an incident of the first
    range goes to it, each made from the record's own narrative, and is
    unchanged otherwise. *)
Theorem resumed_runs_merge
  (format_prompt : string -> string) (count_tokens : string -> Z)
  (json_loads : string -> option json)
  (service1 service2 : list string -> string -> outcome) (field : string)
  (incidents : list incident) (existing : option (list incident))
  (data : list incident)
  (start1 start2 : Z) (end1 end2 : option Z) (s1 e1 s2 e2 : nat)
  (calls1 calls2 : list string) :
  field <> "hfacs_classification" ->
  processing_range (List.length incidents) start1 end1 = Some (s1, e1) ->
  processing_range (List.length incidents) start2 end2 = Some (s2, e2) ->
  data = match existing with Some d => d | None => incidents end ->
  data <> [] ->
  usable_ids data ->
  keyed data incidents s1 e1 = true ->
  keyed data incidents s2 e2 = true ->
  narratives_resolve field data = true ->
  probe_passes field incidents s1 = true ->
  probe_passes field incidents s2 = true ->
  exists out1 log1 out2 log2,
    main format_prompt count_tokens json_loads service1 field
      incidents start1 end1 existing calls1 = Ok (Some out1, log1)
    /\ main format_prompt count_tokens json_loads service2 field
         incidents start2 end2 (Some out1) calls2 = Ok (Some out2, log2)
    /\ map acn_of out2 = map acn_of data
    /\ List.length out2 = List.length data
    /\ (existing = None -> List.length out2 = List.length incidents)
    /\ forall j target,
        nth_error data j = Some target ->
        (reached incidents data s2 e2 target j ->
         exists cls,
           nth_error out2 j = Some (classified target cls)
           /\ produced format_prompt count_tokens json_loads service2 field
                target cls)
        /\ (~ reached incidents data s2 e2 target j ->
            reached incidents data s1 e1 target j ->
            exists cls,
              nth_error out2 j = Some (classified target cls)
              /\ produced format_prompt count_tokens json_loads service1 field
                   target cls)
        /\ (~ reached incidents data s2 e2 target j ->
            ~ reached incidents data s1 e1 target j ->
            nth_error out2 j = Some target).
Proof.
  intros Hf Hr1 Hr2 Hdata Hne Hus Hk1 Hk2 Hnar Hp1 Hp2.
  pose proof (processing_range_bounds _ _ _ _ _ Hr1) as Hb1.
  pose proof (processing_range_bounds _ _ _ _ _ Hr2) as Hb2.
  destruct (run_merges format_prompt count_tokens json_loads service1 field Hf
              incidents existing data start1 end1 s1 e1 calls1)
    as (out1 & log1 & Hrun1 & M1); auto.
  assert (Hlen1 : List.length out1 = List.length data)
    by (eapply merged_into_length; eauto).
  assert (Hne1 : out1 <> []).
  { intros ->. destruct data; [contradiction|discriminate]. }
  destruct (run_merges format_prompt count_tokens json_loads service2 field Hf
              incidents (Some out1) out1 start2 end2 s2 e2 calls2)
    as (out2 & log2 & Hrun2 & M2); auto.
  { eapply merged_into_usable; eauto. }
  { eapply merged_into_keyed; eauto. }
  { eapply merged_into_narratives; eauto. }
  assert (Hlen2 : List.length out2 = List.length out1)
    by (eapply merged_into_length; eauto).
  assert (Hids1 : map acn_of out1 = map acn_of data) by (now destruct M1).
  assert (Hids2 : map acn_of out2 = map acn_of out1) by (now destruct M2).
  rewrite (targets_ids _ _ _ _ Hids1) in M2.
  exists out1, log1, out2, log2.
  split; [exact Hrun1|]. split; [exact Hrun2|].
  split; [congruence|]. split; [congruence|].
  split; [intros ->; subst data; congruence|].
  intros j target Hd.
  destruct (merged_into_record format_prompt count_tokens json_loads service1
              field Hf _ _ _ _ _ M1 Hd) as (rec & Hrec & Hnrec & Hcl & _).
  pose proof (targets_reached incidents data s1 e1 target j Hus
                ltac:(lia) Hd) as T1.
  pose proof (targets_reached incidents data s2 e2 target j Hus
                ltac:(lia) Hd) as T2.
  destruct M1 as [_ Hhit1 Hrest1]. destruct M2 as [_ Hhit2 Hrest2].
  split; [|split].
  - intros Hin. apply T2 in Hin.
    destruct (Hhit2 j rec Hin Hrec) as (cls & Ho & (txt & calls & Hn & Hc)).
    exists cls. split; [now rewrite Ho, Hcl|].
    exists txt, calls. split; [congruence|assumption].
  - intros Hn2 Hin. apply T1 in Hin.
    rewrite Hrest2 by (intros H; apply Hn2; now apply T2).
    exact (Hhit1 j target Hin Hd).
  - intros Hn2 Hn1.
    rewrite Hrest2 by (intros H; apply Hn2; now apply T2).
    rewrite Hrest1 by (intros H; apply Hn1; now apply T1).
    exact Hd.
Qed.

Lemma resumed_runs_merge_witness :
  exists out1 log1 out2 log2,
    main (fun s => s) (fun _ => 0%Z) (fun _ => Some (JArr []))
         (fun _ prompt => RaisesAPIError prompt) "Narrative"
         three_distinct 0%Z (Some 2%Z) (Some three_shuffled) []
    = Ok (Some out1, log1)
    /\ main (fun s => s) (fun _ => 0%Z) (fun _ => Some (JArr []))
            (fun _ _ => Response None "[]") "Narrative"
            three_distinct 1%Z None (Some out1) [] = Ok (Some out2, log2)
    /\ map acn_of out2 = map acn_of three_shuffled
    /\ List.length out2 = List.length three_shuffled
    /\ (Some three_shuffled = None
        -> List.length out2 = List.length three_distinct)
    /\ forall j target,
        nth_error three_shuffled j = Some target ->
        (reached three_distinct three_shuffled 1 3 target j ->
         exists cls,
           nth_error out2 j = Some (classified target cls)
           /\ produced (fun s => s) (fun _ => 0%Z) (fun _ => Some (JArr []))
                (fun _ _ => Response None "[]") "Narrative" target cls)
        /\ (~ reached three_distinct three_shuffled 1 3 target j ->
            reached three_distinct three_shuffled 0 2 target j ->
            exists cls,
              nth_error out2 j = Some (classified target cls)
              /\ produced (fun s => s) (fun _ => 0%Z) (fun _ => Some (JArr []))
                   (fun _ prompt => RaisesAPIError prompt) "Narrative"
                   target cls)
        /\ (~ reached three_distinct three_shuffled 1 3 target j ->
            ~ reached three_distinct three_shuffled 0 2 target j ->
            nth_error out2 j = Some target).
Proof.
  apply (resumed_runs_merge (fun s => s) (fun _ => 0%Z) (fun _ => Some (JArr []))
           (fun _ prompt => RaisesAPIError prompt) (fun _ _ => Response None "[]")
           "Narrative" three_distinct (Some three_shuffled) three_shuffled
           0%Z 1%Z (Some 2%Z) None 0 2 1 3 [] []).
  - discriminate.
  - vm_compute. reflexivity.
  - vm_compute. reflexivity.
  - reflexivity.
  - discriminate.
  - right. exists [KStr "3"; KStr "1"; KStr "2"]. split; [reflexivity|].
    repeat constructor; cbn; intuition discriminate.
  - vm_compute. reflexivity.
  - vm_compute. reflexivity.
  - vm_compute. reflexivity.
  - vm_compute. reflexivity.
  - vm_compute. reflexivity.
Defined.

(** The two runs of the witness, evaluated: the master list is in another
    order than the input and holds other narratives, and each classification
    is on the record that carries the incident's identifier, made from the
    narrative of that record. *)
Example resumed_runs_example :
  main (fun s => s) (fun _ => 0%Z) (fun _ => Some (JArr []))
       (fun _ prompt => RaisesAPIError prompt) "Narrative"
       three_distinct 0%Z (Some 1%Z) (Some three_shuffled) []
  = Ok (Some
          [ [("ACN", JStr "3"); ("Narrative", JObj [("text", JStr "  ")])];
            [("ACN", JStr "1"); ("Narrative", JObj [("text", JStr "uno")]);
             ("hfacs_classification",
              JArr [JObj [("error", JStr "OpenAI API Error: uno")]])];
            [("ACN", JStr "2"); ("Narrative", JObj [("text", JStr "due")])] ],
        ["uno"]).
Proof. vm_compute. reflexivity. Qed.

(** * Further properties of the extractor *)

Lemma bind_ok_r {A : Type} (m : res A) : (x <- m ;; Ok x) = m.
Proof. now destruct m. Qed.

Lemma record_part_app_heading x h b :
  has_class "acnheading" h = true -> record_part (x ++ h :: b) = record_part x.
Proof.
  intros Hh. induction x as [|t x IH]; cbn [app record_part].
  - now rewrite Hh.
  - destruct (has_class "acnheading" t); auto. now rewrite IH.
Qed.

Lemma record_part_idem sibs : record_part (record_part sibs) = record_part sibs.
Proof.
  induction sibs as [|t sibs IH]; cbn [record_part]; auto.
  destruct (has_class "acnheading" t) eqn:Hh; auto.
  cbn [record_part]. now rewrite Hh, IH.
Qed.

Lemma build_record_record_part get_text heading sibs :
  build_record get_text heading sibs
  = build_record get_text heading (record_part sibs).
Proof.
  unfold build_record.
  destruct (heading_record (get_text (contents heading))); cbn [bind]; auto.
  now rewrite walk_record_part, (walk_record_part _ (record_part sibs)),
    record_part_idem.
Qed.

Lemma extract_length get_text soup : forall records,
  _extract_records get_text soup = Ok records ->
  List.length records = List.length (headings_with_siblings soup).
Proof.
  induction soup as [|t soup IH]; intros records H; cbn in H.
  - now injection H as <-.
  - cbn [headings_with_siblings].
    destruct (has_class "acnheading" t); auto.
    destruct (build_record get_text t soup) as [r|e]; [|discriminate].
    destruct (_extract_records get_text soup) as [rs|e]; [|discriminate].
    cbn [bind] in H. injection H as <-. cbn [List.length]. now rewrite (IH rs).
Qed.

(** X1: a document can be cut before any heading and its two parts
    extracted one after the other: the records of the whole are the records
    of the first part followed by the records of the second, and the whole
    raises what the first of the parts to fail raises. *)
Theorem extract_splits_at_heading
  (get_text : string -> string) (a b : list tag) (h : tag) :
  has_class "acnheading" h = true ->
  _extract_records get_text (a ++ h :: b)
  = (ra <- _extract_records get_text a ;;
     rb <- _extract_records get_text (h :: b) ;;
     Ok (ra ++ rb)).
Proof.
  intros Hh. remember (_extract_records get_text (h :: b)) as second eqn:Es.
  induction a as [|t a IH].
  - cbn [app]. rewrite <- Es. cbn [_extract_records bind].
    now rewrite bind_ok_r.
  - cbn [app]. cbn [_extract_records]. rewrite IH.
    destruct (has_class "acnheading" t); auto.
    rewrite build_record_record_part, record_part_app_heading by assumption.
    rewrite <- build_record_record_part.
    destruct (build_record get_text t a); cbn [bind]; auto.
    destruct (_extract_records get_text a); cbn [bind]; auto.
    destruct second; cbn [bind]; auto.
Qed.

Lemma extract_splits_at_heading_witness :
  _extract_records markup_text
    ([p "acnheading" "ACN: 1"; p "acnsection" "Place:"; p "acndata" "A : 1"]
     ++ p "acnheading" "ACN: 2" :: [p "acnsection" "Time:"; p "acndata" "B : 2"])
  = (ra <- _extract_records markup_text
             [p "acnheading" "ACN: 1"; p "acnsection" "Place:"; p "acndata" "A : 1"] ;;
     rb <- _extract_records markup_text
             (p "acnheading" "ACN: 2" :: [p "acnsection" "Time:"; p "acndata" "B : 2"]) ;;
     Ok (ra ++ rb)).
Proof.
  apply (extract_splits_at_heading markup_text
           [p "acnheading" "ACN: 1"; p "acnsection" "Place:"; p "acndata" "A : 1"]
           [p "acnsection" "Time:"; p "acndata" "B : 2"]
           (p "acnheading" "ACN: 2")).
  reflexivity.
Defined.

(** X2: when the extraction returns, there is one record per heading, in
    the order of the headings, and each is the record built from its heading
    and the elements after it; elements before the first heading give
    nothing. *)
Theorem records_follow_headings
  (get_text : string -> string) (soup : list tag) (records : list record) :
  _extract_records get_text soup = Ok records ->
  Forall2 (fun hs r => build_record get_text (fst hs) (record_part (snd hs)) = Ok r)
          (headings_with_siblings soup) records
  /\ List.length records
     = List.length (filter (has_class "acnheading") soup).
Proof.
  revert records. induction soup as [|t soup IH]; intros records H; cbn in H.
  - injection H as <-. split; [constructor|reflexivity].
  - cbn [headings_with_siblings filter].
    destruct (has_class "acnheading" t); auto.
    destruct (build_record get_text t soup) as [r|e] eqn:Hb; [|discriminate].
    destruct (_extract_records get_text soup) as [rs|e]; [|discriminate].
    cbn [bind] in H. injection H as <-. destruct (IH rs eq_refl) as [HF HL].
    split.
    + constructor; auto. cbn [fst snd]. now rewrite <- build_record_record_part.
    + cbn [List.length]. now rewrite HL.
Qed.

Lemma records_follow_headings_witness :
  Forall2 (fun hs r => build_record markup_text (fst hs) (record_part (snd hs)) = Ok r)
          (headings_with_siblings
             [p "acndata" "lost"; p "acnheading" "ACN: 1"; p "acnheading" "No id"])
          [ [("ACN", Ident "1")]; [] ]
  /\ List.length [ [("ACN", Ident "1")]; ([] : record) ]
     = List.length (filter (has_class "acnheading")
                           [p "acndata" "lost"; p "acnheading" "ACN: 1";
                            p "acnheading" "No id"]).
Proof.
  apply (records_follow_headings markup_text
           [p "acndata" "lost"; p "acnheading" "ACN: 1"; p "acnheading" "No id"]
           [ [("ACN", Ident "1")]; [] ]).
  reflexivity.
Defined.

Lemma headings_count soup :
  List.length (headings_with_siblings soup)
  = List.length (filter (has_class "acnheading") soup).
Proof.
  induction soup as [|t soup IH]; cbn [headings_with_siblings filter]; auto.
  destruct (has_class "acnheading" t); cbn [List.length]; auto.
Qed.

(** X3: the extraction returns, with one record per heading, for every
    document in which each heading text has no colon or has a token after
    its first colon, and no line of a data block has the label "text". *)
Theorem clean_document_is_extracted
  (get_text : string -> string) (soup : list tag) :
  forallb (fun t => negb (has_class "acnheading" t)
                    || heading_ok (get_text (contents t))) soup = true ->
  forallb (block_ok get_text) soup = true ->
  exists records,
    _extract_records get_text soup = Ok records
    /\ List.length records
       = List.length (filter (has_class "acnheading") soup).
Proof.
  intros Hh Hb. destruct (extraction_returns get_text soup Hh Hb) as [rs Hrs].
  exists rs. split; auto.
  now rewrite (extract_length _ _ _ Hrs), headings_count.
Qed.

Lemma clean_document_is_extracted_witness :
  exists records,
    _extract_records markup_text
      [p "acnheading" "ACN: 1"; p "acndata" "x : early";
       p "acnsection" "Place:";
       element "acndata" [Text "A : 1"; Br; Text "note"];
       p "acnheading" "No identifier"] = Ok records
    /\ List.length records
       = List.length (filter (has_class "acnheading")
           [p "acnheading" "ACN: 1"; p "acndata" "x : early";
            p "acnsection" "Place:";
       element "acndata" [Text "A : 1"; Br; Text "note"];
            p "acnheading" "No identifier"]).
Proof.
  apply (clean_document_is_extracted markup_text
           [p "acnheading" "ACN: 1"; p "acndata" "x : early";
            p "acnsection" "Place:";
       element "acndata" [Text "A : 1"; Br; Text "note"];
            p "acnheading" "No identifier"]); reflexivity.
Defined.

Lemma walk_idle get_text ts : forall r,
  no_section ts = true -> walk get_text ts (r, None) = Ok (r, None).
Proof.
  induction ts as [|t ts IH]; intros r Hns; cbn [walk]; auto.
  cbn [no_section forallb] in Hns. apply andb_true_iff in Hns as [Ht Hns].
  apply negb_true_iff in Ht.
  destruct (has_class "acnheading" t); auto.
  unfold sib_step. rewrite Ht. cbn [truthy]. rewrite andb_false_r.
  cbn [bind]. now apply IH.
Qed.

Lemma heading_record_flat text r0 :
  heading_record text = Ok r0 -> flatten_record r0 = r0.
Proof.
  unfold heading_record. destruct (contains ":" text).
  - destruct (index (split1 ":" text) 1) as [rest|]; [|discriminate].
    cbn [bind]. destruct (index (split_ws rest) 0); [|discriminate].
    cbn [bind]. now intros [= <-].
  - now intros [= <-].
Qed.

(** X4: data blocks that come before any section marker of their record are
    ignored: a record without section marker is what the heading alone
    gives, the identifier or nothing, and it fails only as the heading
    does. *)
Theorem record_without_section
  (get_text : string -> string) (heading : tag) (sibs : list tag) :
  no_section (record_part sibs) = true ->
  build_record get_text heading sibs
  = heading_record (get_text (contents heading)).
Proof.
  intros Hns. rewrite build_record_record_part. unfold build_record.
  destruct (heading_record (get_text (contents heading))) as [r0|e] eqn:Hh;
    cbn [bind]; auto.
  rewrite (walk_idle _ _ _ Hns). cbn [bind fst].
  now rewrite (heading_record_flat _ _ Hh).
Qed.

Lemma record_without_section_witness :
  build_record markup_text (p "acnheading" "ACN: 9 (1 of 2)")
    [element "acndata" [Text "text : x"; Br; Text "note"]; p "other" "y";
     p "acnheading" "ACN: 10"; p "acnsection" "Place:"]
  = heading_record (markup_text (contents (p "acnheading" "ACN: 9 (1 of 2)"))).
Proof.
  apply (record_without_section markup_text (p "acnheading" "ACN: 9 (1 of 2)")
           [element "acndata" [Text "text : x"; Br; Text "note"]; p "other" "y";
            p "acnheading" "ACN: 10"; p "acnsection" "Place:"]).
  reflexivity.
Defined.

Lemma dmem_dset {V : Type} k k' (v : V) d :
  dmem k (dset k' v d) = String.eqb k' k || dmem k d.
Proof.
  unfold dmem. destruct (String.eqb k' k) eqn:E.
  - apply String.eqb_eq in E. subst. now rewrite dget_dset_eq.
  - apply String.eqb_neq in E. now rewrite dget_dset_ne.
Qed.

Lemma data_lines_keys name k lines : forall r r',
  for_each (data_line name) lines r = Ok r' -> dmem k r' = dmem k r.
Proof.
  induction lines as [|line lines IH]; intros r r' Hrun.
  - now injection Hrun as <-.
  - cbn [for_each] in Hrun. unfold data_line at 1 in Hrun.
    destruct (dget name r) as [[s|sec]|] eqn:Hn; try discriminate.
    destruct (line_step sec line) as [sec1|e]; [|discriminate].
    cbn [bind] in Hrun. rewrite (IH _ _ Hrun), dmem_dset.
    destruct (String.eqb name k) eqn:E; auto.
    apply String.eqb_eq in E. subst. unfold dmem. now rewrite Hn.
Qed.

Lemma walk_keys get_text k ts : forall r cur r' cur',
  no_heading ts = true ->
  walk get_text ts (r, cur) = Ok (r', cur') ->
  dmem k r' = dmem k r || negb (not_named get_text k ts).
Proof.
  induction ts as [|t ts IH]; intros r cur r' cur' Hnh Hrun.
  - injection Hrun as <- _. cbn. now rewrite orb_false_r.
  - cbn [no_heading forallb] in Hnh. apply andb_true_iff in Hnh as [Hh Hnh].
    apply negb_true_iff in Hh. cbn [walk] in Hrun. rewrite Hh in Hrun.
    cbn [not_named forallb]. fold (not_named get_text k ts).
    unfold sib_step in Hrun. unfold section_name_of.
    destruct (has_class "acnsection" t).
    + cbn [bind] in Hrun. rewrite (IH _ _ _ _ Hnh Hrun), dmem_dset.
      cbn [andb].
      destruct (String.eqb (rstrip_chars ":" (get_text (contents t))) k);
        cbn [negb andb orb]; auto.
      now rewrite !orb_true_r.
    + cbn [andb negb]. destruct (has_class "acndata" t && truthy cur).
      * destruct cur as [name|].
        -- destruct (for_each (data_line name)
                       (_parse_acndata_block get_text t) r) as [r1|e] eqn:E;
             [|discriminate].
           cbn [bind] in Hrun. rewrite (IH _ _ _ _ Hnh Hrun).
           now rewrite (data_lines_keys _ _ _ _ _ E).
        -- cbn [bind] in Hrun. eauto.
      * cbn [bind] in Hrun. eauto.
Qed.

(** X5: the keys of a record are the key "ACN", when the heading gave an
    identifier, and the names of the section markers that stand between its
    heading and the next heading: no other key is in the record, and each
    of these is. *)
Theorem record_keys
  (get_text : string -> string) (heading : tag) (sibs : list tag) (r : record) :
  build_record get_text heading sibs = Ok r ->
  exists r0,
    heading_record (get_text (contents heading)) = Ok r0
    /\ (r0 = [] \/ exists tok, r0 = [("ACN", Ident tok)])
    /\ forall k,
        dmem k r = dmem k r0 || negb (not_named get_text k (record_part sibs)).
Proof.
  intros Hr. unfold build_record in Hr.
  destruct (heading_record (get_text (contents heading))) as [r0|e] eqn:Hh;
    [|discriminate].
  cbn [bind] in Hr. rewrite walk_record_part in Hr.
  destruct (walk get_text (record_part sibs) (r0, None)) as [[r1 c1]|e] eqn:Hw;
    [|discriminate].
  cbn [bind fst] in Hr. injection Hr as <-.
  exists r0. split; [reflexivity|]. split.
  - unfold heading_record in Hh. destruct (contains ":" (get_text (contents heading))).
    + destruct (index (split1 ":" (get_text (contents heading))) 1) as [rest|];
        [|discriminate].
      cbn [bind] in Hh. destruct (index (split_ws rest) 0) as [tok|];
        [|discriminate].
      cbn [bind] in Hh. injection Hh as <-. eauto.
    + injection Hh as <-. now left.
  - intros k.
    rewrite <- (walk_keys _ k _ _ _ _ _ (record_part_no_heading sibs) Hw).
    unfold dmem. rewrite flatten_record_get.
    now destruct (dget k r1).
Qed.

Lemma record_keys_witness :
  exists r0,
    heading_record (markup_text (contents (p "acnheading" "ACN: 1"))) = Ok r0
    /\ (r0 = [] \/ exists tok, r0 = [("ACN", Ident tok)])
    /\ forall k,
        dmem k [("ACN", Ident "1"); ("Place", Sect [("A", VStr "1")]);
                ("Time", Sect [])]
        = dmem k r0
          || negb (not_named markup_text k
                     (record_part
                        [p "acndata" "x"; p "acnsection" "Place:";
                         p "acndata" "A : 1"; p "acnsection" "Time:";
                         p "acnheading" "ACN: 2"; p "acnsection" "Events:"])).
Proof.
  apply (record_keys markup_text (p "acnheading" "ACN: 1")
           [p "acndata" "x"; p "acnsection" "Place:"; p "acndata" "A : 1";
            p "acnsection" "Time:"; p "acnheading" "ACN: 2";
            p "acnsection" "Events:"]
           [("ACN", Ident "1"); ("Place", Sect [("A", VStr "1")]);
            ("Time", Sect [])]).
  reflexivity.
Defined.

(** * From the extractor to the classifier *)

Lemma dget_map_values {V W : Type} (f : V -> W) k (d : dict V) :
  dget k (map (fun kv => (fst kv, f (snd kv))) d) = option_map f (dget k d).
Proof.
  induction d as [|[k0 v0] d IH]; cbn; auto.
  destruct (String.eqb k0 k); auto.
Qed.

Lemma identifier_at_acn_dset name sec r :
  identifier_at_acn r -> identifier_at_acn (dset name (Sect sec) r).
Proof.
  intros H k s. destruct (String.eqb name k) eqn:E.
  - apply String.eqb_eq in E. subst. now rewrite dget_dset_eq.
  - apply String.eqb_neq in E. rewrite dget_dset_ne by assumption. apply H.
Qed.

Lemma data_lines_identifier name lines : forall r r',
  identifier_at_acn r ->
  for_each (data_line name) lines r = Ok r' -> identifier_at_acn r'.
Proof.
  induction lines as [|line lines IH]; intros r r' Hr Hrun.
  - now injection Hrun as <-.
  - cbn [for_each] in Hrun. unfold data_line at 1 in Hrun.
    destruct (dget name r) as [[s|sec]|]; try discriminate.
    destruct (line_step sec line) as [sec1|e]; [|discriminate].
    cbn [bind] in Hrun.
    eapply IH; [|exact Hrun]. now apply identifier_at_acn_dset.
Qed.

Lemma walk_identifier get_text ts : forall r cur r' cur',
  identifier_at_acn r ->
  walk get_text ts (r, cur) = Ok (r', cur') -> identifier_at_acn r'.
Proof.
  induction ts as [|t ts IH]; intros r cur r' cur' Hr Hrun.
  - now injection Hrun as <- _.
  - cbn [walk] in Hrun. destruct (has_class "acnheading" t).
    { now injection Hrun as <- _. }
    unfold sib_step in Hrun. destruct (has_class "acnsection" t).
    + cbn [bind] in Hrun. eapply IH; [|exact Hrun].
      now apply identifier_at_acn_dset.
    + destruct (has_class "acndata" t && truthy cur).
      * destruct cur as [name|].
        -- destruct (for_each (data_line name)
                       (_parse_acndata_block get_text t) r) as [r1|e] eqn:E;
             [|discriminate].
           cbn [bind] in Hrun. eapply IH; [|exact Hrun].
           eapply data_lines_identifier; eauto.
        -- cbn [bind] in Hrun. eauto.
      * cbn [bind] in Hrun. eauto.
Qed.

Lemma heading_record_identifier text r0 :
  heading_record text = Ok r0 -> identifier_at_acn r0.
Proof.
  unfold heading_record. destruct (contains ":" text).
  - destruct (index (split1 ":" text) 1) as [rest|]; [|discriminate].
    cbn [bind]. destruct (index (split_ws rest) 0) as [tok|]; [|discriminate].
    cbn [bind]. intros [= <-] k s. cbn [dget].
    destruct (String.eqb "ACN" k) eqn:E; [|discriminate].
    intros _. apply String.eqb_eq in E. now subst.
  - intros [= <-] k s. discriminate.
Qed.

(** X6: every record the extractor writes is read by the classifier without
    error under any narrative field other than "ACN": the first-incident
    probe of the cost estimate passes, and the narrative resolves to a
    string, the "text" of the section of that name, or the empty string when
    the record has no such section or the section has no "text". *)
Theorem extracted_record_is_classifier_input
  (get_text : string -> string) (heading : tag) (sibs : list tag) (r : record)
  (field : string) :
  build_record get_text heading sibs = Ok r ->
  field <> "ACN" ->
  estimation_probe field (record_json r) = Ok tt
  /\ resolve_narrative field (record_json r) = Ok (JStr (section_narrative field r))
  /\ well_formed field (record_json r) = true.
Proof.
  intros Hr Hf. unfold build_record in Hr.
  destruct (heading_record (get_text (contents heading))) as [r0|e] eqn:Hh;
    [|discriminate].
  cbn [bind] in Hr.
  destruct (walk get_text sibs (r0, None)) as [[r1 c1]|e] eqn:Hw;
    [|discriminate].
  cbn [bind fst] in Hr. injection Hr as <-.
  pose proof (walk_identifier _ _ _ _ _ _ (heading_record_identifier _ _ Hh) Hw)
    as Hid.
  assert (Hget : dget field (record_json (flatten_record r1))
                 = option_map entry_json (dget field (flatten_record r1)))
    by apply dget_map_values.
  assert (Hcases :
            estimation_probe field (record_json (flatten_record r1)) = Ok tt
            /\ resolve_narrative field (record_json (flatten_record r1))
               = Ok (JStr (section_narrative field (flatten_record r1)))).
  { unfold estimation_probe, resolve_narrative, section_narrative.
    rewrite Hget, flatten_record_get.
    destruct (dget field r1) as [[s|d]|] eqn:Hd; cbn [option_map flatten_entry entry_json].
    - apply Hid in Hd. contradiction.
    - rewrite !dget_map_values, flatten_section_text.
      destruct (dget "text" d) as [[s|l]|]; cbn [option_map value_json]; auto.
    - auto. }
  destruct Hcases as [Hp Hres]. split; [exact Hp|]. split; [exact Hres|].
  unfold well_formed, narrative_text. now rewrite Hp, Hres.
Qed.

Lemma extracted_record_is_classifier_input_witness :
  estimation_probe "Narrative: 1"
    (record_json [("ACN", Ident "1");
                  ("Narrative: 1", Sect [("text", VStr "engine fire")])]) = Ok tt
  /\ resolve_narrative "Narrative: 1"
       (record_json [("ACN", Ident "1");
                     ("Narrative: 1", Sect [("text", VStr "engine fire")])])
     = Ok (JStr (section_narrative "Narrative: 1"
                   [("ACN", Ident "1");
                    ("Narrative: 1", Sect [("text", VStr "engine fire")])]))
  /\ well_formed "Narrative: 1"
       (record_json [("ACN", Ident "1");
                     ("Narrative: 1", Sect [("text", VStr "engine fire")])]) = true.
Proof.
  apply (extracted_record_is_classifier_input markup_text
           (p "acnheading" "ACN: 1")
           [p "acnsection" "Narrative: 1"; p "acndata" "engine fire"]
           [("ACN", Ident "1");
            ("Narrative: 1", Sect [("text", VStr "engine fire")])]
           "Narrative: 1").
  - reflexivity.
  - discriminate.
Defined.

(** * Further properties of the classifier *)

Lemma prefix_rstrip_by q f : forall x,
  prefix q (rstrip_by f x) = true -> prefix q x = true.
Proof.
  induction q as [|a q IH]; intros x H.
  - now destruct x.
  - destruct x as [|c x]; [exact H|].
    cbn [rstrip_by] in H. rewrite prefix_cons.
    destruct (rstrip_by f x) as [|c' r] eqn:Er.
    + destruct (f c); [discriminate|].
      rewrite prefix_cons in H. apply andb_true_iff in H as [Ha Hq].
      rewrite Ha. rewrite prefix_nil_r in Hq. destruct q; [|discriminate].
      now destruct x.
    + rewrite prefix_cons in H. apply andb_true_iff in H as [Ha Hq].
      rewrite Ha. cbn [andb]. apply IH. now rewrite Er.
Qed.

Lemma prefix_contains q x : prefix q x = true -> contains q x = true.
Proof.
  intros H. destruct x; cbn [contains]; now rewrite H.
Qed.

Lemma contains_lstrip q : forall x,
  contains q (lstrip x) = true -> contains q x = true.
Proof.
  induction x as [|c x IH]; cbn [lstrip]; auto.
  destruct (isspace c); auto.
  intros H. rewrite contains_cons, (IH H). apply orb_true_r.
Qed.

Lemma startswith_strip_contains q x :
  startswith (strip x) q = true -> contains q x = true.
Proof.
  unfold startswith, strip, rstrip. intros H.
  apply contains_lstrip, prefix_contains. eapply prefix_rstrip_by; eauto.
Qed.

(** A separator that occurs gives at least two pieces. *)
Lemma split_contains sep : forall s,
  contains sep s = true -> is_empty sep = false ->
  exists a b rest, split sep s = a :: b :: rest.
Proof.
  intros s Hc Hne.
  assert (H : snd (split_from sep 0 s) <> []).
  { induction s as [|c s IH].
    - cbn [contains] in Hc. rewrite prefix_nil_r, Hne in Hc. discriminate.
    - rewrite split_from_cons. rewrite contains_cons in Hc.
      destruct (prefix sep (String c s)).
      + destruct (split_from sep (String.length sep - 1) s). discriminate.
      + cbn [orb] in Hc. specialize (IH Hc).
        destruct (split_from sep 0 s). exact IH. }
  unfold split. destruct (split_from sep 0 s) as [a [|b rest]].
  - now contradiction H.
  - eauto.
Qed.

(** X7: stripping the Markdown fences of a response never fails: when the
    trimmed response starts with a fence, the split at that fence has a
    second piece, so the two list indexings of lines 258 and 260 are always
    in range, and no "list index out of range" descriptor comes from
    there. *)
Theorem strip_fences_returns (llm_output_text : string) :
  exists cleaned, strip_fences llm_output_text = Ok cleaned.
Proof.
  unfold strip_fences.
  destruct (startswith (strip llm_output_text) fence_json) eqn:E1.
  - apply startswith_strip_contains in E1.
    destruct (split_contains _ _ E1 eq_refl) as (a & b & rest & ->).
    cbn [index nth_error bind]. unfold split at 1.
    destruct (split_from fence 0 b) as [x xs]. cbn. eauto.
  - destruct (startswith (strip llm_output_text) fence) eqn:E2; eauto.
    apply startswith_strip_contains in E2.
    destruct (split_contains _ _ E2 eq_refl) as (a & b & rest & ->).
    cbn. eauto.
Qed.

(** X8: the range that [main] processes.  A start index outside the input
    stops the run; otherwise the range begins at the start index, is not
    empty and ends within the input, at the end index asked for when that
    lies after the start and within the input and at the end of the input
    otherwise; the slice holds exactly the incidents of the range, in
    order. *)
Theorem processing_range_slice
  (incidents : list incident) (start_index : Z) (end_index : option Z) :
  match processing_range (List.length incidents) start_index end_index with
  | None => ~ (0 <= start_index < Z.of_nat (List.length incidents))%Z
  | Some (s, e) =>
      Z.of_nat s = start_index
      /\ s < e <= List.length incidents
      /\ (e = List.length incidents
          \/ end_index = Some (Z.of_nat e))
      /\ (match end_index with
          | Some en => (start_index < en <= Z.of_nat (List.length incidents))%Z
                       -> en = Z.of_nat e
          | None => e = List.length incidents
          end)
      /\ List.length (firstn (e - s) (skipn s incidents)) = e - s
      /\ forall j, j < e - s ->
           nth_error (firstn (e - s) (skipn s incidents)) j
           = nth_error incidents (s + j)
  end.
Proof.
  destruct (processing_range (List.length incidents) start_index end_index)
    as [[s e]|] eqn:E.
  - pose proof (processing_range_bounds _ _ _ _ _ E) as Hb.
    unfold processing_range in E.
    destruct ((0 <=? start_index)%Z
              && (start_index <? Z.of_nat (List.length incidents))%Z) eqn:E1;
      [|discriminate].
    apply andb_true_iff in E1 as [H1 H2].
    apply Z.leb_le in H1. apply Z.ltb_lt in H2.
    assert (Hs : Z.of_nat s = start_index /\
                 (e = List.length incidents \/ end_index = Some (Z.of_nat e)) /\
                 match end_index with
                 | Some en =>
                     (start_index < en <= Z.of_nat (List.length incidents))%Z ->
                     en = Z.of_nat e
                 | None => e = List.length incidents
                 end).
    { destruct end_index as [en|].
      - destruct ((en <=? start_index)%Z
                  || (Z.of_nat (List.length incidents) <? en)%Z) eqn:E2;
          injection E as <- <-.
        + split; [lia|]. split; [now left|].
          apply orb_true_iff in E2 as [H|H];
            [apply Z.leb_le in H|apply Z.ltb_lt in H]; lia.
        + apply orb_false_iff in E2 as [H3 H4].
          apply Z.leb_gt in H3. apply Z.ltb_ge in H4.
          split; [lia|]. split; [right; f_equal; lia|]. lia.
      - assert (E2 : ((Z.of_nat (List.length incidents) <=? start_index)%Z
                      || (Z.of_nat (List.length incidents)
                          <? Z.of_nat (List.length incidents))%Z) = false).
        { apply orb_false_iff. split; [apply Z.leb_gt|apply Z.ltb_ge]; lia. }
        rewrite E2 in E. injection E as <- <-.
        split; [lia|]. split; [left|]; lia. }
    destruct Hs as (Hs1 & Hs2 & Hs3).
    repeat split; try tauto; try lia.
    + rewrite length_firstn, length_skipn. lia.
    + intros j Hj. rewrite nth_error_firstn.
      apply Nat.ltb_lt in Hj. rewrite Hj. apply nth_error_skipn.
  - unfold processing_range in E.
    destruct ((0 <=? start_index)%Z
              && (start_index <? Z.of_nat (List.length incidents))%Z) eqn:E1.
    + destruct (_ || _)%bool in E; discriminate.
    + intros [H1 H2]. apply Z.leb_le in H1. apply Z.ltb_lt in H2.
      now rewrite H1, H2 in E1.
Qed.

Lemma same_fields_all_refl l : Forall2 same_fields l l.
Proof. induction l; constructor; auto. now intros k _. Qed.

Lemma same_fields_all_trans l1 : forall l2 l3,
  Forall2 same_fields l1 l2 -> Forall2 same_fields l2 l3 ->
  Forall2 same_fields l1 l3.
Proof.
  induction l1 as [|a l1 IH]; intros l2 l3 H12 H23.
  - inversion H12; subst. inversion H23; subst. constructor.
  - inversion H12 as [|a' b l1' l2' Hab Hl]; subst.
    inversion H23 as [|b' c l2'' l3' Hbc Hl']; subst.
    constructor; eauto.
    intros k Hk. now rewrite (Hab k Hk), (Hbc k Hk).
Qed.

Lemma same_fields_list_set idx target v : forall l,
  nth_error l idx = Some target ->
  Forall2 same_fields l
          (list_set idx (dset "hfacs_classification" v target) l).
Proof.
  induction idx as [|idx IH]; intros [|a l] H; try discriminate; cbn in *.
  - injection H as ->. constructor; [|apply same_fields_all_refl].
    intros k Hk. symmetry. apply dget_dset_ne. congruence.
  - constructor; [now intros k _|]. now apply IH.
Qed.

Section RunFrame.

Variable format_prompt : string -> string.
Variable count_tokens : string -> Z.
Variable json_loads : string -> option json.
Variable service : list string -> string -> outcome.
Variable field : string.

Lemma get_hfacs_calls calls0 text :
  exists new,
    snd (get_hfacs_classification_from_llm format_prompt count_tokens
           json_loads service calls0 text) = calls0 ++ new
    /\ List.length new <= 1.
Proof.
  unfold get_hfacs_classification_from_llm.
  destruct (is_empty text || is_empty (strip text)).
  - exists []. cbn. now rewrite app_nil_r; auto.
  - exists [format_prompt text]. split; [|cbn; lia].
    destruct (service calls0 (format_prompt text)) as [m| |m|u t]; auto.
    destruct (strip_fences t) as [c|e]; auto.
    destruct (json_loads c) as [[]|]; auto.
Qed.

Lemma classify_target_framed st idx st' :
  classify_target format_prompt count_tokens json_loads service field st idx
  = Ok st' ->
  framed 1 st st'.
Proof.
  unfold classify_target, index.
  destruct (nth_error (all_incidents_data st) idx) as [target|] eqn:Ht;
    [|discriminate].
  cbn [bind]. destruct (resolve_narrative field target) as [narrative|];
    [|discriminate].
  cbn [bind]. destruct (narrative_to_send narrative) as [[text|]|];
    [| |discriminate]; cbn [bind].
  - destruct (get_hfacs_calls (calls st) text) as (new & Hnew & Hlen).
    destruct (get_hfacs_classification_from_llm format_prompt count_tokens
                json_loads service (calls st) text) as [[[h a] b] c].
    cbn [snd] in Hnew. intros [= <-]. split; cbn [all_incidents_data calls].
    + now apply same_fields_list_set.
    + eauto.
  - intros [= <-]. split; cbn [all_incidents_data calls].
    + now apply same_fields_list_set.
    + exists []. rewrite app_nil_r. cbn. auto.
Qed.

Lemma iteration_framed has_acn imap start_idx num st cur inc st' :
  iteration format_prompt count_tokens json_loads service field
    has_acn imap start_idx num st cur inc = Ok st' ->
  framed 1 st st'.
Proof.
  unfold iteration.
  destruct (find_target has_acn (all_incidents_data st) imap inc
              (start_idx + cur)) as [[idx|]|]; [| |discriminate]; cbn [bind].
  - destruct (classify_target format_prompt count_tokens json_loads service
                field st idx) as [st1|] eqn:Hc; [|discriminate].
    cbn [bind]. apply classify_target_framed in Hc.
    destruct (_ || _)%bool; intros [= <-]; exact Hc.
  - intros [= <-]. split; [apply same_fields_all_refl|].
    exists []. rewrite app_nil_r. cbn. auto.
Qed.

Lemma loop_framed has_acn imap start_idx num slice : forall cur st st',
  loop format_prompt count_tokens json_loads service field
    has_acn imap start_idx num cur slice st = Ok st' ->
  framed (List.length slice) st st'.
Proof.
  induction slice as [|inc slice IH]; intros cur st st' H; cbn [loop] in H.
  - injection H as <-. split; [apply same_fields_all_refl|].
    exists []. rewrite app_nil_r. cbn. auto.
  - destruct (iteration format_prompt count_tokens json_loads service field
                has_acn imap start_idx num st cur inc) as [st1|] eqn:Hi;
      [|discriminate].
    cbn [bind] in H. apply iteration_framed in Hi. apply IH in H.
    destruct Hi as [F1 (n1 & C1 & L1)]. destruct H as [F2 (n2 & C2 & L2)].
    split; [eapply same_fields_all_trans; eauto|].
    exists (n1 ++ n2). rewrite C2, C1, app_assoc. split; auto.
    rewrite length_app. cbn [List.length]. lia.
Qed.

End RunFrame.

(** X9: whatever the identifiers and the answers of the service, a run that
    ends and leaves an output file has neither added, removed nor moved a
    record, and has changed no field of a record other than
    "hfacs_classification": the file has the records of the master list it
    started from (the output file found, or the input), position by
    position.  The run has sent at most one request per incident of the
    input, after the requests made before, none of which it forgets. *)
Theorem run_keeps_records
  (format_prompt : string -> string) (count_tokens : string -> Z)
  (json_loads : string -> option json)
  (service : list string -> string -> outcome) (field : string)
  (input : list incident) (start_index : Z) (end_index : option Z)
  (existing : option (list incident)) (calls0 calls' : list string)
  (out : list incident) :
  main format_prompt count_tokens json_loads service field
    input start_index end_index existing calls0 = Ok (Some out, calls') ->
  let data := match existing with Some d => d | None => input end in
  List.length out = List.length data
  /\ Forall2 same_fields data out
  /\ exists new, calls' = calls0 ++ new /\ List.length new <= List.length input.
Proof.
  intros H data.
  assert (G : Forall2 same_fields data out
              /\ exists new, calls' = calls0 ++ new
                             /\ List.length new <= List.length input).
  { unfold main in H.
    destruct (load_incidents input) as [incidents|] eqn:Hl; [|discriminate].
    assert (incidents = input) by (destruct input; [discriminate|]; now injection Hl).
    subst incidents. cbn [bind] in H.
    assert (Hnone : forall o c, Ok (existing, calls0) = Ok (Some o, c) ->
                      Forall2 same_fields data o
                      /\ exists new, c = calls0 ++ new
                                     /\ List.length new <= List.length input).
    { intros o c [= -> <-]. split; [apply same_fields_all_refl|].
      exists []. rewrite app_nil_r. cbn. split; auto. lia. }
    destruct (processing_range (List.length input) start_index end_index)
      as [[s e]|]; [|now apply Hnone].
    set (slice := firstn (e - s) (skipn s input)) in *.
    assert (Hsl : List.length slice <= List.length input).
    { unfold slice. rewrite length_firstn, length_skipn. lia. }
    destruct slice as [|first rest] eqn:Es; [now apply Hnone|].
    destruct (estimation_probe field first); [|discriminate].
    cbn [bind] in H.
    destruct (match existing with
              | Some d => load_incidents d
              | None => Ok input
              end) as [d0|] eqn:Hd; [|discriminate].
    assert (d0 = data).
    { unfold data. destruct existing as [d|]; [|now injection Hd].
      destruct d; [discriminate|]. now injection Hd. }
    subst d0. cbn [bind] in H.
    destruct (incident_map (all_have_acn data) data) as [imap|]; [|discriminate].
    cbn [bind] in H.
    destruct (loop format_prompt count_tokens json_loads service field
                (all_have_acn data) imap s (List.length (first :: rest)) 0
                (first :: rest) (mk_state data calls0 existing))
      as [st|] eqn:Hloop; [|discriminate].
    cbn [bind] in H. injection H as <- <-.
    apply loop_framed in Hloop. destruct Hloop as [F (new & C & L)].
    cbn [all_incidents_data calls] in *. split; auto.
    exists new. split; auto. lia. }
  destruct G as [F C]. split; [|split]; auto.
  symmetry. eapply Forall2_length; eauto.
Qed.

Lemma run_keeps_records_witness :
  List.length
    [ [("ACN", JStr "7"); ("Narrative", JObj [("text", JStr "first")])];
      [("ACN", JStr "7"); ("Narrative", JObj [("text", JStr "second")]);
       ("hfacs_classification",
        JArr [JObj [("error", JStr "OpenAI API Error: second")]])] ]
  = List.length two_alike
  /\ Forall2 same_fields two_alike
       [ [("ACN", JStr "7"); ("Narrative", JObj [("text", JStr "first")])];
         [("ACN", JStr "7"); ("Narrative", JObj [("text", JStr "second")]);
          ("hfacs_classification",
           JArr [JObj [("error", JStr "OpenAI API Error: second")]])] ]
  /\ exists new, ["second"] = [] ++ new /\ List.length new <= List.length two_alike.
Proof.
  apply (run_keeps_records (fun s => s) (fun _ => 0%Z) (fun _ => None)
           (fun _ prompt => RaisesAPIError prompt) "Narrative"
           two_alike 0%Z (Some 1%Z) None [] ["second"]).
  vm_compute. reflexivity.
Defined.

Lemma dget_In {V : Type} k (v : V) d : dget k d = Some v -> In (k, v) d.
Proof.
  induction d as [|[k0 v0] d IH]; cbn [dget]; [discriminate|].
  destruct (String.eqb k0 k) eqn:E.
  - apply String.eqb_eq in E. intros [= ->]. subst. now left.
  - intros H. right. auto.
Qed.

Lemma In_dget {V : Type} k (v : V) d :
  NoDup (map fst d) -> In (k, v) d -> dget k d = Some v.
Proof.
  induction d as [|[k0 v0] d IH]; intros Hnd Hin; [contradiction|].
  cbn [map fst] in Hnd. apply NoDup_cons_iff in Hnd as [Hnot Hnd].
  cbn [dget]. destruct Hin as [[= -> ->]|Hin].
  - now rewrite String.eqb_refl.
  - destruct (String.eqb k0 k) eqn:E; auto.
    apply String.eqb_eq in E. subst. exfalso. apply Hnot.
    apply in_map_iff. now exists (k, v).
Qed.

Lemma first_narrative_key_some items k :
  first_narrative_key items = Some k ->
  exists v, In (k, v) items /\ narrative_section k v = true.
Proof.
  induction items as [|[k0 v0] items IH]; cbn [first_narrative_key];
    [discriminate|].
  fold (narrative_section k0 v0).
  destruct (narrative_section k0 v0) eqn:E.
  - intros [= <-]. exists v0. split; [now left|assumption].
  - intros H. destruct (IH H) as (v & Hin & Hv). exists v. split; auto.
    now right.
Qed.

Lemma first_narrative_key_first pre k v post :
  Forall (fun kv => narrative_section (fst kv) (snd kv) = false) pre ->
  narrative_section k v = true ->
  first_narrative_key (pre ++ (k, v) :: post) = Some k.
Proof.
  intros Hpre Hk. induction Hpre as [|[k0 v0] pre H0 Hpre IH];
    cbn [app first_narrative_key].
  - fold (narrative_section k v). now rewrite Hk.
  - fold (narrative_section k0 v0). cbn [fst snd] in H0. now rewrite H0.
Qed.

Lemma first_narrative_key_none items :
  (forall k v, In (k, v) items -> narrative_section k v = false) ->
  first_narrative_key items = None.
Proof.
  induction items as [|[k0 v0] items IH]; intros H; cbn [first_narrative_key];
    auto.
  fold (narrative_section k0 v0). rewrite (H k0 v0) by now left.
  apply IH. intros k v Hin. apply H. now right.
Qed.

Lemma first_narrative_key_none_inv items k v :
  first_narrative_key items = None -> In (k, v) items ->
  narrative_section k v = false.
Proof.
  induction items as [|[k0 v0] items IH]; intros F Hin; [contradiction|].
  cbn [first_narrative_key] in F. fold (narrative_section k0 v0) in F.
  destruct (narrative_section k0 v0) eqn:E0; [discriminate|].
  destruct Hin as [[= -> ->]|Hin]; auto.
Qed.

Lemma has_text_object v :
  has_text v = true -> exists d, v = JObj d /\ dmem "text" d = true.
Proof. destruct v; try discriminate. cbn. eauto. Qed.

(** X10: the narrative field found in a sample whose keys are distinct.  A
    section "Narrative: 1" that is a dictionary with a "text" wins over
    every other key; failing that, the first key in the order of the sample
    whose lower-cased name contains "narrative" and whose value is a
    dictionary with a "text" is returned; whenever some key of the sample
    qualifies, the field returned is a dictionary of the sample with a
    "text"; and when none does, the answer is "Narrative: 1" even though the
    sample has no usable section of that name. *)
Theorem narrative_field_detection (incident_sample : incident) :
  NoDup (map fst incident_sample) ->
  (forall v,
      dget "Narrative: 1" incident_sample = Some v -> has_text v = true ->
      find_narrative_field incident_sample = "Narrative: 1")
  /\ (forall pre k v post,
        incident_sample = pre ++ (k, v) :: post ->
        (forall v1, dget "Narrative: 1" incident_sample = Some v1 ->
                    has_text v1 = false) ->
        Forall (fun kv => narrative_section (fst kv) (snd kv) = false) pre ->
        narrative_section k v = true ->
        find_narrative_field incident_sample = k)
  /\ ((exists k v, In (k, v) incident_sample /\ narrative_section k v = true) ->
      exists d,
        dget (find_narrative_field incident_sample) incident_sample
        = Some (JObj d)
        /\ dmem "text" d = true)
  /\ ((forall k v, In (k, v) incident_sample -> narrative_section k v = false) ->
      find_narrative_field incident_sample = "Narrative: 1"
      /\ forall v, dget "Narrative: 1" incident_sample = Some v ->
                   has_text v = false).
Proof.
  intros Hnd. unfold find_narrative_field. split; [|split; [|split]].
  - intros v Hv Ht. now rewrite Hv, Ht.
  - intros pre k v post Hinc Hexact Hpre Hk.
    destruct (dget "Narrative: 1" incident_sample) as [v1|] eqn:E.
    + rewrite (Hexact v1 eq_refl). rewrite Hinc.
      now rewrite first_narrative_key_first.
    + rewrite Hinc. now rewrite first_narrative_key_first.
  - intros (k & v & Hin & Hk).
    destruct (dget "Narrative: 1" incident_sample) as [v1|] eqn:E.
    + destruct (has_text v1) eqn:Ht.
      * rewrite E. destruct (has_text_object _ Ht) as (d & -> & Hd). eauto.
      * destruct (first_narrative_key incident_sample) as [k'|] eqn:F.
        -- destruct (first_narrative_key_some _ _ F) as (v' & Hin' & Hv').
           rewrite (In_dget _ _ _ Hnd Hin').
           unfold narrative_section in Hv'. apply andb_true_iff in Hv' as [_ Hv'].
           destruct (has_text_object _ Hv') as (d & -> & Hd). eauto.
        -- rewrite (first_narrative_key_none_inv _ _ _ F Hin) in Hk.
           discriminate.
    + destruct (first_narrative_key incident_sample) as [k'|] eqn:F.
      * destruct (first_narrative_key_some _ _ F) as (v' & Hin' & Hv').
        rewrite (In_dget _ _ _ Hnd Hin').
        unfold narrative_section in Hv'. apply andb_true_iff in Hv' as [_ Hv'].
        destruct (has_text_object _ Hv') as (d & -> & Hd). eauto.
      * rewrite (first_narrative_key_none_inv _ _ _ F Hin) in Hk.
        discriminate.
  - intros Hall.
    assert (Hexact : forall v, dget "Narrative: 1" incident_sample = Some v ->
                               has_text v = false).
    { intros v Hv. apply dget_In in Hv. apply Hall in Hv.
      unfold narrative_section in Hv.
      apply andb_false_iff in Hv as [Hv|Hv]; [|assumption].
      vm_compute in Hv. discriminate. }
    split; [|exact Hexact].
    destruct (dget "Narrative: 1" incident_sample) as [v|].
    + rewrite (Hexact v eq_refl). now rewrite first_narrative_key_none.
    + now rewrite first_narrative_key_none.
Qed.

Lemma narrative_field_detection_witness :
  exists d,
    dget (find_narrative_field
            [("ACN", JStr "1"); ("Synopsis", JObj [("text", JStr "short")]);
             ("NARRATIVE: 2", JObj [("text", JStr "long")]);
             ("Narrative: 1", JObj [])])
         [("ACN", JStr "1"); ("Synopsis", JObj [("text", JStr "short")]);
          ("NARRATIVE: 2", JObj [("text", JStr "long")]);
          ("Narrative: 1", JObj [])]
    = Some (JObj d)
    /\ dmem "text" d = true.
Proof.
  refine (proj1 (proj2 (proj2
            (narrative_field_detection
               [("ACN", JStr "1"); ("Synopsis", JObj [("text", JStr "short")]);
                ("NARRATIVE: 2", JObj [("text", JStr "long")]);
                ("Narrative: 1", JObj [])] _))) _).
  - repeat constructor; cbn; intuition discriminate.
  - exists "NARRATIVE: 2", (JObj [("text", JStr "long")]).
    split; [cbn; tauto | reflexivity].
Defined.

(** * Key/value lines *)

Lemma prefix_app q : forall x y, prefix q x = true -> prefix q (x ++ y) = true.
Proof.
  induction q as [|a q IH]; intros x y H.
  - now destruct (x ++ y)%string.
  - destruct x as [|c x]; [discriminate|]. cbn [append].
    rewrite prefix_cons in *. apply andb_true_iff in H as [Ha Hq].
    now rewrite Ha, (IH _ _ Hq).
Qed.

Lemma prefix_drop q : forall x,
  prefix q x = true -> x = (q ++ drop (String.length q) x)%string.
Proof.
  induction q as [|a q IH]; intros x H.
  - now destruct x.
  - destruct x as [|c x]; [discriminate|].
    rewrite prefix_cons in H. apply andb_true_iff in H as [Ha Hq].
    apply Ascii.eqb_eq in Ha. subst c. cbn [String.length drop append].
    now rewrite <- (IH _ Hq).
Qed.

(** The cut at the first separator: the line is the part before, the
    separator and the part after, and the part before has no separator. *)
Lemma split_once_first sep : forall s a b,
  is_empty sep = false ->
  split_once sep s = Some (a, b) ->
  s = (a ++ sep ++ b)%string /\ contains sep a = false.
Proof.
  intros s a b Hne. revert a b.
  induction s as [|c s IH]; intros a b H.
  - cbn [split_once] in H. rewrite prefix_nil_r, Hne in H. discriminate.
  - rewrite split_once_cons in H.
    destruct (prefix sep (String c s)) eqn:Hp.
    + injection H as <- <-. split.
      * cbn [append]. now apply prefix_drop.
      * cbn [contains]. now rewrite prefix_nil_r, Hne.
    + destruct (split_once sep s) as [[a' b']|]; [|discriminate].
      injection H as <- <-. destruct (IH a' b' eq_refl) as [Hs Ha].
      split; [cbn [append]; now rewrite <- Hs|].
      rewrite contains_cons, Ha, orb_false_r.
      destruct (prefix sep (String c a')) eqn:Hp'; auto.
      apply (prefix_app _ _ (sep ++ b')) in Hp'. cbn [append] in Hp'.
      rewrite <- Hs in Hp'. congruence.
Qed.

Lemma lstrip_head_kept x : head_kept (lstrip x) = true.
Proof.
  induction x as [|c x IH]; cbn [lstrip]; auto.
  destruct (isspace c) eqn:E; auto. cbn. now rewrite E.
Qed.

Lemma head_kept_lstrip x : head_kept x = true -> lstrip x = x.
Proof.
  destruct x as [|c x]; cbn; auto. intros H.
  apply negb_true_iff in H. now rewrite H.
Qed.

Lemma rstrip_head_kept x : head_kept x = true -> head_kept (rstrip x) = true.
Proof.
  destruct x as [|c x]; auto. unfold rstrip. cbn [head_kept rstrip_by].
  intros H. destruct (rstrip_by isspace x); cbn [head_kept]; auto.
  apply negb_true_iff in H. rewrite H. cbn [head_kept]. now rewrite H.
Qed.

Lemma rstrip_by_idem f x : rstrip_by f (rstrip_by f x) = rstrip_by f x.
Proof.
  induction x as [|c x IH]; auto. cbn [rstrip_by].
  destruct (rstrip_by f x) as [|c' r] eqn:E.
  - destruct (f c) eqn:Ef; auto. cbn [rstrip_by]. now rewrite Ef.
  - cbn [rstrip_by] in *. now rewrite IH.
Qed.

(** Trimming twice is trimming once: a trimmed string has no white space at
    either end. *)
Lemma strip_idem x : strip (strip x) = strip x.
Proof.
  unfold strip.
  rewrite (head_kept_lstrip (rstrip (lstrip x)))
    by apply rstrip_head_kept, lstrip_head_kept.
  apply rstrip_by_idem.
Qed.

(** X11: a line that contains " : " is cut at the first separator only: it
    is the text [a] before that separator, the separator and the text [b]
    after it, [a] has no separator, and the section gets, under the trimmed
    [a], the trimmed [b], which keeps every later " : " of the line; the key
    and the value stored have no white space at their ends.  Such a line
    never raises. *)
Theorem key_value_line_cut (line : string) :
  contains " : " line = true ->
  exists a b,
    line = (a ++ " : " ++ b)%string
    /\ contains " : " a = false
    /\ strip (strip a) = strip a
    /\ strip (strip b) = strip b
    /\ forall sec,
        line_step sec line
        = Ok (dset (strip a)
                   match dget (strip a) sec with
                   | Some (VList l) => VList (l ++ [strip b])
                   | Some (VStr q) => VList [q; strip b]
                   | None => VStr (strip b)
                   end sec).
Proof.
  intros Hc. destruct (contains_split_once _ _ Hc) as (a & b & Hs).
  exists a, b. destruct (split_once_first " : " line a b eq_refl Hs) as [Hl Ha].
  split; [exact Hl|]. split; [exact Ha|].
  split; [apply strip_idem|]. split; [apply strip_idem|].
  intros sec. apply line_step_kv. unfold kv_of. now rewrite Hs.
Qed.

Lemma key_value_line_cut_witness :
  exists a b,
    "Time : 12 : 30" = (a ++ " : " ++ b)%string
    /\ contains " : " a = false
    /\ strip (strip a) = strip a
    /\ strip (strip b) = strip b
    /\ forall sec,
        line_step sec "Time : 12 : 30"
        = Ok (dset (strip a)
                   match dget (strip a) sec with
                   | Some (VList l) => VList (l ++ [strip b])
                   | Some (VStr q) => VList [q; strip b]
                   | None => VStr (strip b)
                   end sec).
Proof.
  apply (key_value_line_cut "Time : 12 : 30"). reflexivity.
Defined.

(** * The order of the keys of a section *)

Lemma keys_dset {V : Type} k (v : V) d :
  map fst (dset k v d) = note_key (map fst d) k.
Proof.
  unfold note_key. induction d as [|[k0 v0] d IH]; cbn [dset map fst existsb].
  - reflexivity.
  - rewrite (String.eqb_sym k k0). destruct (String.eqb k0 k); cbn [orb map fst].
    + reflexivity.
    + rewrite IH. now destruct (existsb (String.eqb k) (map fst d)).
Qed.

Lemma dget_key_seen {V : Type} k (d : dict V) :
  existsb (String.eqb k) (map fst d) = dmem k d.
Proof.
  unfold dmem. induction d as [|[k0 v0] d IH]; cbn [map fst existsb dget]; auto.
  rewrite (String.eqb_sym k k0). destruct (String.eqb k0 k); auto.
Qed.

Lemma note_key_NoDup seen k : NoDup seen -> NoDup (note_key seen k).
Proof.
  intros H. unfold note_key.
  destruct (existsb (String.eqb k) seen) eqn:E; auto.
  apply NoDup_app; auto.
  - repeat constructor. intros [].
  - intros x Hx [E0|[]]. subst x.
    assert (existsb (String.eqb k) seen = true); [|congruence].
    apply existsb_exists. exists k. split; auto. apply String.eqb_refl.
Qed.

Lemma line_step_keys sec line sec' :
  line_step sec line = Ok sec' ->
  map fst sec' = note_key (map fst sec) (line_key line).
Proof.
  unfold line_key. destruct (kv_of line) as [[k v]|] eqn:E.
  - rewrite (line_step_kv _ _ _ _ E). intros [= <-]. apply keys_dset.
  - rewrite (line_step_narrative _ _ E). unfold narrative_line.
    destruct (dget "text" sec) as [[s|l]|]; [discriminate| |];
      intros [= <-]; apply keys_dset.
Qed.

(** X12: the keys of a section come in the order in which its lines first
    wrote them, each label at its first occurrence and "text" at the first
    narrative line; later lines add values and move no key; the keys are
    distinct; and the flattening of "text" keeps the order. *)
Theorem section_keys_in_order (lines : list string) (sec : section) :
  for_each line_step lines [] = Ok sec ->
  map fst sec = fold_left note_key (map line_key lines) []
  /\ NoDup (map fst sec)
  /\ map fst (flatten_section sec) = map fst sec.
Proof.
  intros Hrun.
  assert (G : forall ls s0 s1,
             for_each line_step ls s0 = Ok s1 ->
             map fst s1 = fold_left note_key (map line_key ls) (map fst s0)
             /\ (NoDup (map fst s0) -> NoDup (map fst s1))).
  { induction ls as [|l ls IH]; intros s0 s1 H; cbn [for_each] in H.
    - injection H as <-. auto.
    - destruct (line_step s0 l) as [s|] eqn:E; [|discriminate].
      cbn [bind] in H. destruct (IH _ _ H) as [Hk Hn].
      pose proof (line_step_keys _ _ _ E) as Hs.
      cbn [map fold_left]. rewrite <- Hs. split; auto.
      intros H0. apply Hn. rewrite Hs. now apply note_key_NoDup. }
  destruct (G _ _ _ Hrun) as [Hk Hn]. split; [exact Hk|].
  split; [apply Hn; constructor|].
  unfold flatten_section. destruct (dget "text" sec) eqn:E; auto.
  rewrite keys_dset. unfold note_key. rewrite dget_key_seen. unfold dmem.
  now rewrite E.
Qed.

Lemma section_keys_in_order_witness :
  map fst [("B", VList ["1"; "3"]); ("text", VList ["note"; "more"]);
           ("A", VStr "2")]
  = fold_left note_key
      (map line_key ["B : 1"; "note"; "A : 2"; "more"; "B : 3"]) []
  /\ NoDup (map fst [("B", VList ["1"; "3"]); ("text", VList ["note"; "more"]);
                     ("A", VStr "2")])
  /\ map fst (flatten_section
                [("B", VList ["1"; "3"]); ("text", VList ["note"; "more"]);
                 ("A", VStr "2")])
     = map fst [("B", VList ["1"; "3"]); ("text", VList ["note"; "more"]);
                ("A", VStr "2")].
Proof.
  apply (section_keys_in_order ["B : 1"; "note"; "A : 2"; "more"; "B : 3"]).
  reflexivity.
Defined.

(** * The record a classification goes to *)

(** X13: when every record of the master list has an identifier that can be
    hashed, the record updated for an incident is the last record of the
    master list that carries the incident's identifier, whatever the index
    of the incident; when no record carries it, the incident is skipped. *)
Theorem target_is_last_with_identifier
  (data : list incident) (ks : list pykey) (imap : list (pykey * nat))
  (inc : incident) (acn : json) (k : pykey) (i : nat) :
  keys_of data = Some ks ->
  incident_map (all_have_acn data) data = Ok imap ->
  dget "ACN" inc = Some acn ->
  hash_key acn = Ok k ->
  (exists j,
      find_target (all_have_acn data) data imap inc i = Ok (Some j)
      /\ nth_error ks j = Some k
      /\ forall j', j < j' -> nth_error ks j' <> Some k)
  \/ (find_target (all_have_acn data) data imap inc i = Ok None
      /\ ~ In k ks).
Proof.
  intros Hks Hmap Hacn Hk.
  rewrite (keys_of_all_have_acn _ _ Hks) in *.
  unfold incident_map in Hmap. rewrite (build_map_keys _ _ _ _ Hks) in Hmap.
  injection Hmap as <-. unfold find_target. rewrite Hacn, Hk. cbn [bind].
  rewrite enter_keys_last. cbn [kget].
  destruct (last_index k ks) as [j|] eqn:E.
  - left. exists j. split; [reflexivity|]. now apply last_index_some.
  - right. split; [reflexivity|]. now apply last_index_none.
Qed.

Lemma target_is_last_with_identifier_witness :
  (exists j,
      find_target (all_have_acn two_alike) two_alike
        [(KStr "7", 1)] [("ACN", JStr "7")] 0 = Ok (Some j)
      /\ nth_error [KStr "7"; KStr "7"] j = Some (KStr "7")
      /\ forall j', j < j' -> nth_error [KStr "7"; KStr "7"] j' <> Some (KStr "7"))
  \/ (find_target (all_have_acn two_alike) two_alike
        [(KStr "7", 1)] [("ACN", JStr "7")] 0 = Ok None
      /\ ~ In (KStr "7") [KStr "7"; KStr "7"]).
Proof.
  apply (target_is_last_with_identifier two_alike [KStr "7"; KStr "7"]
           [(KStr "7", 1)] [("ACN", JStr "7")] (JStr "7") (KStr "7") 0);
    reflexivity.
Defined.

(** * A narrative given as a list *)

Lemma json_strings_map l : json_strings (map JStr l) = Ok l.
Proof.
  induction l as [|s l IH]; cbn [map json_strings]; auto.
  now rewrite IH.
Qed.

(** X14: a narrative stored as a list of lines is read by the classifier as
    its lines joined by newlines, which is the string the extractor's
    flattening stores: the classifier resolves the same narrative from a
    record before and after the flattening. *)
Theorem list_narrative_is_joined
  (r : record) (field : string) (d : section) (lines : list string) :
  dget field r = Some (Sect d) ->
  dget "text" d = Some (VList lines) ->
  resolve_narrative field (record_json r) = Ok (JStr (join nl lines))
  /\ resolve_narrative field (record_json (flatten_record r))
     = Ok (JStr (join nl lines)).
Proof.
  intros Hr Hd. unfold resolve_narrative, record_json.
  rewrite !dget_map_values, flatten_record_get, Hr.
  cbn [option_map entry_json flatten_entry].
  rewrite !dget_map_values, flatten_section_text, Hd.
  cbn [option_map value_json]. rewrite json_strings_map. auto.
Qed.

Lemma list_narrative_is_joined_witness :
  resolve_narrative "Narrative"
    (record_json [("Narrative", Sect [("text", VList ["one"; "two"])])])
  = Ok (JStr (join nl ["one"; "two"]))
  /\ resolve_narrative "Narrative"
       (record_json
          (flatten_record [("Narrative", Sect [("text", VList ["one"; "two"])])]))
     = Ok (JStr (join nl ["one"; "two"])).
Proof.
  apply (list_narrative_is_joined
           [("Narrative", Sect [("text", VList ["one"; "two"])])]
           "Narrative" [("text", VList ["one"; "two"])] ["one"; "two"]);
    reflexivity.
Defined.

(** * Running the same range again *)

Lemma classification_by_prompt format_prompt count_tokens json_loads service :
  (forall c c' prompt, service c prompt = service c' prompt) ->
  forall c c' text,
    classification (get_hfacs_classification_from_llm format_prompt
                      count_tokens json_loads service c text)
    = classification (get_hfacs_classification_from_llm format_prompt
                        count_tokens json_loads service c' text).
Proof.
  intros Hs c c' text. unfold get_hfacs_classification_from_llm.
  destruct (is_empty text || is_empty (strip text)); auto.
  rewrite (Hs c c').
  destruct (service c' (format_prompt text)) as [m| |m|u t]; auto.
  destruct (strip_fences t) as [x|e]; auto.
  destruct (json_loads x) as [[]|]; auto.
Qed.

(** X15: with a service whose answer depends on the request only, running
    the same range a second time, on the output file of the first run,
    writes the same file again.  The master list of the first run (the
    output file it finds, or the input) is not empty; its identifiers can be
    hashed and are pairwise distinct, or some record has none; in the first
    case every incident of the range has an identifier that can be hashed;
    the narrative of every record of the master list resolves to a string;
    the first incident of the range passes the reading of line 330; and the
    narrative field is not "hfacs_classification". *)
Theorem rerun_is_idempotent
  (format_prompt : string -> string) (count_tokens : string -> Z)
  (json_loads : string -> option json)
  (service : list string -> string -> outcome) (field : string)
  (incidents : list incident) (existing : option (list incident))
  (data : list incident) (start_index : Z) (end_index : option Z)
  (s e : nat) (calls1 calls2 : list string) :
  (forall c c' prompt, service c prompt = service c' prompt) ->
  field <> "hfacs_classification" ->
  processing_range (List.length incidents) start_index end_index = Some (s, e) ->
  data = match existing with Some d => d | None => incidents end ->
  data <> [] ->
  usable_ids data ->
  keyed data incidents s e = true ->
  narratives_resolve field data = true ->
  probe_passes field incidents s = true ->
  exists out log1 log2,
    main format_prompt count_tokens json_loads service field
      incidents start_index end_index existing calls1 = Ok (Some out, log1)
    /\ main format_prompt count_tokens json_loads service field
         incidents start_index end_index (Some out) calls2 = Ok (Some out, log2).
Proof.
  intros Hs Hf Hr Hdata Hne Hus Hk Hnar Hp.
  destruct (run_merges format_prompt count_tokens json_loads service field Hf
              incidents existing data start_index end_index s e calls1)
    as (out1 & log1 & Hrun1 & M1); auto.
  assert (Hlen1 : List.length out1 = List.length data)
    by (eapply merged_into_length; eauto).
  assert (Hne1 : out1 <> []).
  { intros ->. destruct data; [contradiction|discriminate]. }
  destruct (run_merges format_prompt count_tokens json_loads service field Hf
              incidents (Some out1) out1 start_index end_index s e calls2)
    as (out2 & log2 & Hrun2 & M2); auto.
  { eapply merged_into_usable; eauto. }
  { eapply merged_into_keyed; eauto. }
  { eapply merged_into_narratives; eauto. }
  assert (Hlen2 : List.length out2 = List.length out1)
    by (eapply merged_into_length; eauto).
  assert (Hids1 : map acn_of out1 = map acn_of data) by (now destruct M1).
  rewrite (targets_ids _ _ _ _ Hids1) in M2.
  assert (Heq : out2 = out1).
  { apply nth_error_ext. intros j.
    destruct (nth_error data j) as [target|] eqn:Hd.
    - destruct M1 as [_ Hhit1 Hrest1]. destruct M2 as [_ Hhit2 Hrest2].
      destruct (in_dec Nat.eq_dec j (targets data s (slice_of incidents s e)))
        as [Hin|Hnin]; [|now apply Hrest2].
      destruct (Hhit1 j target Hin Hd) as (c1 & Ho1 & (t1 & k1 & Hn1 & Hc1)).
      destruct (Hhit2 j _ Hin Ho1) as (c2 & Ho2 & (t2 & k2 & Hn2 & Hc2)).
      rewrite Ho2, Ho1. apply (f_equal Some).
      rewrite classified_narrative in Hn2 by assumption.
      rewrite Hn1 in Hn2. injection Hn2 as <-.
      assert (Hc : c2 = c1).
      { rewrite Hc1, Hc2.
        apply (classification_by_prompt _ _ _ _ Hs). }
      rewrite Hc. unfold classified. apply dset_dset.
    - apply nth_error_None in Hd.
      assert (H1 : nth_error out1 j = None) by (apply nth_error_None; lia).
      assert (H2 : nth_error out2 j = None) by (apply nth_error_None; lia).
      congruence. }
  subst out2. eauto.
Qed.

Lemma rerun_is_idempotent_witness :
  exists out log1 log2,
    main (fun s => s) (fun _ => 0%Z) (fun _ => Some (JArr []))
         (fun _ prompt => RaisesAPIError prompt) "Narrative"
         three_distinct 0%Z (Some 2%Z) (Some three_shuffled) []
    = Ok (Some out, log1)
    /\ main (fun s => s) (fun _ => 0%Z) (fun _ => Some (JArr []))
            (fun _ prompt => RaisesAPIError prompt) "Narrative"
            three_distinct 0%Z (Some 2%Z) (Some out) ["earlier"]
       = Ok (Some out, log2).
Proof.
  apply (rerun_is_idempotent (fun s => s) (fun _ => 0%Z) (fun _ => Some (JArr []))
           (fun _ prompt => RaisesAPIError prompt) "Narrative"
           three_distinct (Some three_shuffled) three_shuffled
           0%Z (Some 2%Z) 0 2 [] ["earlier"]).
  - reflexivity.
  - discriminate.
  - vm_compute. reflexivity.
  - reflexivity.
  - discriminate.
  - right. exists [KStr "3"; KStr "1"; KStr "2"]. split; [reflexivity|].
    repeat constructor; cbn; intuition discriminate.
  - vm_compute. reflexivity.
  - vm_compute. reflexivity.
  - vm_compute. reflexivity.
Defined.
